(** * cfdns: a shallow embedding of the reconciliation engine

    The development follows the packages of the repository:
    [Config] (pkg/config), [Ipget] (pkg/ipget), [Cf] (pkg/cf) and
    [Watcher] (the file watcher of cmd/main.go).  External collaborators
    (the operating system, the YAML decoder, the HTTP transport, the
    Cloudflare client, the goropo pool) are interfaces whose answers are
    supplied by the caller of each function. *)

From Stdlib Require Import ZArith NArith String Ascii List Bool Lia DecimalString.
From stdpp Require Import base gmap strings list.



(** ** Go values shared by all packages *)
Module Go.

(** The two sentinel errors of package [context]. *)
Inductive sentinel := DeadlineExceeded | Canceled.

(** Go [error] values.  [Errorf] is an error built from a message alone
    ([errors.New], [fmt.Errorf] without [%w]); [Wrapf] is one that wraps
    another error ([fmt.Errorf] with [%w], [*url.Error]); [MissingEnv] is
    the error of [expandEnv], whose message lists the names of a Go map
    in unspecified order: it is kept as the set of names. *)
Inductive error :=
| Sentinel (s : sentinel)
| Errorf (msg : string)
| Wrapf (msg : string) (inner : error)
| MissingEnv (names : gset string).

Definition sentinel_eqb (a b : sentinel) : bool :=
  match a, b with
  | DeadlineExceeded, DeadlineExceeded => true
  | Canceled, Canceled => true
  | _, _ => false
  end.

(** [errors.Is err target] for a sentinel target: walk the Unwrap chain. *)
Fixpoint errors_Is (err : error) (target : sentinel) : bool :=
  match err with
  | Sentinel s => sentinel_eqb s target
  | Wrapf _ inner => errors_Is inner target
  | Errorf _ | MissingEnv _ => false
  end.

(** A Go pair [(value, error)] of which exactly one side is meaningful. *)
Inductive Result (A : Type) :=
| Ok (a : A)
| Err (e : error).
Arguments Ok {A} a.
Arguments Err {A} e.

Definition is_err {A} (r : Result A) : bool :=
  match r with Ok _ => false | Err _ => true end.

(** [time.Duration]: a count of nanoseconds. *)
Definition Duration := Z.
Definition Nanosecond : Duration := 1%Z.
Definition Second : Duration := (1000 * 1000 * 1000)%Z.
Definition Minute : Duration := (60 * Second)%Z.
Definition Hour : Duration := (60 * Minute)%Z.

(** *** strings *)

Definition byte_of (c : ascii) : N := N_of_ascii c.

(** [utf8.RuneSelf]: bytes below it are single-byte runes. *)
Definition RuneSelf : N := 128%N.

(** The table [asciiSpace] of package strings. *)
Definition asciiSpace (c : ascii) : bool :=
  let n := byte_of c in
  (n =? 9)%N || (n =? 10)%N || (n =? 11)%N || (n =? 12)%N || (n =? 13)%N
  || (n =? 32)%N.

Fixpoint take (n : nat) (s : string) : string :=
  match n, s with
  | S k, String c s' => String c (take k s')
  | _, _ => EmptyString
  end.

Fixpoint drop (n : nat) (s : string) : string :=
  match n, s with
  | S k, String _ s' => drop k s'
  | _, _ => s
  end.

(** The second loop of [strings.TrimSpace], run on the reversed text: how
    many trailing ASCII spaces there are, and whether the scan stopped on
    a byte that is not ASCII. *)
Fixpoint trailing_spaces (rev_s : string) : nat * bool :=
  match rev_s with
  | EmptyString => (O, false)
  | String c r =>
      if (RuneSelf <=? byte_of c)%N then (O, true)
      else if asciiSpace c then
        let '(k, u) := trailing_spaces r in (S k, u)
      else (O, false)
  end.

Section TrimSpace.
(** [strings.TrimFunc(s, unicode.IsSpace)] and
    [strings.TrimRightFunc(s, unicode.IsSpace)], the slow path taken
    once a byte outside ASCII is met. *)
Variable TrimFunc_IsSpace : string -> string.
Variable TrimRightFunc_IsSpace : string -> string.

Definition trim_right (s : string) : string :=
  let '(k, u) := trailing_spaces (String.rev s) in
  let kept := take (String.length s - k) s in
  if u then TrimRightFunc_IsSpace kept else kept.

(** [strings.TrimSpace]: the first loop walks over leading ASCII
    spaces, the second over trailing ones. *)
Fixpoint TrimSpace (s : string) : string :=
  match s with
  | EmptyString => EmptyString
  | String c s' =>
      if (RuneSelf <=? byte_of c)%N then TrimFunc_IsSpace s
      else if asciiSpace c then TrimSpace s'
      else trim_right s
  end.
End TrimSpace.

End Go.

(** ** pkg/config *)
Module Config.
Import Go.

Definition DEFAULT_FREQUENCY : Duration := (Hour * 1)%Z.
Definition MINIMUM_FREQUENCY : Duration := (Minute * 1)%Z.
Definition DEFAULT_TIMEOUT : Duration := (Second * 10)%Z.
Definition MINIMUM_TIMEOUT : Duration := (Second * 1)%Z.
Definition DEFAULT_WORKER_COUNT : Z := 10.
Definition MINIMUM_WORKER_COUNT : Z := 1.
Definition MAXIMUM_WORKER_COUNT : Z := 100.

Record Domain := {
  Hostname : string;
  Proxied : option bool;   (* *bool: None is nil, "leave unchanged" *)
}.

Record Config := {
  ZoneID : string;
  Token : string;
  Frequency : Duration;
  Verbose : bool;
  IPv4 : option bool;      (* *bool *)
  IPv6 : option bool;      (* *bool *)
  Domains : list Domain;
  WorkerCount : Z;
  Timeout : Duration;
}.

(** *** The pattern [reEnv]: a dollar sign, an opening brace, a name
    [[A-Za-z_][A-Za-z0-9_]*] and a closing brace. *)

Definition between (lo hi : N) (c : ascii) : bool :=
  ((lo <=? byte_of c) && (byte_of c <=? hi))%N.

Definition name_start (c : ascii) : bool :=
  between 65 90 c || between 97 122 c || (byte_of c =? 95)%N.

Definition name_char (c : ascii) : bool :=
  name_start c || between 48 57 c.

(** The longest run of name characters at the head of [s], and the rest. *)
Fixpoint span_name (s : string) : string * string :=
  match s with
  | EmptyString => (EmptyString, EmptyString)
  | String c s' =>
      if name_char c then
        let '(n, rest) := span_name s' in (String c n, rest)
      else (EmptyString, s)
  end.

(** A match of [reEnv] anchored at the head of [s]: the captured name and
    the text after the match.  The closing brace is no name character, so
    the greedy run is the only candidate. *)
Definition match_reEnv (s : string) : option (string * string) :=
  match s with
  | String a (String b (String c r)) =>
      if Ascii.eqb a "$" && Ascii.eqb b "{" && name_start c then
        let '(n, rest) := span_name r in
        match rest with
        | String d rest' =>
            if Ascii.eqb d "}" then Some (String c n, rest') else None
        | EmptyString => None
        end
      else None
  | _ => None
  end.

(** The text of a match with captured name [n]. *)
Definition reference (n : string) : string :=
  String "$" (String "{" (n +:+ "}")).

(** [reEnv.FindStringSubmatch(m)[1]]. *)
Definition FindStringSubmatch_1 (m : string) : string :=
  match match_reEnv m with
  | Some (n, _) => n
  | None => EmptyString
  end.

(** [reEnv.ReplaceAllStringFunc(data, repl)], the callback threading a
    state of its own (the source's callback writes to the map [missing]).
    Matches are taken leftmost first and do not overlap: after a match of
    [k] bytes the next [k - 1] bytes are passed over ([skip]). *)
Fixpoint ReplaceAllStringFunc {St : Type}
    (repl : string -> St -> string * St)
    (skip : nat) (s : string) (st : St) : string * St :=
  match s with
  | EmptyString => (EmptyString, st)
  | String c s' =>
      match skip with
      | S k => ReplaceAllStringFunc repl k s' st
      | O =>
          match match_reEnv s with
          | Some (n, _) =>
              let m := reference n in
              let '(out, st1) := repl m st in
              let '(tl, st2) :=
                ReplaceAllStringFunc repl (String.length m - 1) s' st1 in
              (out +:+ tl, st2)
          | None =>
              let '(tl, st1) := ReplaceAllStringFunc repl 0 s' st in
              (String c tl, st1)
          end
      end
  end.

(** The callback of [expandEnv]; [env] is the process environment read
    by [os.LookupEnv]. *)
Definition expand_one (env : gmap string string)
    (m : string) (missing : gset string) : string * gset string :=
  let name := FindStringSubmatch_1 m in
  match env !! name with
  | None => (EmptyString, {[ name ]} ∪ missing)
  | Some val => (val, missing)
  end.

Definition expandEnv (env : gmap string string) (data : string)
  : Result string :=
  let '(data', missing) := ReplaceAllStringFunc (expand_one env) 0 data ∅ in
  if decide (0 < size missing) then Err (MissingEnv missing)
  else Ok data'.

Section LoadConfig.
(** The collaborators of [LoadConfig]: [os.ReadFile], the process
    environment, the strict YAML decoder, and the slow path of
    [strings.TrimSpace]. *)
Variable ReadFile : string -> Result string.
Variable env : gmap string string.
Variable Decode : string -> Result Config.
Variable TrimFunc_IsSpace : string -> string.
Variable TrimRightFunc_IsSpace : string -> string.

Local Abbreviation TrimSpace := (Go.TrimSpace TrimFunc_IsSpace TrimRightFunc_IsSpace).

(** The part of [LoadConfig] after decoding: each assignment of the
    source is a [let] on the field it writes. *)
Definition normalize (config : Config) : Result Config :=
  let zone := TrimSpace (ZoneID config) in
  if decide (zone = "") then Err (Errorf "zone id cannot be empty") else
  let token := TrimSpace (Token config) in
  if decide (token = "") then Err (Errorf "API token cannot be empty") else
  if (length (Domains config) =? 0)%nat
  then Err (Errorf "domains list cannot be empty") else
  let freq := Frequency config in
  let freq := if (freq =? 0)%Z then DEFAULT_FREQUENCY else freq in
  let freq := if (freq <? MINIMUM_FREQUENCY)%Z then MINIMUM_FREQUENCY else freq in
  let tmo := Timeout config in
  let tmo := if (tmo =? 0)%Z then DEFAULT_TIMEOUT else tmo in
  let tmo := if (tmo <? MINIMUM_TIMEOUT)%Z then MINIMUM_TIMEOUT else tmo in
  let wc := WorkerCount config in
  let wc := if (wc <=? 0)%Z then DEFAULT_WORKER_COUNT else wc in
  let wc := if (wc <? MINIMUM_WORKER_COUNT)%Z then MINIMUM_WORKER_COUNT else wc in
  let wc := if (wc >? MAXIMUM_WORKER_COUNT)%Z then MAXIMUM_WORKER_COUNT else wc in
  let v4 := IPv4 config in
  let v6 := IPv6 config in
  let '(v4, v6) :=
    match v4, v6 with
    | None, None => (Some true, Some true)
    | _, _ => (v4, v6)
    end in
  let v4 := match v4 with None => false | Some b => b end in
  let v6 := match v6 with None => false | Some b => b end in
  if negb v4 && negb v6
  then Err (Errorf "at least one of ipv4 or ipv6 must be enabled") else
  Ok {| ZoneID := zone; Token := token; Frequency := freq;
        Verbose := Verbose config; IPv4 := Some v4; IPv6 := Some v6;
        Domains := Domains config; WorkerCount := wc; Timeout := tmo |}.

Definition LoadConfig (filename : string) : Result Config :=
  match ReadFile filename with
  | Err e => Err (Wrapf "could not read file" e)
  | Ok raw =>
      match expandEnv env raw with
      | Err e => Err e
      | Ok data =>
          match Decode data with
          | Err e => Err (Wrapf "could not parse config file" e)
          | Ok config => normalize config
          end
      end
  end.
End LoadConfig.

(** *** Vocabulary for stating what [expandEnv] does *)

Fixpoint all_chars (p : ascii -> bool) (s : string) : bool :=
  match s with
  | EmptyString => true
  | String c s' => p c && all_chars p s'
  end.

(** A name as the pattern admits it. *)
Definition valid_name (n : string) : bool :=
  match n with
  | EmptyString => false
  | String c t => name_start c && all_chars name_char t
  end.

(** The text [s] references the variable [n]: it contains the reference
    text of [n] somewhere. *)
Definition references (s n : string) : Prop :=
  valid_name n = true /\ exists pre post, s = pre +:+ reference n +:+ post.

(** [substituted env s out]: [out] is [s] read from left to right with
    every reference replaced by the value of its variable, all other bytes
    kept. *)
Inductive substituted (env : gmap string string) : string -> string -> Prop :=
| subst_end : substituted env "" ""
| subst_ref n v rest out :
    valid_name n = true ->
    env !! n = Some v ->
    substituted env rest out ->
    substituted env (reference n +:+ rest) (v +:+ out)
| subst_byte c s out :
    (forall n rest, valid_name n = true -> String c s <> reference n +:+ rest) ->
    substituted env s out ->
    substituted env (String c s) (String c out).

(** The value [LoadConfig] gives an address-family flag: its own when it is
    given, true when neither flag is given, false when only the other is. *)
Definition flag_value (own other : option bool) : bool :=
  match own, other with
  | Some b, _ => b
  | None, None => true
  | None, Some _ => false
  end.

(** The names the callback of [ReplaceAllStringFunc] is called with on
    [s], in order: a callback that replaces nothing and notes each name. *)
Definition note_name (m : string) (seen : list string) : string * list string :=
  (EmptyString, seen ++ [FindStringSubmatch_1 m]).

Definition referenced (s : string) : list string :=
  snd (ReplaceAllStringFunc note_name 0 s []).

End Config.

(** ** pkg/ipget *)
Module Ipget.
Import Go.

Definition ipv4Services : list string :=
  [ "https://api.ipify.org"; "https://ipv4.icanhazip.com"; "https://v4.ident.me" ].

Definition ipv6Services : list string :=
  [ "https://api6.ipify.org"; "https://ipv6.icanhazip.com"; "https://v6.ident.me" ].

Definition TIMEOUT_DEFAULT : Duration := (Second * 5)%Z.

(** [net.IP]: a byte slice; the nil slice is the empty list. *)
Definition IP := list Byte.byte.

Definition IPv4len : nat := 4.
Definition IPv6len : nat := 16.

Definition is_nil (ip : IP) : bool :=
  match ip with [] => true | _ :: _ => false end.

Definition v4InV6Prefix : IP :=
  [ Byte.x00; Byte.x00; Byte.x00; Byte.x00; Byte.x00; Byte.x00; Byte.x00;
    Byte.x00; Byte.x00; Byte.x00; Byte.xff; Byte.xff ].

Definition isZeros (p : IP) : bool := forallb (Byte.eqb Byte.x00) p.

(** [ip.To4()] of package net. *)
Definition To4 (ip : IP) : IP :=
  if (length ip =? IPv4len)%nat then ip
  else if (length ip =? IPv6len)%nat
          && isZeros (firstn 10 ip)
          && Byte.eqb (nth 10 ip Byte.x00) Byte.xff
          && Byte.eqb (nth 11 ip Byte.x00) Byte.xff
       then skipn 12 ip
       else [].

(** [ip.To16()] of package net. *)
Definition To16 (ip : IP) : IP :=
  if (length ip =? IPv4len)%nat then v4InV6Prefix ++ ip
  else if (length ip =? IPv6len)%nat then ip
  else [].

(** An HTTP response as [getSmallText] reads it: the status code, the bytes
    of the body, and the error that ends the body stream when it does not
    end with EOF. *)
Record Response := {
  StatusCode : Z;
  Body : string;
  BodyErr : option error;
}.

Definition StatusOK : Z := 200.

(** The verb [%d] of package fmt. *)
Definition Itoa (z : Z) : string := NilEmpty.string_of_int (Z.to_int z).

(** [io.ReadAll(io.LimitReader(body, n))]: the limit is reached before the
    end of the stream is looked at. *)
Definition ReadAll_LimitReader (n : nat) (resp : Response) : Result string :=
  if (n <=? String.length (Body resp))%nat then Ok (take n (Body resp))
  else match BodyErr resp with
       | Some e => Err e
       | None => Ok (Body resp)
       end.

Section Resolver.
(** The collaborators: building and sending the request
    ([http.NewRequestWithContext], then [client.Do], either of which may
    fail), [net.ParseIP], [ip.String()], [rand.Shuffle], and the slow path
    of [strings.TrimSpace]. *)
Variable Do : string -> Result Response.
Variable ParseIP : string -> IP.
Variable IPString : IP -> string.
Variable Shuffle : list string -> list string.
Variable TrimFunc_IsSpace : string -> string.
Variable TrimRightFunc_IsSpace : string -> string.

Local Abbreviation TrimSpace := (Go.TrimSpace TrimFunc_IsSpace TrimRightFunc_IsSpace).

Definition strToIP (ipStr : string) : IP :=
  let ip := ParseIP ipStr in
  if is_nil ip then []
  else let ip4 := To4 ip in
       if negb (is_nil ip4) then ip4 else To16 ip.

Definition getSmallText (url : string) : Result string :=
  match Do url with
  | Err err => Err err
  | Ok resp =>
      if negb (StatusCode resp =? StatusOK)%Z
      then Err (Errorf ("unexpected status code: " +:+ Itoa (StatusCode resp)))
      else match ReadAll_LimitReader 128 resp with
           | Err err => Err err
           | Ok body => Ok (TrimSpace body)
           end
  end.

(** The loop of [getPublicIP] over the shuffled services; the first
    component is the list of services a request was sent to, in order. *)
Fixpoint tryServices (services : list string) : list string * Result string :=
  match services with
  | [] => ([], Err (Errorf "could not retrieve public IP address"))
  | service :: rest =>
      match getSmallText service with
      | Err err =>
          if errors_Is err DeadlineExceeded || errors_Is err Canceled
          then ([service], Err err)
          else let '(tried, r) := tryServices rest in (service :: tried, r)
      | Ok ipStr =>
          let ip := strToIP ipStr in
          if negb (is_nil ip) then ([service], Ok (IPString ip))
          else let '(tried, r) := tryServices rest in (service :: tried, r)
      end
  end.

Definition getPublicIP (services : list string) : list string * Result string :=
  tryServices (Shuffle services).

Definition GetPublicIPv4 : Result string := snd (getPublicIP ipv4Services).
Definition GetPublicIPv6 : Result string := snd (getPublicIP ipv6Services).

(** *** Vocabulary for stating what the loop does *)

(** [service] failed with another error, or answered with a text that is
    no IP literal. *)
Definition skipped (service : string) : Prop :=
  (exists err, getSmallText service = Err err
     /\ errors_Is err DeadlineExceeded = false /\ errors_Is err Canceled = false)
  \/ (exists ipStr, getSmallText service = Ok ipStr /\ strToIP ipStr = []).

(** [service] answered with an IP literal. *)
Definition answers (service : string) (ip : IP) : Prop :=
  exists ipStr, getSmallText service = Ok ipStr /\ strToIP ipStr = ip /\ ip <> [].

(** The request to [service] failed with a deadline or cancellation error. *)
Definition aborts (service : string) (err : error) : Prop :=
  getSmallText service = Err err
  /\ (errors_Is err DeadlineExceeded = true \/ errors_Is err Canceled = true).

End Resolver.

End Ipget.

(** ** The interface of cloudflare-go that the engine consumes *)
Module Cloudflare.
Import Go.

Record API := { APIToken : string }.

Record DNSRecord := {
  ID : string;
  Name : string;
  Type_ : string;            (* Type *)
  Content : string;
  Proxied : option bool;    (* *bool *)
}.

Record Zone := { ZoneID : string }.

Record ListDNSRecordsParams := { ListName : string; ListType : string }.

Record CreateDNSRecordParams := {
  CreateName : string;
  CreateContent : string;
  CreateType : string;
  CreateProxied : option bool;
}.

Record UpdateDNSRecordParams := {
  UpdateID : string;
  UpdateContent : string;
  UpdateProxied : option bool;
}.

(** A call on the client, with the zone identifier it is made for. *)
Inductive Call :=
| CallListDNSRecords (zone : string) (p : ListDNSRecordsParams)
| CallCreateDNSRecord (zone : string) (p : CreateDNSRecordParams)
| CallUpdateDNSRecord (zone : string) (p : UpdateDNSRecordParams)
| CallListZones.

(** The provider: what each call answers, given the client and the calls
    made before it. *)
Record Service := {
  NewWithAPIToken : string -> Result API;
  ListDNSRecords : API -> list Call -> string -> ListDNSRecordsParams
                   -> Result (list DNSRecord);
  CreateDNSRecord : API -> list Call -> string -> CreateDNSRecordParams
                    -> Result DNSRecord;
  UpdateDNSRecord : API -> list Call -> string -> UpdateDNSRecordParams
                    -> Result DNSRecord;
  ListZones : API -> list Call -> Result (list Zone);
}.

Definition is_update_of (id : string) (c : Call) : bool :=
  match c with
  | CallUpdateDNSRecord _ p => bool_decide (UpdateID p = id)
  | _ => false
  end.

Definition is_update (c : Call) : bool :=
  match c with
  | CallUpdateDNSRecord _ _ => true
  | _ => false
  end.

End Cloudflare.

(** ** pkg/cf *)
Module Cf.
Import Go.

Definition RECORD_TYPE_IPV4 : string := "A".
Definition RECORD_TYPE_IPV6 : string := "AAAA".

Record HTTPClient := { ClientTimeout : Duration }.

(** The struct [CFDNS] without its mutex; [pool] is a handle into the
    pools of the process. *)
Record CFDNS := {
  cfg : Config.Config;
  api : option Cloudflare.API;      (* *cloudflare.API *)
  httpClient : HTTPClient;
  timeout : Duration;
  pool : option nat;                (* *goropo.Pool *)
}.

(** *** Calls on the provider *)

(** A function either returns or panics (a nil pointer is dereferenced). *)
Inductive Outcome (A : Type) :=
| Returned (a : A)
| Panicked.
Arguments Returned {A} a.
Arguments Panicked {A}.

(** A computation that makes calls on the provider: the calls made so far
    go in, the outcome and the extended list of calls come out. *)
Definition M (A : Type) : Type :=
  list Cloudflare.Call -> Outcome A * list Cloudflare.Call.

Definition ret {A} (a : A) : M A := fun h => (Returned a, h).

Definition panic {A} : M A := fun h => (Panicked, h).

Definition bind {A B} (m : M A) (k : A -> M B) : M B :=
  fun h => match m h with
           | (Returned a, h') => k a h'
           | (Panicked, h') => (Panicked, h')
           end.

(** Make the call [c]; its answer may depend on the calls made before. *)
Definition call {A} (c : Cloudflare.Call)
    (answer : list Cloudflare.Call -> Result A) : M (Result A) :=
  fun h => (Returned (answer h), h ++ [c]).

Notation "'do' x <- m ; k" := (bind m (fun x => k))
  (at level 10, x name, m at level 100, k at level 200).

(** What becomes of a task that is handed to [goropo.Submit] and awaited
    with the same context: it runs to its end and the future carries its
    result; or the pool or the context refuses it and it never starts; or
    it starts and the wait ends with the error of the context before the
    task has finished. *)
Inductive Fate :=
| Runs
| Refused (err : error)
| Abandoned (err : error).

(** The calls on the provider that the zone check makes. *)
Definition zone_calls (fate : Fate) : list Cloudflare.Call :=
  match fate with
  | Refused _ => []
  | Runs | Abandoned _ => [Cloudflare.CallListZones]
  end.

Section Engine.
Variable svc : Cloudflare.Service.

Definition getRecords (cfdns : CFDNS) (hostname recordType : string)
  : M (Result (list Cloudflare.DNSRecord)) :=
  match api cfdns with
  | None => panic
  | Some a =>
      let zone := Config.ZoneID (cfg cfdns) in
      let p := {| Cloudflare.ListName := hostname;
                  Cloudflare.ListType := recordType |} in
      call (Cloudflare.CallListDNSRecords zone p)
           (fun h => Cloudflare.ListDNSRecords svc a h zone p)
  end.

(** [ZoneIsValid]: the listing is handed to the pool with
    [goropo.Submit], which dereferences the pool, and the future is awaited
    with the same context.  A task that never starts makes no call; the
    error of the wait, if any, is returned whatever the listing said. *)
Definition ZoneIsValid (cfdns : CFDNS) (fate : Fate) : M (bool * option error) :=
  match pool cfdns with
  | None => panic
  | Some _ =>
      match fate with
      | Refused err => ret (false, Some err)
      | Runs | Abandoned _ =>
          match api cfdns with
          | None => panic
          | Some a =>
              let zoneID := Config.ZoneID (cfg cfdns) in
              do r <- call Cloudflare.CallListZones
                           (fun h => Cloudflare.ListZones svc a h) ;
              match fate, r with
              | Abandoned err, _ => ret (false, Some err)
              | _, Err err => ret (false, Some err)
              | _, Ok zones =>
                  ret (existsb (fun zone =>
                                  String.eqb (Cloudflare.ZoneID zone) zoneID)
                               zones,
                       None)
              end
          end
      end
  end.

(** The condition under which the loop of [checkAndUpdate] leaves a record
    as it is. *)
Definition record_matches (record : Cloudflare.DNSRecord)
    (domain : Config.Domain) (address : string) : bool :=
  String.eqb (Cloudflare.Content record) address
  && match Cloudflare.Proxied record, Config.Proxied domain with
     | None, _ => true
     | Some _, None => true
     | Some rp, Some dp => Bool.eqb rp dp
     end.

Definition update_call (cfdns : CFDNS) (record : Cloudflare.DNSRecord)
    (domain : Config.Domain) (address : string) : Cloudflare.Call :=
  Cloudflare.CallUpdateDNSRecord (Config.ZoneID (cfg cfdns))
    {| Cloudflare.UpdateID := Cloudflare.ID record;
       Cloudflare.UpdateContent := address;
       Cloudflare.UpdateProxied := Config.Proxied domain |}.

(** What one pass through the body of the loop over [records] does: leave
    the function with a result, or go on with the next record. *)
Inductive Control := Return (err : option error) | Next.

Definition updateRecord (cfdns : CFDNS) (domain : Config.Domain)
    (address : string) (record : Cloudflare.DNSRecord) : M Control :=
  if record_matches record domain address then ret (Return None)
  else
    match api cfdns with
    | None => panic
    | Some a =>
        let zone := Config.ZoneID (cfg cfdns) in
        let p := {| Cloudflare.UpdateID := Cloudflare.ID record;
                    Cloudflare.UpdateContent := address;
                    Cloudflare.UpdateProxied := Config.Proxied domain |} in
        do r <- call (Cloudflare.CallUpdateDNSRecord zone p)
                  (fun h => Cloudflare.UpdateDNSRecord svc a h zone p) ;
        match r with
        | Err err => ret (Return (Some err))
        | Ok _ => ret Next
        end
    end.

Fixpoint updateRecords (cfdns : CFDNS) (domain : Config.Domain)
    (address : string) (records : list Cloudflare.DNSRecord) : M (option error) :=
  match records with
  | [] => ret None
  | record :: rest =>
      do c <- updateRecord cfdns domain address record ;
      match c with
      | Return err => ret err
      | Next => updateRecords cfdns domain address rest
      end
  end.

Definition checkAndUpdate (cfdns : CFDNS) (domain : Config.Domain)
    (recordType address : string) : M (option error) :=
  do r <- getRecords cfdns (Config.Hostname domain) recordType ;
  match r with
  | Err err => ret (Some err)
  | Ok records =>
      if (length records =? 0)%nat then
        match api cfdns with
        | None => panic
        | Some a =>
            let zone := Config.ZoneID (cfg cfdns) in
            let p := {| Cloudflare.CreateName := Config.Hostname domain;
                        Cloudflare.CreateContent := address;
                        Cloudflare.CreateType := recordType;
                        Cloudflare.CreateProxied := Config.Proxied domain |} in
            do r <- call (Cloudflare.CallCreateDNSRecord zone p)
                      (fun h => Cloudflare.CreateDNSRecord svc a h zone p) ;
            match r with
            | Err err => ret (Some err)
            | Ok _ => ret None
            end
        end
      else updateRecords cfdns domain address records
  end.

(** [getPublicIPs]; [await4] and [await6] are what awaiting the futures of
    [ipget.GetPublicIPv4] and [ipget.GetPublicIPv6] yields in this cycle. *)
Definition getPublicIPs (cfdns : CFDNS) (await4 await6 : Result string)
  : Outcome (string * string) :=
  match Config.IPv4 (cfg cfdns), Config.IPv6 (cfg cfdns) with
  | Some use4, Some use6 =>
      let ipv4 := if use4 then match await4 with
                               | Err _ => ""
                               | Ok v => v
                               end
                  else "" in
      let ipv6 := if use6 then match await6 with
                               | Err _ => ""
                               | Ok v => v
                               end
                  else "" in
      Returned (ipv4, ipv6)
  | _, _ => Panicked
  end.

(** A create-or-update task submitted to the pool: the arguments of the
    call of [checkAndUpdate] it makes. *)
Record Task := {
  task_domain : Config.Domain;
  task_type : string;
  task_address : string;
}.

Definition run_task (cfdns : CFDNS) (t : Task) : M (option error) :=
  checkAndUpdate cfdns (task_domain t) (task_type t) (task_address t).

Definition submit_for (use4 use6 : bool) (ipv4 ipv6 : string)
    (domain : Config.Domain) : list Task :=
  (if use4 && negb (String.eqb ipv4 "")
   then [ {| task_domain := domain; task_type := RECORD_TYPE_IPV4;
             task_address := ipv4 |} ]
   else [])
  ++ (if use6 && negb (String.eqb ipv6 "")
      then [ {| task_domain := domain; task_type := RECORD_TYPE_IPV6;
                task_address := ipv6 |} ]
      else []).

(** [Process] up to the submission of the tasks: the result is the list of
    tasks handed to the pool, in the order of submission. *)
Definition Process (cfdns : CFDNS) (fate : Fate)
    (await4 await6 : Result string) : M (list Task) :=
  do v <- ZoneIsValid cfdns fate ;
  match v with
  | (_, Some _) | (false, None) => ret []
  | (true, None) =>
      match getPublicIPs cfdns await4 await6 with
      | Panicked => panic
      | Returned (ipv4, ipv6) =>
          match Config.IPv4 (cfg cfdns), Config.IPv6 (cfg cfdns) with
          | Some use4, Some use6 =>
              ret (flat_map (submit_for use4 use6 ipv4 ipv6)
                            (Config.Domains (cfg cfdns)))
          | _, _ => panic
          end
      end
  end.

Definition tasks_of_type (recordType : string) (tasks : list Task) : list Task :=
  List.filter (fun t => String.eqb (task_type t) recordType) tasks.

(** *** Replacing the configuration *)

Inductive PoolState := PoolOpen | PoolClosed.

Record Pool := {
  workers : Z;
  queue : Z;
  pool_state : PoolState;
}.

Inductive Level := DebugLevel | InfoLevel.

(** What [SetConfig] does to the world outside the struct. *)
Inductive Event :=
| EvLock
| EvUnlock
| EvPoolClose (p : nat)
| EvNewPool (p : nat)
| EvSetGlobalLevel (l : Level).

(** The struct, the pools of the process, the global log level, and the
    events so far, each with the struct as it was when the event happened. *)
Record State := {
  store : CFDNS;
  pools : list Pool;
  level : Level;
  log : list (Event * CFDNS);
}.

Definition emit (e : Event) (st : State) : State :=
  {| store := store st; pools := pools st; level := level st;
     log := log st ++ [(e, store st)] |}.

Definition with_store (f : CFDNS -> CFDNS) (st : State) : State :=
  {| store := f (store st); pools := pools st; level := level st;
     log := log st |}.

Definition set_api (a : option Cloudflare.API) (c : CFDNS) : CFDNS :=
  {| cfg := cfg c; api := a; httpClient := httpClient c;
     timeout := timeout c; pool := pool c |}.

Definition set_httpClient (h : HTTPClient) (c : CFDNS) : CFDNS :=
  {| cfg := cfg c; api := api c; httpClient := h;
     timeout := timeout c; pool := pool c |}.

Definition set_timeout (t : Duration) (c : CFDNS) : CFDNS :=
  {| cfg := cfg c; api := api c; httpClient := httpClient c;
     timeout := t; pool := pool c |}.

Definition set_pool (p : option nat) (c : CFDNS) : CFDNS :=
  {| cfg := cfg c; api := api c; httpClient := httpClient c;
     timeout := timeout c; pool := p |}.

Definition set_cfg (g : Config.Config) (c : CFDNS) : CFDNS :=
  {| cfg := g; api := api c; httpClient := httpClient c;
     timeout := timeout c; pool := pool c |}.

Definition close_pool (p : Pool) : Pool :=
  {| workers := workers p; queue := queue p; pool_state := PoolClosed |}.

(** [pool.Close()] on the pool with handle [p]. *)
Definition pool_Close (p : nat) (st : State) : State :=
  let st := emit (EvPoolClose p) st in
  {| store := store st; pools := alter close_pool p (pools st);
     level := level st; log := log st |}.

(** [goropo.NewPool(workers, queue)] is the library's: from the sizes it
    is asked for it decides the sizes of the pool it builds, or it
    panics. *)
Variable pool_sizes : Z -> Z -> option (Z * Z).

(** [goropo.NewPool(workers, queue)]: a fresh handle, unless it panics. *)
Definition NewPool (w q : Z) (st : State) : Outcome nat * State :=
  match pool_sizes w q with
  | None => (Panicked, st)
  | Some (w', q') =>
      let p := length (pools st) in
      let st := emit (EvNewPool p) st in
      (Returned p, {| store := store st;
                      pools := pools st ++ [ {| workers := w'; queue := q';
                                                pool_state := PoolOpen |} ];
                      level := level st; log := log st |})
  end.

Definition SetGlobalLevel (l : Level) (st : State) : State :=
  let st := emit (EvSetGlobalLevel l) st in
  {| store := store st; pools := pools st; level := l; log := log st |}.

(** Go's [int] on a 64-bit platform: products wrap around. *)
Definition wrap64 (z : Z) : Z :=
  ((z + 2 ^ 63) mod 2 ^ 64 - 2 ^ 63)%Z.

(** [SetConfig]; [None] is the nil configuration.  The deferred unlock
    runs on every way out of the guarded block, a panic of
    [goropo.NewPool] included. *)
Definition SetConfig (new : option Config.Config) (st : State)
  : Outcome (option error) * State :=
  match new with
  | None => (Returned None, st)
  | Some c =>
      let st := emit EvLock st in
      match Cloudflare.NewWithAPIToken svc (Config.Token c) with
      | Err err => (Returned (Some err), emit EvUnlock st)
      | Ok a =>
          let st := with_store (set_api (Some a)) st in
          let st := with_store
                      (set_httpClient {| ClientTimeout := Config.Timeout c |}) st in
          let st := match pool (store st) with
                    | Some p => pool_Close p st
                    | None => st
                    end in
          let st := with_store (set_timeout (Config.Timeout c)) st in
          match NewPool (Config.WorkerCount c)
                        (wrap64 (Config.WorkerCount c * 5)) st with
          | (Panicked, st) => (Panicked, emit EvUnlock st)
          | (Returned p', st) =>
              let st := with_store (set_pool (Some p')) st in
              let st := SetGlobalLevel
                          (if Config.Verbose c then DebugLevel else InfoLevel)
                          st in
              let st := with_store (set_cfg c) st in
              (Returned None, emit EvUnlock st)
          end
      end
  end.

(** The zero value of [config.Config] and of the struct. *)
Definition zero_Config : Config.Config :=
  {| Config.ZoneID := ""; Config.Token := ""; Config.Frequency := 0%Z;
     Config.Verbose := false; Config.IPv4 := None; Config.IPv6 := None;
     Config.Domains := []; Config.WorkerCount := 0%Z; Config.Timeout := 0%Z |}.

Definition zero_CFDNS : CFDNS :=
  {| cfg := zero_Config; api := None;
     httpClient := {| ClientTimeout := 0%Z |}; timeout := 0%Z; pool := None |}.

(** [NewCFDNS]: a fresh struct, configured by [SetConfig], whose error is
    not looked at.  The pools, log level and events of the process come in
    with [w]; the struct of [w] plays no part. *)
Definition NewCFDNS (c : Config.Config) (w : State)
  : Outcome (option error) * State :=
  let st := {| store := zero_CFDNS; pools := pools w; level := level w;
               log := log w |} in
  match SetConfig (Some c) st with
  | (Returned _, st) => (Returned None, st)
  | (Panicked, st) => (Panicked, st)
  end.

(** The error, if any, in the provider's answer to the call [c] made after
    the calls [h]. *)
Definition answer_error (a : Cloudflare.API) (h : list Cloudflare.Call)
    (c : Cloudflare.Call) : option error :=
  match c with
  | Cloudflare.CallListDNSRecords zone p =>
      match Cloudflare.ListDNSRecords svc a h zone p with
      | Err e => Some e
      | Ok _ => None
      end
  | Cloudflare.CallCreateDNSRecord zone p =>
      match Cloudflare.CreateDNSRecord svc a h zone p with
      | Err e => Some e
      | Ok _ => None
      end
  | Cloudflare.CallUpdateDNSRecord zone p =>
      match Cloudflare.UpdateDNSRecord svc a h zone p with
      | Err e => Some e
      | Ok _ => None
      end
  | Cloudflare.CallListZones =>
      match Cloudflare.ListZones svc a h with
      | Err e => Some e
      | Ok _ => None
      end
  end.

(** Every one of [calls], made in this order after [h], was answered
    without error. *)
Fixpoint answered_ok (a : Cloudflare.API) (h calls : list Cloudflare.Call) : Prop :=
  match calls with
  | [] => True
  | c :: cs => answer_error a h c = None /\ answered_ok a (h ++ [c]) cs
  end.

(** The last of [calls] was answered with [err], the ones before it
    without error. *)
Fixpoint ends_with_error (a : Cloudflare.API) (h calls : list Cloudflare.Call)
    (err : error) : Prop :=
  match calls with
  | [] => False
  | c :: cs =>
      match cs with
      | [] => answer_error a h c = Some err
      | _ :: _ => answer_error a h c = None /\ ends_with_error a (h ++ [c]) cs err
      end
  end.

End Engine.

(** *** Vocabulary for the pools of a state *)

(** Every open pool is the one the struct holds. *)
Definition no_leak (st : State) : Prop :=
  forall i q, pools st !! i = Some q -> pool_state q = PoolOpen ->
              pool (store st) = Some i.

(** The struct holds a pool, and that pool is open. *)
Definition current_open (st : State) : Prop :=
  exists p q, pool (store st) = Some p /\ pools st !! p = Some q
              /\ pool_state q = PoolOpen.

End Cf.

(** ** cmd: the configuration file watcher *)
Module Watcher.

(** [FileSig]; the modification time is an instant counted in nanoseconds. *)
Record FileSig := {
  ModTime : Z;
  Size : Z;
  Inode : Z;
}.

(** [fs1.Changed(fs2)] on two pointers; [None] is nil. *)
Definition Changed (fs1 fs2 : option FileSig) : bool :=
  match fs1, fs2 with
  | Some fs1, Some fs2 =>
      (ModTime fs1 <? ModTime fs2)%Z
      || negb (Size fs2 =? Size fs1)%Z
      || negb (Inode fs2 =? Inode fs1)%Z
  | _, _ => false
  end.

(** The goroutine of [watchFile] between two ticks: the stored signature
    and whether the one-slot channel holds a notification. *)
Record Watch := {
  fileSig : option FileSig;
  ch : bool;
}.

(** One tick; [fileSigNew] is what [getFileSig] returns at this tick.  The
    second component tells whether a send on the channel was attempted. *)
Definition tick (w : Watch) (fileSigNew : option FileSig) : Watch * bool :=
  match fileSigNew with
  | None => (w, false)
  | Some _ =>
      match fileSig w with
      | None => ({| fileSig := fileSigNew; ch := ch w |}, false)
      | Some _ =>
          if Changed (fileSig w) fileSigNew
          then ({| fileSig := fileSigNew; ch := true |}, true)
          else (w, false)
      end
  end.

(** The watcher over the ticks that happen before cancellation, with
    nobody receiving meanwhile: [first] is the observation made before the
    loop starts. *)
Fixpoint ticks (w : Watch) (observed : list (option FileSig)) : Watch * list bool :=
  match observed with
  | [] => (w, [])
  | o :: rest =>
      let '(w1, sent) := tick w o in
      let '(w2, sents) := ticks w1 rest in
      (w2, sent :: sents)
  end.

Definition watchFile (first : option FileSig) (observed : list (option FileSig))
  : Watch * list bool :=
  ticks {| fileSig := first; ch := false |} observed.

End Watcher.

(** ** cmd, first version: the reconciliation functions of package main *)
Module CmdV1.
Import Go Cf.

(** [config.Config] as that version has it. *)
Record Config := {
  ZoneID : string;
  Token : string;
  Frequency : Duration;
  Verbose : bool;
  IPv4 : bool;
  IPv6 : bool;
  Domains : list Config.Domain;
}.

Section Functions.
Variable svc : Cloudflare.Service.

Definition getRecords (api : Cloudflare.API) (zoneID hostname recordType : string)
  : M (Result (list Cloudflare.DNSRecord)) :=
  let p := {| Cloudflare.ListName := hostname;
              Cloudflare.ListType := recordType |} in
  call (Cloudflare.CallListDNSRecords zoneID p)
       (fun h => Cloudflare.ListDNSRecords svc api h zoneID p).

Definition update_call (cfg : Config) (record : Cloudflare.DNSRecord)
    (domain : Config.Domain) (address : string) : Cloudflare.Call :=
  Cloudflare.CallUpdateDNSRecord (ZoneID cfg)
    {| Cloudflare.UpdateID := Cloudflare.ID record;
       Cloudflare.UpdateContent := address;
       Cloudflare.UpdateProxied := Config.Proxied domain |}.

(** The body of the loop: a record with the address as content is passed
    over with [continue]. *)
Definition updateRecord (api : Cloudflare.API) (cfg : Config)
    (domain : Config.Domain) (address : string)
    (record : Cloudflare.DNSRecord) : M Control :=
  if String.eqb (Cloudflare.Content record) address then ret Next
  else
    let p := {| Cloudflare.UpdateID := Cloudflare.ID record;
                Cloudflare.UpdateContent := address;
                Cloudflare.UpdateProxied := Config.Proxied domain |} in
    do r <- call (Cloudflare.CallUpdateDNSRecord (ZoneID cfg) p)
                 (fun h => Cloudflare.UpdateDNSRecord svc api h (ZoneID cfg) p) ;
    match r with
    | Err err => ret (Return (Some err))
    | Ok _ => ret Next
    end.

Fixpoint updateRecords (api : Cloudflare.API) (cfg : Config)
    (domain : Config.Domain) (address : string)
    (records : list Cloudflare.DNSRecord) : M (option error) :=
  match records with
  | [] => ret None
  | record :: rest =>
      do c <- updateRecord api cfg domain address record ;
      match c with
      | Return err => ret err
      | Next => updateRecords api cfg domain address rest
      end
  end.

Definition checkAndUpdate (api : Cloudflare.API) (cfg : Config)
    (domain : Config.Domain) (recordType address : string) : M (option error) :=
  do r <- getRecords api (ZoneID cfg) (Config.Hostname domain) recordType ;
  match r with
  | Err err => ret (Some err)
  | Ok records =>
      if (length records =? 0)%nat then
        let p := {| Cloudflare.CreateName := Config.Hostname domain;
                    Cloudflare.CreateContent := address;
                    Cloudflare.CreateType := recordType;
                    Cloudflare.CreateProxied := None |} in
        do r <- call (Cloudflare.CallCreateDNSRecord (ZoneID cfg) p)
                     (fun h => Cloudflare.CreateDNSRecord svc api h (ZoneID cfg) p) ;
        match r with
        | Err err => ret (Some err)
        | Ok _ => ret None
        end
      else updateRecords api cfg domain address records
  end.

End Functions.

(** The test of the loop, negated: the content of [r] is not [address]. *)
Definition content_differs (address : string) (r : Cloudflare.DNSRecord) : bool :=
  negb (String.eqb (Cloudflare.Content r) address).

End CmdV1.

(** ** cmd: the driver *)
Module Main.
Import Go Cf.

Definition level_of (verbose : bool) : Level :=
  if verbose then DebugLevel else InfoLevel.

Section Driver.
Variable ReadFile : string -> Result string.
Variable env : gmap string string.
Variable Decode : string -> Result Config.Config.
Variable TrimFunc_IsSpace : string -> string.
Variable TrimRightFunc_IsSpace : string -> string.
Variable svc : Cloudflare.Service.
Variable pool_sizes : Z -> Z -> option (Z * Z).

(** The case of the select in [main] that receives a notification from the
    open watcher channel.  [cfg] is the variable of [main] that holds the
    configuration loaded at startup; the loop does not assign to it.  A
    panic of [SetConfig] is not recovered. *)
Definition reload (file : string) (cfg : Config.Config) (st : State)
  : Outcome unit * State :=
  match Config.LoadConfig ReadFile env Decode TrimFunc_IsSpace
          TrimRightFunc_IsSpace file with
  | Err _ => (Returned tt, st)
  | Ok cfgNew =>
      match SetConfig svc pool_sizes (Some cfgNew) st with
      | (Panicked, st') => (Panicked, st')
      | (Returned (Some _), st') => (Returned tt, st')
      | (Returned None, st') =>
          (Returned tt, SetGlobalLevel (level_of (Config.Verbose cfg)) st')
      end
  end.

End Driver.

End Main.

(** ** Sample collaborators, for running the functions on concrete inputs *)
Module Sample.
Import Go Config.

Definition file_text : string :=
  "zone_id: ${CF_ZONE} token: ${CF_TOKEN} domains: [a.example.com]".

Definition expanded_text : string :=
  "zone_id: 023e105f4ecef8ad9ca31a8372d0c353 token: s3cr3t domains: [a.example.com]".

Definition environ : gmap string string :=
  <[ "CF_ZONE" := "023e105f4ecef8ad9ca31a8372d0c353" ]>
    (<[ "CF_TOKEN" := "s3cr3t" ]> ∅).

Definition ReadFile (filename : string) : Result string :=
  if decide (filename = "cfdns.yaml") then Ok file_text
  else Err (Errorf "open: no such file or directory").

(** What the decoder yields for [expanded_text]: only the zone, the token
    and the domain list are given, every other field has Go's zero value. *)
Definition decoded : Config :=
  {| ZoneID := "023e105f4ecef8ad9ca31a8372d0c353"; Token := "s3cr3t";
     Frequency := 0%Z; Verbose := false; IPv4 := None; IPv6 := None;
     Domains := [ {| Hostname := "a.example.com"; Proxied := None |} ];
     WorkerCount := 0%Z; Timeout := 0%Z |}.

Definition Decode (data : string) : Result Config :=
  if decide (data = expanded_text) then Ok decoded
  else Err (Errorf "yaml: unmarshal errors").

(** The slow path of [strings.TrimSpace] is not reached on ASCII text. *)
Definition TrimFunc_IsSpace (s : string) : string := s.
Definition TrimRightFunc_IsSpace (s : string) : string := s.

Definition loaded : Config :=
  {| ZoneID := "023e105f4ecef8ad9ca31a8372d0c353"; Token := "s3cr3t";
     Frequency := Hour; Verbose := false; IPv4 := Some true; IPv6 := Some true;
     Domains := [ {| Hostname := "a.example.com"; Proxied := None |} ];
     WorkerCount := 10%Z; Timeout := (10 * Second)%Z |}.

(** *** A resolver *)

(** A stand-in for [net.ParseIP] on dotted-decimal text, after
    [parseIPv4Fields] of net/netip: four decimal fields of at most 255,
    none empty, none with a leading zero.  Text with a colon or a percent
    sign before the first dot is outside this stand-in (nil). *)
Fixpoint parseIPv4Fields (s : string) (val : N) (digLen : nat)
    (fields : list N) (at_start prev_dot : bool) : option (list N) :=
  match s with
  | EmptyString =>
      if (length fields <? 3)%nat then None else Some (fields ++ [val])
  | String c rest =>
      if Config.between 48 57 c then
        if (digLen =? 1)%nat && (val =? 0)%N then None
        else
          let val := (val * 10 + (byte_of c - 48))%N in
          if (255 <? val)%N then None
          else parseIPv4Fields rest val (S digLen) fields false false
      else if Ascii.eqb c "." then
        if at_start || (String.length rest =? 0)%nat || prev_dot then None
        else if (length fields =? 3)%nat then None
        else parseIPv4Fields rest 0%N 0%nat (fields ++ [val]) false true
      else None
  end.

Definition byte_of_N (n : N) : Byte.byte :=
  match Byte.of_N n with
  | Some b => b
  | None => Byte.x00
  end.

Fixpoint dispatch (s whole : string) : Ipget.IP :=
  match s with
  | EmptyString => []
  | String c rest =>
      if Ascii.eqb c "." then
        match parseIPv4Fields whole 0%N 0%nat [] true false with
        | Some fields => Ipget.v4InV6Prefix ++ map byte_of_N fields
        | None => []
        end
      else if Ascii.eqb c ":" || Ascii.eqb c "%" then []
      else dispatch rest whole
  end.

Definition ParseIP (s : string) : Ipget.IP := dispatch s s.

Definition decimal (b : Byte.byte) : string :=
  NilEmpty.string_of_uint (N.to_uint (Byte.to_N b)).

(** A stand-in for [ip.String()] on four-byte addresses. *)
Definition IPString (ip : Ipget.IP) : string :=
  match ip with
  | [a; b; c; d] =>
      decimal a +:+ "." +:+ decimal b +:+ "." +:+ decimal c +:+ "." +:+ decimal d
  | _ => "?"
  end.

Fixpoint spaces (n : nat) : string :=
  match n with
  | O => EmptyString
  | S k => String " " (spaces k)
  end.

Definition newline : string := String "010" EmptyString.

(** Five providers: one out of service, one answering with a page, one
    answering with an address, one padding its answer with blanks, one that
    does not answer before the deadline. *)
Definition Do (url : string) : Result Ipget.Response :=
  if decide (url = "https://api.ipify.org") then
    Ok {| Ipget.StatusCode := 503; Ipget.Body := "Service Unavailable";
          Ipget.BodyErr := None |}
  else if decide (url = "https://ipv4.icanhazip.com") then
    Ok {| Ipget.StatusCode := 200; Ipget.Body := "<html>moved</html>";
          Ipget.BodyErr := None |}
  else if decide (url = "https://v4.ident.me") then
    Ok {| Ipget.StatusCode := 200; Ipget.Body := "203.0.113.9" +:+ newline;
          Ipget.BodyErr := None |}
  else if decide (url = "https://padded.example") then
    Ok {| Ipget.StatusCode := 200; Ipget.Body := spaces 120 +:+ "10.0.0.12";
          Ipget.BodyErr := None |}
  else if decide (url = "https://slow.example") then
    Err (Wrapf "Get" (Sentinel DeadlineExceeded))
  else Err (Errorf "dial tcp: no such host").

(** The shuffle that leaves the order as it is. *)
Definition Shuffle (services : list string) : list string := services.

Definition getSmallText : string -> Result string :=
  Ipget.getSmallText Do TrimFunc_IsSpace TrimRightFunc_IsSpace.

Definition strToIP : string -> Ipget.IP := Ipget.strToIP ParseIP.

Definition tryServices : list string -> list string * Result string :=
  Ipget.tryServices Do ParseIP IPString TrimFunc_IsSpace TrimRightFunc_IsSpace.

Definition getPublicIP : list string -> list string * Result string :=
  Ipget.getPublicIP Do ParseIP IPString Shuffle TrimFunc_IsSpace TrimRightFunc_IsSpace.

(** *** A provider *)

Definition record (id content : string) (proxied : option bool)
  : Cloudflare.DNSRecord :=
  {| Cloudflare.ID := id; Cloudflare.Name := "a.example.com";
     Cloudflare.Type_ := "A"; Cloudflare.Content := content;
     Cloudflare.Proxied := proxied |}.

(** [a.example.com] has one [A] record, [dup.example.com] two, every other
    name none; every create and update succeeds. *)
Definition service : Cloudflare.Service :=
  {| Cloudflare.NewWithAPIToken := fun token =>
       if decide (token = "") then Err (Errorf "invalid credentials: API Token must not be empty")
       else Ok {| Cloudflare.APIToken := token |};
     Cloudflare.ListDNSRecords := fun _ _ _ p =>
       if decide (Cloudflare.ListType p = "A") then
         if decide (Cloudflare.ListName p = "a.example.com") then
           Ok [ record "r1" "203.0.113.9" (Some true) ]
         else if decide (Cloudflare.ListName p = "dup.example.com") then
           Ok [ record "r1" "203.0.113.9" None; record "r2" "198.51.100.7" None ]
         else Ok []
       else Ok [];
     Cloudflare.CreateDNSRecord := fun _ _ _ p =>
       Ok {| Cloudflare.ID := "new"; Cloudflare.Name := Cloudflare.CreateName p;
             Cloudflare.Type_ := Cloudflare.CreateType p;
             Cloudflare.Content := Cloudflare.CreateContent p;
             Cloudflare.Proxied := Cloudflare.CreateProxied p |};
     Cloudflare.UpdateDNSRecord := fun _ _ _ p =>
       Ok {| Cloudflare.ID := Cloudflare.UpdateID p; Cloudflare.Name := "";
             Cloudflare.Type_ := "A";
             Cloudflare.Content := Cloudflare.UpdateContent p;
             Cloudflare.Proxied := Cloudflare.UpdateProxied p |};
     Cloudflare.ListZones := fun _ _ =>
       Ok [ {| Cloudflare.ZoneID := "023e105f4ecef8ad9ca31a8372d0c353" |} ] |}.

(** The same provider, except that it refuses every update. *)
Definition failing_service : Cloudflare.Service :=
  {| Cloudflare.NewWithAPIToken := Cloudflare.NewWithAPIToken service;
     Cloudflare.ListDNSRecords := Cloudflare.ListDNSRecords service;
     Cloudflare.CreateDNSRecord := Cloudflare.CreateDNSRecord service;
     Cloudflare.UpdateDNSRecord := fun _ _ _ _ =>
       Err (Errorf "HTTP status 403: forbidden");
     Cloudflare.ListZones := Cloudflare.ListZones service |}.

(** A pool constructor: at least one worker, no negative queue size, and a
    panic when the queue asked for is beyond what can be allocated. *)
Definition pool_sizes (w q : Z) : option (Z * Z) :=
  if (2 ^ 31 <? q)%Z then None else Some (Z.max 1 w, Z.max 0 q).

Definition domain (hostname : string) (proxied : option bool) : Config.Domain :=
  {| Hostname := hostname; Proxied := proxied |}.

(** A running instance: configuration [loaded], a client, pool 0. *)
Definition cfdns : Cf.CFDNS :=
  {| Cf.cfg := loaded;
     Cf.api := Some {| Cloudflare.APIToken := "s3cr3t" |};
     Cf.httpClient := {| Cf.ClientTimeout := (10 * Second)%Z |};
     Cf.timeout := (10 * Second)%Z;
     Cf.pool := Some 0%nat |}.

Definition state : Cf.State :=
  {| Cf.store := cfdns;
     Cf.pools := [ {| Cf.workers := 10; Cf.queue := 50; Cf.pool_state := Cf.PoolOpen |} ];
     Cf.level := Cf.InfoLevel;
     Cf.log := [] |}.

(** A replacement configuration: four workers, verbose, IPv6 off. *)
Definition replacement : Config :=
  {| ZoneID := "023e105f4ecef8ad9ca31a8372d0c353"; Token := "n3wt0k3n";
     Frequency := (5 * Minute)%Z; Verbose := true;
     IPv4 := Some true; IPv6 := Some false;
     Domains := [ domain "a.example.com" None; domain "b.example.com" (Some true) ];
     WorkerCount := 4%Z; Timeout := (3 * Second)%Z |}.

(** *** A file *)

Definition sig (mtime size inode : Z) : Watcher.FileSig :=
  {| Watcher.ModTime := mtime; Watcher.Size := size; Watcher.Inode := inode |}.

End Sample.

(** * Properties *)

Import Go.
#[local] Arguments String.append !s1 s2 / : simpl nomatch.

(** ** Strings *)

Lemma app_empty_r (s : string) : s +:+ "" = s.
Proof. induction s; simpl; congruence. Qed.

Lemma app_assoc_str (a b c : string) : (a +:+ b) +:+ c = a +:+ (b +:+ c).
Proof. induction a; simpl; congruence. Qed.

Lemma length_app_str (a b : string) :
  String.length (a +:+ b) = (String.length a + String.length b)%nat.
Proof. induction a; simpl; congruence. Qed.

Lemma drop_app_length (a b : string) : drop (String.length a) (a +:+ b) = b.
Proof. induction a; simpl; auto. Qed.

Lemma take_length_le (n : nat) (s : string) : (String.length (take n s) <= n)%nat.
Proof.
  revert s; induction n as [|n IH]; intros [|c s]; simpl; try lia.
  specialize (IH s); lia.
Qed.

Lemma take_drop (n : nat) (s : string) : take n s +:+ drop n s = s.
Proof.
  revert s; induction n as [|n IH]; intros [|c s]; simpl; auto.
  now rewrite IH.
Qed.

(** ** pkg/config: the pattern [reEnv] *)
Section ReEnv.
Import Config.

Lemma span_name_run (t rest : string) :
  all_chars name_char t = true ->
  span_name (t +:+ String "}" rest) = (t, String "}" rest).
Proof.
  induction t as [|c t IH]; simpl; intros H.
  - reflexivity.
  - apply andb_true_iff in H as [Hc Ht]. rewrite Hc, (IH Ht). reflexivity.
Qed.

Lemma span_name_split (s n rest : string) :
  span_name s = (n, rest) -> s = n +:+ rest /\ all_chars name_char n = true.
Proof.
  revert n rest; induction s as [|c s IH]; simpl; intros n rest H.
  - inversion H; subst; auto.
  - destruct (name_char c) eqn:Hc.
    + destruct (span_name s) as [n' rest'] eqn:Hs.
      inversion H; subst. destruct (IH _ _ eq_refl) as [-> Hn].
      simpl. rewrite Hc, Hn. auto.
    + inversion H; subst; auto.
Qed.

(** A match at the head of [s] is the reference text of a valid name. *)
Lemma match_reEnv_sound (s n rest : string) :
  match_reEnv s = Some (n, rest) ->
  valid_name n = true /\ s = reference n +:+ rest.
Proof.
  unfold match_reEnv. intros H.
  destruct s as [|a [|b [|c r]]]; try discriminate.
  destruct (Ascii.eqb a "$") eqn:Ha; [|discriminate].
  destruct (Ascii.eqb b "{") eqn:Hb; [|discriminate].
  destruct (name_start c) eqn:Hc; [|discriminate]. simpl in H.
  apply Ascii.eqb_eq in Ha, Hb. subst a b.
  destruct (span_name r) as [t rest'] eqn:Hs.
  destruct rest' as [|d rest'']; [discriminate|].
  destruct (Ascii.eqb d "}") eqn:Hd; [|discriminate].
  apply Ascii.eqb_eq in Hd. subst d.
  inversion H; subst. apply span_name_split in Hs as [-> Ht].
  split.
  - simpl. now rewrite Hc, Ht.
  - unfold reference. simpl. now rewrite app_assoc_str.
Qed.

(** The reference text of a valid name is matched, whatever follows. *)
Lemma match_reEnv_complete (n rest : string) :
  valid_name n = true ->
  match_reEnv (reference n +:+ rest) = Some (n, rest).
Proof.
  destruct n as [|c t]; [discriminate|]. simpl.
  intros H. apply andb_true_iff in H as [Hc Ht].
  rewrite Hc, app_assoc_str. simpl. now rewrite (span_name_run _ _ Ht).
Qed.

Lemma FindStringSubmatch_1_reference (n : string) :
  valid_name n = true -> FindStringSubmatch_1 (reference n) = n.
Proof.
  intros H. unfold FindStringSubmatch_1.
  rewrite <- (app_empty_r (reference n)).
  now rewrite (match_reEnv_complete _ _ H).
Qed.

End ReEnv.

(** ** pkg/config: [ReplaceAllStringFunc] and [expandEnv] *)
Section ExpandEnv.
Import Config.

Lemma replace_skip {St} (repl : string -> St -> string * St)
    (k : nat) (s : string) (st : St) :
  ReplaceAllStringFunc repl k s st = ReplaceAllStringFunc repl 0 (drop k s) st.
Proof.
  revert k; induction s as [|c s IH]; intros [|k]; try reflexivity.
  simpl. apply IH.
Qed.

(** The scan, one match or one byte at a time. *)
Lemma replace_match {St} (repl : string -> St -> string * St)
    (s n rest : string) (st : St) :
  match_reEnv s = Some (n, rest) ->
  ReplaceAllStringFunc repl 0 s st =
    let '(out, st1) := repl (reference n) st in
    let '(tl, st2) := ReplaceAllStringFunc repl 0 rest st1 in
    (out +:+ tl, st2).
Proof.
  intros Hm. destruct (match_reEnv_sound _ _ _ Hm) as [_ Hs].
  destruct s as [|c s']; [discriminate|].
  cbn [ReplaceAllStringFunc]. rewrite Hm.
  destruct (repl (reference n) st) as [out st1].
  rewrite replace_skip.
  replace (drop (String.length (reference n) - 1) s') with rest; [reflexivity|].
  unfold reference in *. simpl in Hs. inversion Hs; subst.
  simpl. now rewrite drop_app_length.
Qed.

Lemma replace_byte {St} (repl : string -> St -> string * St)
    (c : ascii) (s : string) (st : St) :
  match_reEnv (String c s) = None ->
  ReplaceAllStringFunc repl 0 (String c s) st =
    let '(tl, st1) := ReplaceAllStringFunc repl 0 s st in (String c tl, st1).
Proof. intros Hm. cbn [ReplaceAllStringFunc]. now rewrite Hm. Qed.

(** No reference starts inside another one: a dollar sign occurs only at
    the head of a reference. *)
Lemma dollar_free_prefix (u rest pre t : string) :
  all_chars (fun c => negb (Ascii.eqb c "$")) u = true ->
  u +:+ rest = pre +:+ String "$" t ->
  exists p, rest = p +:+ String "$" t.
Proof.
  revert pre; induction u as [|a u IH]; simpl; intros pre Hu H.
  - exists pre; exact H.
  - apply andb_true_iff in Hu as [Ha Hu].
    destruct pre as [|b pre]; simpl in H; inversion H; subst.
    + rewrite Ascii.eqb_refl in Ha. discriminate.
    + eapply IH; eauto.
Qed.

Lemma name_chars_dollar_free (n : string) :
  all_chars name_char n = true ->
  all_chars (fun c => negb (Ascii.eqb c "$")) (n +:+ "}") = true.
Proof.
  induction n as [|c n IH]; simpl; intros H; [reflexivity|].
  apply andb_true_iff in H as [Hc Hn]. rewrite (IH Hn), andb_true_r.
  destruct (Ascii.eqb c "$") eqn:E; [|reflexivity].
  apply Ascii.eqb_eq in E. subst c. discriminate.
Qed.

Lemma valid_name_chars (n : string) :
  valid_name n = true -> all_chars name_char n = true.
Proof.
  destruct n as [|c t]; [discriminate|]. simpl. intros H.
  apply andb_true_iff in H as [Hc Ht]. unfold name_char at 1.
  now rewrite Hc, Ht.
Qed.

(** The references of a text that starts with a reference: that one, and
    those of the rest. *)
Lemma references_after_match (n rest x : string) :
  valid_name n = true ->
  references (reference n +:+ rest) x <-> x = n \/ references rest x.
Proof.
  intros Hn. split.
  - intros [Hx (pre & post & H)].
    destruct pre as [|a pre].
    + left.
      assert (H' : reference n +:+ rest = reference x +:+ post) by exact H.
      pose proof (match_reEnv_complete n rest Hn) as M1.
      rewrite H', (match_reEnv_complete x post Hx) in M1. congruence.
    + right. split; [exact Hx|].
      unfold reference in H. simpl in H. inversion H as [[Ha H']]. clear H.
      change (String "{" ((n +:+ "}") +:+ rest))
        with (String "{" (n +:+ "}") +:+ rest) in H'.
      apply dollar_free_prefix in H' as [p Hp].
      * exists p, post. exact Hp.
      * simpl. apply name_chars_dollar_free, valid_name_chars, Hn.
  - intros [->|[Hx (pre & post & ->)]].
    + split; [exact Hn|]. exists "", rest. reflexivity.
    + split; [exact Hx|]. exists (reference n +:+ pre), post.
      now rewrite app_assoc_str.
Qed.

(** The references of a text that does not start with a reference. *)
Lemma references_after_byte (c : ascii) (s x : string) :
  match_reEnv (String c s) = None ->
  references (String c s) x <-> references s x.
Proof.
  intros Hm. split.
  - intros [Hx (pre & post & H)]. split; [exact Hx|].
    destruct pre as [|a pre].
    + assert (H' : String c s = reference x +:+ post) by exact H.
      rewrite H', (match_reEnv_complete x post Hx) in Hm. discriminate.
    + simpl in H. inversion H; subst. eauto.
  - intros [Hx (pre & post & ->)]. split; [exact Hx|].
    exists (String c pre), post. reflexivity.
Qed.

Lemma references_empty (x : string) : ~ references "" x.
Proof.
  intros [Hx (pre & post & H)].
  destruct pre; discriminate.
Qed.

End ExpandEnv.

Section ExpandEnvScan.
Import Config.
Variable env : gmap string string.

Lemma no_match_no_reference (c : ascii) (s : string) :
  match_reEnv (String c s) = None ->
  forall n rest, valid_name n = true -> String c s <> reference n +:+ rest.
Proof.
  intros Hm n rest Hn E. rewrite E, (match_reEnv_complete _ _ Hn) in Hm.
  discriminate.
Qed.

(** What one run of the scan with the callback of [expandEnv] computes:
    the names gathered are those of the unset variables the text
    references, and when there is none the output is the text with every
    reference replaced. *)
Lemma expand_scan (n : nat) :
  forall (s : string) (missing0 : gset string) (out : string) (M : gset string),
    (String.length s <= n)%nat ->
    ReplaceAllStringFunc (expand_one env) 0 s missing0 = (out, M) ->
    (forall x, x ∈ M <-> x ∈ missing0 \/ (references s x /\ env !! x = None))
    /\ ((forall x, references s x -> is_Some (env !! x)) -> substituted env s out).
Proof.
  induction n as [|n IH]; intros s missing0 out M Hlen Hrun.
  - destruct s; [|simpl in Hlen; lia]. simpl in Hrun. inversion Hrun; subst.
    split.
    + intros x. split; [auto|]. intros [H|[H _]]; [exact H|].
      now apply references_empty in H.
    + intros _. constructor.
  - destruct (match_reEnv s) as [[v rest]|] eqn:Hm.
    + destruct (match_reEnv_sound _ _ _ Hm) as [Hv Hs].
      rewrite (replace_match _ _ _ _ _ Hm) in Hrun.
      unfold expand_one at 1 in Hrun.
      rewrite (FindStringSubmatch_1_reference _ Hv) in Hrun.
      assert (Hrest : (String.length rest <= n)%nat).
      { subst s. rewrite length_app_str in Hlen. unfold reference in Hlen.
        simpl in Hlen. lia. }
      destruct (env !! v) as [val|] eqn:Hev.
      * destruct (ReplaceAllStringFunc (expand_one env) 0 rest missing0)
          as [tl M'] eqn:Hr.
        inversion Hrun; subst out M'. clear Hrun.
        destruct (IH _ _ _ _ Hrest Hr) as [IH1 IH2]. subst s. split.
        -- intros x. rewrite IH1, (references_after_match _ _ _ Hv).
           split.
           ++ intros [H|[H1 H2]]; auto.
           ++ intros [H|[[->|H1] H2]]; auto. congruence.
        -- intros Hall. apply subst_ref; auto.
           apply IH2. intros x Hx. apply Hall.
           apply references_after_match; auto.
      * destruct (ReplaceAllStringFunc (expand_one env) 0 rest ({[v]} ∪ missing0))
          as [tl M'] eqn:Hr.
        inversion Hrun; subst out M'. clear Hrun.
        destruct (IH _ _ _ _ Hrest Hr) as [IH1 IH2]. subst s. split.
        -- intros x. rewrite IH1, (references_after_match _ _ _ Hv).
           rewrite elem_of_union, elem_of_singleton.
           split.
           ++ intros [[->|H]|[H1 H2]]; auto.
           ++ intros [H|[[->|H1] H2]]; auto.
        -- intros Hall. exfalso.
           destruct (Hall v) as [w Hw]; [|congruence].
           apply references_after_match; auto.
    + destruct s as [|c s].
      * simpl in Hrun. inversion Hrun; subst. split.
        -- intros x. split; [auto|]. intros [H|[H _]]; [exact H|].
           now apply references_empty in H.
        -- intros _. constructor.
      * rewrite (replace_byte _ _ _ _ Hm) in Hrun.
        destruct (ReplaceAllStringFunc (expand_one env) 0 s missing0)
          as [tl M'] eqn:Hr.
        inversion Hrun; subst out M'. clear Hrun.
        assert (Hrest : (String.length s <= n)%nat) by (simpl in Hlen; lia).
        destruct (IH _ _ _ _ Hrest Hr) as [IH1 IH2]. split.
        -- intros x. rewrite IH1, (references_after_byte _ _ _ Hm). tauto.
        -- intros Hall. apply subst_byte.
           ++ now apply no_match_no_reference.
           ++ apply IH2. intros x Hx. apply Hall.
              now apply references_after_byte.
Qed.

(** [expandEnv] fails exactly on a reference to an unset variable, with the
    set of those variables. *)
Lemma expandEnv_err (data : string) (e : error) :
  expandEnv env data = Err e ->
  exists M : gset string, e = MissingEnv M
    /\ (exists x, x ∈ M)
    /\ forall x, x ∈ M <-> references data x /\ env !! x = None.
Proof.
  unfold expandEnv.
  destruct (ReplaceAllStringFunc (expand_one env) 0 data ∅) as [out M] eqn:Hr.
  destruct (expand_scan _ _ _ _ _ (Nat.le_refl _) Hr) as [H1 _].
  destruct (decide (0 < size M)) as [Hpos|_]; [|discriminate].
  intros [= <-]. exists M. split; [reflexivity|]. split.
  - now apply size_pos_elem_of.
  - intros x. rewrite H1, elem_of_empty. tauto.
Qed.

Lemma expandEnv_ok (data out : string) :
  expandEnv env data = Ok out ->
  (forall x, references data x -> is_Some (env !! x)) /\ substituted env data out.
Proof.
  unfold expandEnv.
  destruct (ReplaceAllStringFunc (expand_one env) 0 data ∅) as [out' M] eqn:Hr.
  destruct (expand_scan _ _ _ _ _ (Nat.le_refl _) Hr) as [H1 H2].
  destruct (decide (0 < size M)) as [|Hz]; [discriminate|].
  intros [= <-].
  assert (Hall : forall x, references data x -> is_Some (env !! x)).
  { intros x Hx. destruct (env !! x) eqn:E; [eauto|].
    exfalso. apply Hz. assert (x ∈ M) by (apply H1; auto).
    destruct (decide (size M = 0)) as [Hs|]; [|lia].
    apply size_empty_iff in Hs. set_solver. }
  auto.
Qed.

(** [expandEnv] always returns: an error or a text. *)
Lemma expandEnv_cases (data : string) :
  (exists x, references data x /\ env !! x = None) /\ (exists e, expandEnv env data = Err e)
  \/ (forall x, references data x -> is_Some (env !! x)) /\ (exists out, expandEnv env data = Ok out).
Proof.
  destruct (expandEnv env data) as [out|e] eqn:E.
  - right. split; [|eauto]. now apply expandEnv_ok in E.
  - left. split; [|eauto]. apply expandEnv_err in E as (M & _ & [x Hx] & HM).
    exists x. now apply HM.
Qed.

End ExpandEnvScan.

(** ** pkg/config: [LoadConfig] *)
Section LoadConfigProperties.
Import Config.
Variable ReadFile : string -> Result string.
Variable env : gmap string string.
Variable Decode : string -> Result Config.
Variable TrimFunc_IsSpace : string -> string.
Variable TrimRightFunc_IsSpace : string -> string.

Local Abbreviation TrimSpace := (Go.TrimSpace TrimFunc_IsSpace TrimRightFunc_IsSpace).
Local Abbreviation normalize := (Config.normalize TrimFunc_IsSpace TrimRightFunc_IsSpace).
Local Abbreviation LoadConfig :=
  (Config.LoadConfig ReadFile env Decode TrimFunc_IsSpace TrimRightFunc_IsSpace).

Lemma normalize_errors (c : Config) (e : error) :
  normalize c = Err e -> exists msg, e = Errorf msg.
Proof.
  unfold Config.normalize.
  repeat match goal with
         | |- context [if ?b then _ else _] => destruct b
         | |- context [match ?x with Some _ => _ | None => _ end] => destruct x
         | |- context [let '(_, _) := ?p in _] => destruct p
         end; simpl; intros [= <-]; eauto.
Qed.

Lemma normalize_ok (c cfg : Config) :
  normalize c = Ok cfg ->
  ZoneID cfg = TrimSpace (ZoneID c) /\ ZoneID cfg <> ""
  /\ Token cfg = TrimSpace (Token c) /\ Token cfg <> ""
  /\ Domains cfg = Domains c /\ Domains cfg <> []
  /\ (MINIMUM_FREQUENCY <= Frequency cfg)%Z
  /\ (Frequency c = 0%Z -> Frequency cfg = DEFAULT_FREQUENCY)
  /\ (MINIMUM_TIMEOUT <= Timeout cfg)%Z
  /\ (Timeout c = 0%Z -> Timeout cfg = DEFAULT_TIMEOUT)
  /\ (MINIMUM_WORKER_COUNT <= WorkerCount cfg <= MAXIMUM_WORKER_COUNT)%Z
  /\ ((WorkerCount c <= 0)%Z -> WorkerCount cfg = DEFAULT_WORKER_COUNT)
  /\ (exists b4 b6, IPv4 cfg = Some b4 /\ IPv6 cfg = Some b6 /\ (b4 = true \/ b6 = true))
  /\ (IPv4 c = None -> IPv6 c = None -> IPv4 cfg = Some true /\ IPv6 cfg = Some true)
  /\ ~ (IPv4 c = Some false /\ IPv6 c = Some false).
Proof.
  unfold Config.normalize.
  destruct (decide (TrimSpace (ZoneID c) = "")) as [|Hz]; [discriminate|].
  destruct (decide (TrimSpace (Token c) = "")) as [|Ht]; [discriminate|].
  destruct (length (Domains c) =? 0)%nat eqn:Hd; [discriminate|].
  apply Nat.eqb_neq in Hd.
  destruct (IPv4 c) as [[|]|] eqn:H4; destruct (IPv6 c) as [[|]|] eqn:H6;
    simpl; try discriminate; intros [= <-]; simpl;
    (split; [reflexivity|]); (split; [exact Hz|]);
    (split; [reflexivity|]); (split; [exact Ht|]);
    (split; [reflexivity|]);
    (split; [now destruct (Domains c)|]);
    unfold MINIMUM_FREQUENCY, DEFAULT_FREQUENCY, MINIMUM_TIMEOUT, DEFAULT_TIMEOUT,
      MINIMUM_WORKER_COUNT, MAXIMUM_WORKER_COUNT, DEFAULT_WORKER_COUNT,
      Hour, Minute, Second;
    destruct (Z.eqb_spec (Frequency c) 0); destruct (Z.eqb_spec (Timeout c) 0);
    destruct (Z.leb_spec (WorkerCount c) 0); cbv iota;
    repeat match goal with
           | |- context [(?a =? ?b)%Z] => destruct (Z.eqb_spec a b)
           | |- context [(?a <? ?b)%Z] => destruct (Z.ltb_spec a b)
           | |- context [(?a <=? ?b)%Z] => destruct (Z.leb_spec a b)
           | |- context [(?a >? ?b)%Z] => rewrite (Z.gtb_ltb a b)
           end; cbv iota;
    repeat split; try lia; try congruence; eauto 6;
    try (intros [? ?]; congruence).
Qed.

(** C7. Every configuration that [LoadConfig] returns without error comes
    from a decoded document and satisfies the invariant: zone id and token
    are the trimmed values and not empty, the domain list is not empty,
    frequency is at least one minute (one hour when unset), timeout at least
    one second (ten seconds when unset), the worker count lies in [1, 100]
    (10 when unset or not positive), both address-family flags are set and
    one of them is true (both when neither was given), and the document did
    not set both flags to false. *)
Theorem LoadConfig_invariant (filename : string) (cfg : Config) :
  LoadConfig filename = Ok cfg ->
  exists raw data c,
    ReadFile filename = Ok raw /\ expandEnv env raw = Ok data /\ Decode data = Ok c
    /\ ZoneID cfg = TrimSpace (ZoneID c) /\ ZoneID cfg <> ""
    /\ Token cfg = TrimSpace (Token c) /\ Token cfg <> ""
    /\ Domains cfg = Domains c /\ Domains cfg <> []
    /\ (MINIMUM_FREQUENCY <= Frequency cfg)%Z
    /\ (Frequency c = 0%Z -> Frequency cfg = DEFAULT_FREQUENCY)
    /\ (MINIMUM_TIMEOUT <= Timeout cfg)%Z
    /\ (Timeout c = 0%Z -> Timeout cfg = DEFAULT_TIMEOUT)
    /\ (MINIMUM_WORKER_COUNT <= WorkerCount cfg <= MAXIMUM_WORKER_COUNT)%Z
    /\ ((WorkerCount c <= 0)%Z -> WorkerCount cfg = DEFAULT_WORKER_COUNT)
    /\ (exists b4 b6, IPv4 cfg = Some b4 /\ IPv6 cfg = Some b6 /\ (b4 = true \/ b6 = true))
    /\ (IPv4 c = None -> IPv6 c = None -> IPv4 cfg = Some true /\ IPv6 cfg = Some true)
    /\ ~ (IPv4 c = Some false /\ IPv6 c = Some false).
Proof.
  unfold Config.LoadConfig.
  destruct (ReadFile filename) as [raw|] eqn:Hr; [|discriminate].
  destruct (expandEnv env raw) as [data|] eqn:He; [|discriminate].
  destruct (Decode data) as [c|] eqn:Hd; [|discriminate].
  intros H. exists raw, data, c.
  split; [reflexivity|]. split; [exact He|]. split; [exact Hd|].
  exact (normalize_ok _ _ H).
Qed.

(** C10. For a readable configuration file, [LoadConfig] returns the error
    that names the missing variables exactly when the text references an
    unset variable, and the names are exactly the unset variables
    referenced; when every referenced variable is set, the text handed to
    the decoder is the file text with every reference replaced by the value
    of its variable. *)
Theorem LoadConfig_missing_env (filename raw : string) :
  ReadFile filename = Ok raw ->
  ((exists M, LoadConfig filename = Err (MissingEnv M))
     <-> exists x, references raw x /\ env !! x = None)
  /\ (forall M, LoadConfig filename = Err (MissingEnv M) ->
        forall x, x ∈ M <-> references raw x /\ env !! x = None)
  /\ ((forall x, references raw x -> is_Some (env !! x)) ->
        exists data, substituted env raw data
          /\ expandEnv env raw = Ok data
          /\ LoadConfig filename =
               match Decode data with
               | Err e => Err (Wrapf "could not parse config file" e)
               | Ok c => normalize c
               end).
Proof.
  intros Hr. unfold Config.LoadConfig. rewrite Hr.
  destruct (expandEnv env raw) as [data|e] eqn:He.
  - destruct (expandEnv_ok _ _ _ He) as [Hall Hsub].
    assert (Hno : forall M,
      match Decode data with
      | Ok config => normalize config
      | Err e => Err (Wrapf "could not parse config file" e)
      end <> Err (MissingEnv M)).
    { intros M E. destruct (Decode data) as [c|]; [|discriminate].
      apply normalize_errors in E as [msg E]. discriminate. }
    split; [split|split].
    + intros [M E]. now apply Hno in E.
    + intros (x & Hx & Hn). destruct (Hall x Hx) as [v Hv]. congruence.
    + intros M E. now apply Hno in E.
    + intros _. exists data. auto.
  - destruct (expandEnv_err _ _ _ He) as (M & -> & [x Hx] & HM).
    split; [split|split].
    + intros _. exists x. now apply HM.
    + intros _. eauto.
    + intros M' [= <-]. exact HM.
    + intros Hall. apply HM in Hx as [Hx Hn].
      destruct (Hall x Hx) as [v Hv]. congruence.
Qed.

End LoadConfigProperties.

Lemma LoadConfig_invariant_witness :
  Config.LoadConfig Sample.ReadFile Sample.environ Sample.Decode
    Sample.TrimFunc_IsSpace Sample.TrimRightFunc_IsSpace "cfdns.yaml"
    = Ok Sample.loaded
  /\ exists raw data c,
    Sample.ReadFile "cfdns.yaml" = Ok raw
    /\ Config.expandEnv Sample.environ raw = Ok data /\ Sample.Decode data = Ok c
    /\ Config.ZoneID Sample.loaded <> "" /\ Config.Token Sample.loaded <> ""
    /\ Config.Domains Sample.loaded <> [].
Proof.
  assert (H : Config.LoadConfig Sample.ReadFile Sample.environ Sample.Decode
    Sample.TrimFunc_IsSpace Sample.TrimRightFunc_IsSpace "cfdns.yaml"
    = Ok Sample.loaded) by (vm_compute; reflexivity).
  split; [exact H|].
  destruct (LoadConfig_invariant _ _ _ _ _ _ _ H)
    as (raw & data & c & H1 & H2 & H3 & _ & H5 & _ & H7 & _ & H9 & _).
  exists raw, data, c. auto 10.
Defined.

Lemma LoadConfig_missing_env_witness :
  Sample.ReadFile "cfdns.yaml" = Ok Sample.file_text
  /\ ((exists M, Config.LoadConfig Sample.ReadFile (delete "CF_TOKEN" Sample.environ)
         Sample.Decode Sample.TrimFunc_IsSpace Sample.TrimRightFunc_IsSpace
         "cfdns.yaml" = Err (MissingEnv M))
      <-> exists x, Config.references Sample.file_text x
                    /\ delete "CF_TOKEN" Sample.environ !! x = None).
Proof.
  split; [reflexivity|].
  apply (LoadConfig_missing_env Sample.ReadFile (delete "CF_TOKEN" Sample.environ)
           Sample.Decode Sample.TrimFunc_IsSpace Sample.TrimRightFunc_IsSpace
           "cfdns.yaml" Sample.file_text).
  reflexivity.
Defined.

(** ** pkg/ipget *)
Section ResolverProperties.
Import Ipget.
Variable Do : string -> Result Response.
Variable ParseIP : string -> IP.
Variable IPString : IP -> string.
Variable Shuffle : list string -> list string.
Variable TrimFunc_IsSpace : string -> string.
Variable TrimRightFunc_IsSpace : string -> string.

Local Abbreviation TrimSpace := (Go.TrimSpace TrimFunc_IsSpace TrimRightFunc_IsSpace).
Local Abbreviation strToIP := (Ipget.strToIP ParseIP).
Local Abbreviation getSmallText :=
  (Ipget.getSmallText Do TrimFunc_IsSpace TrimRightFunc_IsSpace).
Local Abbreviation tryServices :=
  (Ipget.tryServices Do ParseIP IPString TrimFunc_IsSpace TrimRightFunc_IsSpace).
Local Abbreviation getPublicIP :=
  (Ipget.getPublicIP Do ParseIP IPString Shuffle TrimFunc_IsSpace TrimRightFunc_IsSpace).
Local Abbreviation skipped :=
  (Ipget.skipped Do ParseIP TrimFunc_IsSpace TrimRightFunc_IsSpace).
Local Abbreviation answers :=
  (Ipget.answers Do ParseIP TrimFunc_IsSpace TrimRightFunc_IsSpace).

Lemma is_nil_spec (ip : IP) : is_nil ip = true <-> ip = [].
Proof. destruct ip; simpl; split; congruence. Qed.

(** When [net.ParseIP] yields nil or sixteen bytes, as it does, a text is
    rejected by [strToIP] exactly when [net.ParseIP] rejects it. *)
Lemma strToIP_nil (ipStr : string) :
  (ParseIP ipStr = [] \/ length (ParseIP ipStr) = 16%nat) ->
  strToIP ipStr = [] <-> ParseIP ipStr = [].
Proof.
  intros Hlen. unfold Ipget.strToIP. split.
  - destruct (ParseIP ipStr) as [|b ip] eqn:E; [reflexivity|].
    destruct Hlen as [|Hlen]; [discriminate|].
    cbn [is_nil]. destruct (negb (is_nil (To4 (b :: ip)))) eqn:H4.
    + intros H. rewrite H in H4. discriminate.
    + unfold To16. rewrite Hlen. simpl. discriminate.
  - intros ->. reflexivity.
Qed.

Lemma tryServices_step (service : string) (rest : list string) :
  skipped service ->
  tryServices (service :: rest)
    = let '(tried, r) := tryServices rest in (service :: tried, r).
Proof.
  intros [(err & He & Hd & Hc)|(ipStr & He & Hn)]; cbn [Ipget.tryServices];
    rewrite He.
  - now rewrite Hd, Hc.
  - now rewrite Hn.
Qed.

(** Skipped providers are passed over one after the other. *)
Lemma tryServices_skip (pre rest : list string) :
  Forall skipped pre ->
  tryServices (pre ++ rest)
    = let '(tried, r) := tryServices rest in (pre ++ tried, r).
Proof.
  induction 1 as [|s pre Hs _ IH].
  - simpl. now destruct (tryServices rest).
  - rewrite <- app_comm_cons, (tryServices_step _ _ Hs), IH.
    now destruct (tryServices rest).
Qed.

Lemma tryServices_abort (service : string) (rest : list string) (err : error) :
  getSmallText service = Err err ->
  errors_Is err DeadlineExceeded = true \/ errors_Is err Canceled = true ->
  tryServices (service :: rest) = ([service], Err err).
Proof.
  intros He H. cbn [Ipget.tryServices]. rewrite He.
  destruct H as [-> | ->]; [reflexivity|]. now rewrite orb_true_r.
Qed.

Lemma tryServices_answer (service : string) (rest : list string) (ip : IP) :
  answers service ip ->
  tryServices (service :: rest) = ([service], Ok (IPString ip)).
Proof.
  intros (ipStr & He & Hip & Hn). cbn [Ipget.tryServices]. rewrite He, Hip.
  destruct ip; [contradiction|reflexivity].
Qed.

(** C5. [getPublicIP] goes through the shuffled providers in order.  A
    provider failing with a deadline or cancellation error ends the
    resolution with that error and no later provider is asked; a provider
    failing otherwise, or answering with no IP literal, is passed over and
    the next one is asked; when all are passed over the result is an error;
    and the first provider that answers with a literal decides the result. *)
Theorem getPublicIP_fallback (services : list string) :
  let order := Shuffle services in
  (forall pre s post err,
      order = pre ++ s :: post -> Forall skipped pre ->
      getSmallText s = Err err ->
      errors_Is err DeadlineExceeded = true \/ errors_Is err Canceled = true ->
      getPublicIP services = (pre ++ [s], Err err))
  /\ (forall pre s post,
      order = pre ++ s :: post -> Forall skipped pre -> skipped s ->
      getPublicIP services
        = let '(tried, r) := tryServices post in (pre ++ s :: tried, r))
  /\ (Forall skipped order ->
      getPublicIP services
        = (order, Err (Errorf "could not retrieve public IP address")))
  /\ (forall pre s post ip,
      order = pre ++ s :: post -> Forall skipped pre -> answers s ip ->
      getPublicIP services = (pre ++ [s], Ok (IPString ip))).
Proof.
  unfold Ipget.getPublicIP. cbv zeta. repeat split.
  - intros pre s post err -> Hpre He Hctx.
    rewrite (tryServices_skip _ _ Hpre), (tryServices_abort _ _ _ He Hctx).
    reflexivity.
  - intros pre s post -> Hpre Hs.
    rewrite (tryServices_skip _ _ Hpre), (tryServices_step _ _ Hs).
    now destruct (tryServices post).
  - intros Hall. rewrite <- (app_nil_r (Shuffle services)) at 1.
    rewrite (tryServices_skip _ _ Hall). simpl. now rewrite app_nil_r.
  - intros pre s post ip -> Hpre Hs.
    rewrite (tryServices_skip _ _ Hpre), (tryServices_answer _ _ _ Hs).
    reflexivity.
Qed.

Lemma take_all (n : nat) (s : string) :
  (String.length s <= n)%nat -> take n s = s.
Proof.
  revert s; induction n as [|n IH]; intros [|c s]; simpl; intros H;
    try reflexivity; try lia.
  rewrite IH; [reflexivity|lia].
Qed.

(** C9, as the code has it.  For a response with status 200 whose body can
    be read up to the limit, [getSmallText] returns the trimmed prefix of at
    most 128 bytes of the body, and that text alone decides what the
    resolver does with the provider: it is passed over exactly when the
    trimmed prefix is no IP literal, and it answers with the address the
    trimmed prefix denotes otherwise. *)
Theorem getSmallText_prefix (url : string) (resp : Response) :
  Do url = Ok resp ->
  StatusCode resp = StatusOK ->
  ((String.length (Body resp) < 128)%nat -> BodyErr resp = None) ->
  let prefix := take 128 (Body resp) in
  getSmallText url = Ok (TrimSpace prefix)
  /\ (String.length prefix <= 128)%nat
  /\ Body resp = prefix +:+ drop 128 (Body resp)
  /\ (skipped url <-> strToIP (TrimSpace prefix) = [])
  /\ (forall ip, answers url ip <-> strToIP (TrimSpace prefix) = ip /\ ip <> []).
Proof.
  intros Hdo Hst Herr prefix.
  assert (Hget : getSmallText url = Ok (TrimSpace prefix)).
  { unfold Ipget.getSmallText. rewrite Hdo, Hst. simpl.
    unfold ReadAll_LimitReader.
    destruct (128 <=? String.length (Body resp))%nat eqn:Hlen; [reflexivity|].
    apply Nat.leb_gt in Hlen. rewrite (Herr Hlen).
    unfold prefix. rewrite take_all; [reflexivity|lia]. }
  split; [exact Hget|]. split; [apply take_length_le|].
  split; [symmetry; apply take_drop|]. split.
  - unfold Ipget.skipped. rewrite Hget. split.
    + intros [(err & He & _)|(ipStr & He & Hn)]; [discriminate|].
      now inversion He; subst.
    + intros Hn. right. eauto.
  - intros ip. unfold Ipget.answers. rewrite Hget. split.
    + intros (ipStr & He & Hip & Hn). inversion He; subst. auto.
    + intros [Hip Hn]. eauto.
Qed.

End ResolverProperties.

Lemma getPublicIP_fallback_witness :
  Sample.getPublicIP [ "https://api.ipify.org"; "https://slow.example";
                       "https://v4.ident.me" ]
  = ([ "https://api.ipify.org"; "https://slow.example" ],
     Err (Wrapf "Get" (Sentinel DeadlineExceeded))).
Proof.
  pose proof (getPublicIP_fallback Sample.Do Sample.ParseIP Sample.IPString
                Sample.Shuffle Sample.TrimFunc_IsSpace Sample.TrimRightFunc_IsSpace
                [ "https://api.ipify.org"; "https://slow.example";
                  "https://v4.ident.me" ]) as [H _].
  apply (H [ "https://api.ipify.org" ] "https://slow.example"
           [ "https://v4.ident.me" ]).
  - reflexivity.
  - constructor; [|constructor]. left.
    exists (Errorf "unexpected status code: 503"). repeat split; reflexivity.
  - reflexivity.
  - left. reflexivity.
Defined.

Lemma getSmallText_prefix_witness :
  Sample.getSmallText "https://v4.ident.me" = Ok "203.0.113.9"
  /\ Sample.strToIP "203.0.113.9" <> [].
Proof.
  destruct (getSmallText_prefix Sample.Do Sample.ParseIP
              Sample.TrimFunc_IsSpace Sample.TrimRightFunc_IsSpace
              "https://v4.ident.me"
              {| Ipget.StatusCode := 200;
                 Ipget.Body := "203.0.113.9" +:+ Sample.newline;
                 Ipget.BodyErr := None |})
    as (H & _); [reflexivity | reflexivity | reflexivity |].
  split; [exact H | vm_compute; discriminate].
Defined.

(** C9 as stated fails: the provider [https://padded.example] answers with
    120 blanks followed by the literal [10.0.0.12], which does not fit in
    the first 128 bytes; it is not passed over: what is left of the
    literal, [10.0.0.1], is a literal too and becomes the result. *)
Lemma getSmallText_cut_literal_not_skipped :
  let body := Sample.spaces 120 +:+ "10.0.0.12" in
  Sample.Do "https://padded.example"
    = Ok {| Ipget.StatusCode := 200; Ipget.Body := body; Ipget.BodyErr := None |}
  /\ Go.TrimSpace Sample.TrimFunc_IsSpace Sample.TrimRightFunc_IsSpace body
     = "10.0.0.12"
  /\ Sample.strToIP "10.0.0.12" <> []
  /\ (128 < String.length body)%nat
  /\ Sample.getSmallText "https://padded.example" = Ok "10.0.0.1"
  /\ ~ Ipget.skipped Sample.Do Sample.ParseIP Sample.TrimFunc_IsSpace
         Sample.TrimRightFunc_IsSpace "https://padded.example"
  /\ Sample.getPublicIP [ "https://padded.example" ]
     = ([ "https://padded.example" ], Ok "10.0.0.1").
Proof.
  cbv zeta. split; [reflexivity|]. split; [vm_compute; reflexivity|].
  split; [vm_compute; discriminate|]. split; [vm_compute; lia|].
  split; [vm_compute; reflexivity|]. split; [|vm_compute; reflexivity].
  intros [(err & He & _)|(ipStr & He & Hn)].
  - vm_compute in He. discriminate.
  - vm_compute in He. inversion He; subst. vm_compute in Hn. discriminate.
Qed.

(** ** cmd: the configuration file watcher *)
Section WatcherProperties.
Import Watcher.

Lemma ticks_unobserved (k : nat) (w : Watch) (rest : list (option FileSig)) :
  ticks w (replicate k None ++ rest)
    = let '(w', sents) := ticks w rest in (w', replicate k false ++ sents).
Proof.
  induction k as [|k IH]; simpl.
  - now destruct (ticks w rest).
  - rewrite IH. now destruct (ticks w rest).
Qed.

(** C8. The predicate reports a change exactly when both signatures are
    present and the new modification time is later, or the sizes differ, or
    the inode numbers differ.  A tick attempts a notification exactly when
    the predicate holds between the stored and the observed signature, and
    then stores the observed one.  The first signature that can be read
    only seeds the baseline.  When the read at startup fails, the first
    signature the loop observes is stored and no notification is attempted
    for it, nor for the unreadable polls before it.  When the read at
    startup succeeds, its signature is the baseline and nothing is sent for
    it: it is kept through unreadable polls, and the first signature the
    loop observes is compared with it, so that a notification is attempted
    for that one exactly when the file changed since startup. *)
Theorem watcher_change_predicate :
  (forall fs1 fs2,
      Changed fs1 fs2 = true <->
      exists a b, fs1 = Some a /\ fs2 = Some b
        /\ ((ModTime a < ModTime b)%Z \/ Size b <> Size a \/ Inode b <> Inode a))
  /\ (forall w o, snd (tick w o) = true <-> Changed (fileSig w) o = true)
  /\ (forall w o, snd (tick w o) = true ->
        fst (tick w o) = {| fileSig := o; ch := true |})
  /\ (forall w o, snd (tick w o) = false ->
        ch (fst (tick w o)) = ch w
        /\ (fileSig (fst (tick w o)) = fileSig w
            \/ fileSig w = None /\ fileSig (fst (tick w o)) = o))
  /\ (forall k s rest,
        watchFile None (replicate k None ++ Some s :: rest)
          = let '(w, sents) := ticks {| fileSig := Some s; ch := false |} rest in
            (w, replicate (S k) false ++ sents))
  /\ (forall k s,
        watchFile (Some s) (replicate k None)
          = ({| fileSig := Some s; ch := false |}, replicate k false))
  /\ (forall k s b rest,
        watchFile (Some s) (replicate k None ++ Some b :: rest)
          = let '(w, sents) :=
              ticks (if Changed (Some s) (Some b)
                     then {| fileSig := Some b; ch := true |}
                     else {| fileSig := Some s; ch := false |}) rest in
            (w, replicate k false ++ Changed (Some s) (Some b) :: sents)).
Proof.
  assert (HC : forall fs1 fs2,
      Changed fs1 fs2 = true <->
      exists a b, fs1 = Some a /\ fs2 = Some b
        /\ ((ModTime a < ModTime b)%Z \/ Size b <> Size a \/ Inode b <> Inode a)).
  { intros [a|] [b|]; simpl;
      try (split; [discriminate | intros (? & ? & ? & ? & _); discriminate]).
    rewrite !orb_true_iff, !negb_true_iff, Z.ltb_lt, !Z.eqb_neq.
    split.
    - intros H. exists a, b. tauto.
    - intros (a' & b' & [= <-] & [= <-] & H). tauto. }
  split; [exact HC|]. split; [|split; [|split; [|split; [|split]]]].
  - intros [[a|] c] [b|]; unfold tick; cbn [fileSig];
      try (simpl; split; discriminate).
    destruct (Changed (Some a) (Some b)); simpl; tauto.
  - clear HC. intros [[a|] c] [b|]; unfold tick; cbn [fileSig];
      try (simpl; intros H; discriminate H).
    destruct (Changed (Some a) (Some b)); simpl;
      [reflexivity | intros H; discriminate H].
  - clear HC. intros [[a|] c] [b|]; unfold tick; cbn [fileSig];
      try (simpl; auto; fail).
    destruct (Changed (Some a) (Some b)); simpl;
      [intros H; discriminate H | auto].
  - intros k s rest. unfold watchFile. rewrite ticks_unobserved.
    cbn [ticks tick fileSig ch].
    destruct (ticks {| fileSig := Some s; ch := false |} rest) as [w sents].
    f_equal. change (replicate (S k) false) with (false :: replicate k false).
    clear. induction k as [|k IH]; simpl; [reflexivity|].
    f_equal. exact IH.
  - intros k s. unfold watchFile.
    rewrite <- (app_nil_r (replicate k None)), ticks_unobserved.
    cbn [ticks]. now rewrite app_nil_r.
  - intros k s b rest. unfold watchFile. rewrite ticks_unobserved.
    cbn [ticks tick fileSig ch].
    destruct (Changed (Some s) (Some b));
      now destruct (ticks _ rest) as [w sents].
Qed.

End WatcherProperties.

(** ** pkg/cf: reconciliation *)
Section EngineProperties.
Import Cf.
Variable svc : Cloudflare.Service.

Local Abbreviation updateRecord := (Cf.updateRecord svc).
Local Abbreviation updateRecords := (Cf.updateRecords svc).
Local Abbreviation checkAndUpdate := (Cf.checkAndUpdate svc).
Local Abbreviation ZoneIsValid := (Cf.ZoneIsValid svc).
Local Abbreviation Process := (Cf.Process svc).

Lemma record_matches_spec (record : Cloudflare.DNSRecord)
    (domain : Config.Domain) (address : string) :
  record_matches record domain address = true <->
  Cloudflare.Content record = address
  /\ (Cloudflare.Proxied record = None
      \/ Config.Proxied domain = None
      \/ Cloudflare.Proxied record = Config.Proxied domain).
Proof.
  unfold record_matches. rewrite andb_true_iff, String.eqb_eq.
  destruct (Cloudflare.Proxied record) as [[|]|],
           (Config.Proxied domain) as [[|]|]; simpl;
    intuition (auto; congruence).
Qed.

Lemma updateRecord_match (cfdns : CFDNS) (domain : Config.Domain)
    (address : string) (record : Cloudflare.DNSRecord) (h : list Cloudflare.Call) :
  record_matches record domain address = true ->
  updateRecord cfdns domain address record h = (Returned (Return None), h).
Proof. intros H. unfold Cf.updateRecord. now rewrite H. Qed.

Lemma updateRecord_differs (cfdns : CFDNS) (a : Cloudflare.API)
    (domain : Config.Domain) (address : string)
    (record : Cloudflare.DNSRecord) (h : list Cloudflare.Call) :
  api cfdns = Some a ->
  record_matches record domain address = false ->
  updateRecord cfdns domain address record h
    = (Returned
         match Cloudflare.UpdateDNSRecord svc a h (Config.ZoneID (cfg cfdns))
                 {| Cloudflare.UpdateID := Cloudflare.ID record;
                    Cloudflare.UpdateContent := address;
                    Cloudflare.UpdateProxied := Config.Proxied domain |} with
         | Err err => Return (Some err)
         | Ok _ => Next
         end,
       h ++ [update_call cfdns record domain address]).
Proof.
  intros Ha H. unfold Cf.updateRecord. rewrite H, Ha.
  unfold bind, call, ret, update_call.
  now destruct (Cloudflare.UpdateDNSRecord _ _ _ _ _).
Qed.

Lemma app_singleton_neq {A} (h : list A) (c : A) : h ++ [c] <> h.
Proof.
  intros E. apply (f_equal (@length A)) in E.
  rewrite length_app in E. simpl in E. lia.
Qed.

(** The loop only adds calls. *)
Lemma updateRecords_extends (cfdns : CFDNS) (domain : Config.Domain)
    (address : string) (records : list Cloudflare.DNSRecord) :
  forall h, exists calls,
    snd (updateRecords cfdns domain address records h) = h ++ calls.
Proof.
  induction records as [|r rs IH]; intros h.
  - exists []. simpl. now rewrite app_nil_r.
  - cbn [Cf.updateRecords]. unfold bind at 1.
    destruct (record_matches r domain address) eqn:Hm.
    + rewrite (updateRecord_match _ _ _ _ _ Hm). exists []. simpl.
      now rewrite app_nil_r.
    + destruct (api cfdns) as [a|] eqn:Ha.
      * rewrite (updateRecord_differs _ _ _ _ _ _ Ha Hm).
        destruct (Cloudflare.UpdateDNSRecord _ _ _ _ _).
        -- destruct (IH (h ++ [update_call cfdns r domain address])) as [calls Hc].
           exists (update_call cfdns r domain address :: calls).
           rewrite Hc, <- app_assoc. reflexivity.
        -- exists [update_call cfdns r domain address]. reflexivity.
      * unfold Cf.updateRecord. rewrite Hm, Ha. exists []. simpl.
        now rewrite app_nil_r.
Qed.

(** Records that differ and are updated without error are left behind. *)
Lemma updateRecords_app (cfdns : CFDNS) (domain : Config.Domain)
    (address : string) (pre rest : list Cloudflare.DNSRecord) :
  forall h h',
    Forall (fun r => record_matches r domain address = false) pre ->
    updateRecords cfdns domain address pre h = (Returned None, h') ->
    updateRecords cfdns domain address (pre ++ rest) h
      = updateRecords cfdns domain address rest h'.
Proof.
  induction pre as [|r pre IH]; intros h h' Hpre Hrun.
  - simpl in Hrun. inversion Hrun; subst. reflexivity.
  - inversion Hpre as [|? ? Hm Hpre']; subst.
    rewrite <- app_comm_cons. cbn [Cf.updateRecords] in *.
    unfold bind at 1. unfold bind at 1 in Hrun.
    destruct (api cfdns) as [a|] eqn:Ha.
    + rewrite (updateRecord_differs _ _ _ _ _ _ Ha Hm) in *.
      destruct (Cloudflare.UpdateDNSRecord _ _ _ _ _).
      * eapply IH; eauto.
      * discriminate.
    + unfold Cf.updateRecord in Hrun. rewrite Hm, Ha in Hrun. discriminate.
Qed.

(** Records that differ and whose updates are answered without error get
    one update call each, in the order of the listing. *)
Lemma updateRecords_updated (cfdns : CFDNS) (a : Cloudflare.API)
    (domain : Config.Domain) (address : string)
    (pre : list Cloudflare.DNSRecord) :
  api cfdns = Some a ->
  forall h,
    Forall (fun r => record_matches r domain address = false) pre ->
    Cf.answered_ok svc a h
      (map (fun r => update_call cfdns r domain address) pre) ->
    updateRecords cfdns domain address pre h
      = (Returned None,
         h ++ map (fun r => update_call cfdns r domain address) pre).
Proof.
  intros Ha. induction pre as [|r pre IH]; intros h Hpre Hok.
  - simpl. now rewrite app_nil_r.
  - inversion Hpre as [|? ? Hm Hpre']; subst.
    cbn [map Cf.answered_ok] in Hok. destruct Hok as [Hr Hok].
    cbn [Cf.updateRecords map]. unfold bind at 1.
    rewrite (updateRecord_differs _ _ _ _ _ _ Ha Hm).
    unfold update_call, Cf.answer_error in Hr.
    destruct (Cloudflare.UpdateDNSRecord _ _ _ _ _); [|discriminate].
    rewrite (IH _ Hpre' Hok), <- app_assoc. reflexivity.
Qed.

(** C1, as the code has it.  A record is treated as a match exactly when
    its content is the resolved address and its proxied flag is nil, or
    the domain's is nil, or both are equal.  Take any record of the
    listing before which every record differed and was updated without
    error.  If it matches, [checkAndUpdate] issues no update call for it:
    it returns nil after the listing and the updates of the records before
    it.  If it differs, the update call for it is the next call of
    [checkAndUpdate]; when that update fails, [checkAndUpdate] returns its
    error and makes no further call.  With a record of the resolved
    content and proxied true, and a domain that leaves proxied
    unspecified, no update call is issued for the record. *)
Theorem checkAndUpdate_match (cfdns : CFDNS) (a : Cloudflare.API)
    (domain : Config.Domain) (recordType address : string)
    (pre : list Cloudflare.DNSRecord) (record : Cloudflare.DNSRecord)
    (post : list Cloudflare.DNSRecord) (h : list Cloudflare.Call) :
  let zone := Config.ZoneID (cfg cfdns) in
  let params := {| Cloudflare.ListName := Config.Hostname domain;
                   Cloudflare.ListType := recordType |} in
  let update := fun r => update_call cfdns r domain address in
  let reached := h ++ Cloudflare.CallListDNSRecords zone params :: map update pre in
  api cfdns = Some a ->
  Cloudflare.ListDNSRecords svc a h zone params = Ok (pre ++ record :: post) ->
  Forall (fun r => record_matches r domain address = false) pre ->
  Cf.answered_ok svc a (h ++ [Cloudflare.CallListDNSRecords zone params])
    (map update pre) ->
  (record_matches record domain address = true <->
   Cloudflare.Content record = address
   /\ (Cloudflare.Proxied record = None
       \/ Config.Proxied domain = None
       \/ Cloudflare.Proxied record = Config.Proxied domain))
  /\ (record_matches record domain address = true ->
      checkAndUpdate cfdns domain recordType address h = (Returned None, reached))
  /\ (record_matches record domain address = false ->
      match Cloudflare.UpdateDNSRecord svc a reached zone
              {| Cloudflare.UpdateID := Cloudflare.ID record;
                 Cloudflare.UpdateContent := address;
                 Cloudflare.UpdateProxied := Config.Proxied domain |} with
      | Err err =>
          checkAndUpdate cfdns domain recordType address h
            = (Returned (Some err), reached ++ [update record])
      | Ok _ =>
          exists calls,
            snd (checkAndUpdate cfdns domain recordType address h)
              = reached ++ update record :: calls
      end)
  /\ (snd (checkAndUpdate cfdns domain recordType address h) = reached
      <-> record_matches record domain address = true)
  /\ (Cloudflare.Content record = address ->
      Cloudflare.Proxied record = Some true ->
      Config.Proxied domain = None ->
      checkAndUpdate cfdns domain recordType address h = (Returned None, reached)).
Proof.
  intros zone params update reached Ha Hl Hpre Hok.
  assert (Hrun : checkAndUpdate cfdns domain recordType address h
                 = updateRecords cfdns domain address (record :: post) reached).
  { unfold Cf.checkAndUpdate, getRecords. rewrite Ha.
    unfold bind at 1. unfold call. fold zone. fold params. rewrite Hl.
    replace (length (pre ++ record :: post) =? 0)%nat with false
      by (symmetry; apply Nat.eqb_neq; rewrite length_app; simpl; lia).
    rewrite (updateRecords_app cfdns domain address pre (record :: post)
               (h ++ [Cloudflare.CallListDNSRecords zone params]) reached Hpre).
    - reflexivity.
    - rewrite (updateRecords_updated cfdns a domain address pre Ha _ Hpre Hok).
      unfold reached, update. now rewrite <- app_assoc. }
  assert (Hmatch : record_matches record domain address = true ->
                   checkAndUpdate cfdns domain recordType address h
                   = (Returned None, reached)).
  { intros Hm. rewrite Hrun. cbn [Cf.updateRecords]. unfold bind at 1.
    now rewrite (updateRecord_match _ _ _ _ _ Hm). }
  assert (Hdiff : record_matches record domain address = false ->
                  exists out calls,
                    checkAndUpdate cfdns domain recordType address h
                    = (out, reached ++ update record :: calls)
                    /\ match Cloudflare.UpdateDNSRecord svc a reached zone
                               {| Cloudflare.UpdateID := Cloudflare.ID record;
                                  Cloudflare.UpdateContent := address;
                                  Cloudflare.UpdateProxied := Config.Proxied domain |}
                       with
                       | Err err => out = Returned (Some err) /\ calls = []
                       | Ok _ => True
                       end).
  { intros Hm. rewrite Hrun. cbn [Cf.updateRecords]. unfold bind at 1.
    rewrite (updateRecord_differs _ _ _ _ _ _ Ha Hm). fold zone.
    change (update_call cfdns record domain address) with (update record).
    destruct (Cloudflare.UpdateDNSRecord _ _ _ _ _).
    - destruct (updateRecords_extends cfdns domain address post
                  (reached ++ [update record])) as [calls Hc].
      destruct (updateRecords cfdns domain address post
                  (reached ++ [update record])) as [out tr] eqn:E.
      simpl in Hc. subst tr. exists out, calls.
      rewrite <- app_assoc. split; [reflexivity|exact I].
    - eexists _, []. split; [reflexivity|]. split; reflexivity. }
  split; [apply record_matches_spec|].
  split; [exact Hmatch|].
  split; [|split].
  - intros Hm. destruct (Hdiff Hm) as (out & calls & E & Hout).
    destruct (Cloudflare.UpdateDNSRecord _ _ _ _ _).
    + exists calls. now rewrite E.
    + destruct Hout as [-> ->]. exact E.
  - split.
    + destruct (record_matches record domain address) eqn:Hm; [reflexivity|].
      destruct (Hdiff eq_refl) as (out & calls & E & _). rewrite E. simpl.
      intros Eq. rewrite <- (app_nil_r reached) in Eq at 2.
      apply app_inv_head in Eq. discriminate.
    + intros Hm. now rewrite (Hmatch Hm).
  - intros Hc Hp Hd. apply Hmatch, record_matches_spec. auto.
Qed.

(** C2 does not hold of the code: a record that matches ends the loop, so
    the records after it are neither compared nor updated.  For
    [dup.example.com] the provider lists [r1], which matches the address,
    and then [r2], which differs; every update would succeed, and still
    the listing is the only call made: [r2] gets no update. *)
Theorem checkAndUpdate_stops_at_first_match :
  (forall cfdns domain address record post h,
      record_matches record domain address = true ->
      updateRecords cfdns domain address (record :: post) h = (Returned None, h))
  /\ (let domain := Sample.domain "dup.example.com" None in
      let address := "203.0.113.9" in
      let r1 := Sample.record "r1" "203.0.113.9" None in
      let r2 := Sample.record "r2" "198.51.100.7" None in
      let listing :=
        Cloudflare.CallListDNSRecords "023e105f4ecef8ad9ca31a8372d0c353"
          {| Cloudflare.ListName := "dup.example.com"; Cloudflare.ListType := "A" |} in
      Cloudflare.ListDNSRecords Sample.service
        {| Cloudflare.APIToken := "s3cr3t" |} [] "023e105f4ecef8ad9ca31a8372d0c353"
        {| Cloudflare.ListName := "dup.example.com"; Cloudflare.ListType := "A" |}
        = Ok [r1; r2]
      /\ record_matches r1 domain address = true
      /\ record_matches r2 domain address = false
      /\ Cf.checkAndUpdate Sample.service Sample.cfdns domain "A" address []
         = (Returned None, [listing])
      /\ List.filter (Cloudflare.is_update_of "r2")
           (snd (Cf.checkAndUpdate Sample.service Sample.cfdns domain "A" address []))
         = []).
Proof.
  split.
  - intros cfdns domain address record post h Hm.
    cbn [Cf.updateRecords]. unfold bind.
    now rewrite (updateRecord_match _ _ _ _ _ Hm).
  - cbv zeta. repeat split; vm_compute; reflexivity.
Qed.

Lemma tasks_of_type_ipv4 (use4 use6 : bool) (ipv4 ipv6 : string)
    (domains : list Config.Domain) :
  tasks_of_type RECORD_TYPE_IPV4 (flat_map (submit_for use4 use6 ipv4 ipv6) domains)
  = if use4 && negb (String.eqb ipv4 "")
    then map (fun d => {| task_domain := d; task_type := RECORD_TYPE_IPV4;
                          task_address := ipv4 |}) domains
    else [].
Proof.
  unfold tasks_of_type, submit_for.
  induction domains as [|d ds IH]; simpl.
  - now destruct (use4 && negb (String.eqb ipv4 "")).
  - rewrite List.filter_app, IH.
    destruct (use4 && negb (String.eqb ipv4 "")),
             (use6 && negb (String.eqb ipv6 "")); reflexivity.
Qed.

Lemma tasks_of_type_ipv6 (use4 use6 : bool) (ipv4 ipv6 : string)
    (domains : list Config.Domain) :
  tasks_of_type RECORD_TYPE_IPV6 (flat_map (submit_for use4 use6 ipv4 ipv6) domains)
  = if use6 && negb (String.eqb ipv6 "")
    then map (fun d => {| task_domain := d; task_type := RECORD_TYPE_IPV6;
                          task_address := ipv6 |}) domains
    else [].
Proof.
  unfold tasks_of_type, submit_for.
  induction domains as [|d ds IH]; simpl.
  - now destruct (use6 && negb (String.eqb ipv6 "")).
  - rewrite List.filter_app, IH.
    destruct (use4 && negb (String.eqb ipv4 "")),
             (use6 && negb (String.eqb ipv6 "")); reflexivity.
Qed.

Lemma eqb_empty_false (v : string) : v <> "" -> String.eqb v "" = false.
Proof. intros H. now apply String.eqb_neq. Qed.

(** [Process], run with a pool: the calls of the zone check are its only
    calls on the provider, and the tasks are those of the submission guard
    when the zone is valid. *)
Lemma Process_run (cfdns : CFDNS) (a : Cloudflare.API) (p : nat)
    (use4 use6 : bool) (fate : Fate) (await4 await6 : Result string)
    (h : list Cloudflare.Call) :
  api cfdns = Some a ->
  pool cfdns = Some p ->
  Config.IPv4 (cfg cfdns) = Some use4 ->
  Config.IPv6 (cfg cfdns) = Some use6 ->
  let ipv4 := if use4 then match await4 with Err _ => "" | Ok v => v end else "" in
  let ipv6 := if use6 then match await6 with Err _ => "" | Ok v => v end else "" in
  getPublicIPs cfdns await4 await6 = Returned (ipv4, ipv6)
  /\ Process cfdns fate await4 await6 h
     = (Returned
          match fst (ZoneIsValid cfdns fate h) with
          | Returned (true, None) =>
              flat_map (submit_for use4 use6 ipv4 ipv6) (Config.Domains (cfg cfdns))
          | _ => []
          end,
        h ++ zone_calls fate).
Proof.
  intros Ha Hp H4 H6 ipv4 ipv6.
  assert (Hips : getPublicIPs cfdns await4 await6 = Returned (ipv4, ipv6)).
  { unfold getPublicIPs. now rewrite H4, H6. }
  split; [exact Hips|].
  unfold Cf.Process, Cf.ZoneIsValid. rewrite Hp, Ha, Hips, H4, H6.
  destruct fate as [|err|err]; unfold bind, call, ret; cbn [fst zone_calls].
  - destruct (Cloudflare.ListZones svc a h) as [zones|err]; [|reflexivity].
    now destruct (existsb _ zones).
  - now rewrite app_nil_r.
  - reflexivity.
Qed.

(** [Process] without a pool: [goropo.Submit] panics in the zone check. *)
Lemma Process_nil_pool (cfdns : CFDNS) (fate : Fate)
    (await4 await6 : Result string) (h : list Cloudflare.Call) :
  pool cfdns = None ->
  Process cfdns fate await4 await6 h = (Panicked, h).
Proof.
  intros Hp. unfold Cf.Process, Cf.ZoneIsValid. rewrite Hp. reflexivity.
Qed.

(** C6. With a client and both family flags set, [Process] on a struct
    that has a pool returns after the zone check and the submissions,
    whatever became of the task of the zone check; without a pool it
    panics in the zone check.  A family that is disabled or whose
    resolution failed has the empty address and gets no task.  When the
    zone is valid, the tasks of a family are one per configured domain, in
    order, if the family is enabled and its address is not empty, and none
    otherwise, whatever became of the other family. *)
Theorem Process_family_guard (cfdns : CFDNS) (a : Cloudflare.API)
    (use4 use6 : bool) (fate : Fate) (await4 await6 : Result string)
    (h : list Cloudflare.Call) :
  api cfdns = Some a ->
  Config.IPv4 (cfg cfdns) = Some use4 ->
  Config.IPv6 (cfg cfdns) = Some use6 ->
  match pool cfdns with
  | None => Process cfdns fate await4 await6 h = (Panicked, h)
  | Some _ =>
  exists tasks ipv4 ipv6,
    Process cfdns fate await4 await6 h = (Returned tasks, h ++ zone_calls fate)
    /\ getPublicIPs cfdns await4 await6 = Returned (ipv4, ipv6)
    /\ (use4 = false \/ is_err await4 = true ->
        ipv4 = "" /\ tasks_of_type RECORD_TYPE_IPV4 tasks = [])
    /\ (use6 = false \/ is_err await6 = true ->
        ipv6 = "" /\ tasks_of_type RECORD_TYPE_IPV6 tasks = [])
    /\ (fst (ZoneIsValid cfdns fate h) = Returned (true, None) ->
        tasks_of_type RECORD_TYPE_IPV4 tasks
          = (if use4 && negb (String.eqb ipv4 "")
             then map (fun d => {| task_domain := d; task_type := RECORD_TYPE_IPV4;
                                   task_address := ipv4 |})
                      (Config.Domains (cfg cfdns))
             else [])
        /\ tasks_of_type RECORD_TYPE_IPV6 tasks
          = (if use6 && negb (String.eqb ipv6 "")
             then map (fun d => {| task_domain := d; task_type := RECORD_TYPE_IPV6;
                                   task_address := ipv6 |})
                      (Config.Domains (cfg cfdns))
             else [])
        /\ (forall v, use4 = true -> await4 = Ok v -> v <> "" ->
           tasks_of_type RECORD_TYPE_IPV4 tasks
           = map (fun d => {| task_domain := d; task_type := RECORD_TYPE_IPV4;
                              task_address := v |})
                 (Config.Domains (cfg cfdns)))
        /\ (forall v, use6 = true -> await6 = Ok v -> v <> "" ->
           tasks_of_type RECORD_TYPE_IPV6 tasks
           = map (fun d => {| task_domain := d; task_type := RECORD_TYPE_IPV6;
                              task_address := v |})
                 (Config.Domains (cfg cfdns))))
  end.
Proof.
  intros Ha H4 H6.
  destruct (pool cfdns) as [p|] eqn:Hp;
    [|now apply Process_nil_pool].
  destruct (Process_run cfdns a p use4 use6 fate await4 await6 h Ha Hp H4 H6)
    as [Hips HP].
  cbv zeta in Hips, HP.
  set (ipv4 := if use4 then match await4 with Err _ => "" | Ok v => v end else "") in *.
  set (ipv6 := if use6 then match await6 with Err _ => "" | Ok v => v end else "") in *.
  assert (E4 : use4 = false \/ is_err await4 = true -> ipv4 = "").
  { intros [->|E]; [reflexivity|]. unfold ipv4.
    destruct await4; [discriminate|]. now destruct use4. }
  assert (E6 : use6 = false \/ is_err await6 = true -> ipv6 = "").
  { intros [->|E]; [reflexivity|]. unfold ipv6.
    destruct await6; [discriminate|]. now destruct use6. }
  eexists _, ipv4, ipv6. split; [exact HP|]. split; [exact Hips|].
  destruct (fst (ZoneIsValid cfdns fate h)) as [[[|] [err|]]|];
    try (repeat split; auto; discriminate).
  rewrite tasks_of_type_ipv4, tasks_of_type_ipv6.
  split; [|split; [|intros _; split; [|split; [|split]]]]; try reflexivity.
  - intros H. rewrite (E4 H). split; [reflexivity|]. now rewrite andb_false_r.
  - intros H. rewrite (E6 H). split; [reflexivity|]. now rewrite andb_false_r.
  - intros v -> -> Hv. unfold ipv4. now rewrite (eqb_empty_false _ Hv).
  - intros v -> -> Hv. unfold ipv6. now rewrite (eqb_empty_false _ Hv).
Qed.

End EngineProperties.

Lemma checkAndUpdate_match_witness :
  let cfdns := Sample.cfdns in
  let api := {| Cloudflare.APIToken := "s3cr3t" |} in
  let zone := "023e105f4ecef8ad9ca31a8372d0c353" in
  let domain := Sample.domain "dup.example.com" None in
  let address := "198.51.100.7" in
  let r1 := Sample.record "r1" "203.0.113.9" None in
  let r2 := Sample.record "r2" "198.51.100.7" None in
  let listing :=
    Cloudflare.CallListDNSRecords zone
      {| Cloudflare.ListName := "dup.example.com"; Cloudflare.ListType := "A" |} in
  Cf.api cfdns = Some api
  /\ Cloudflare.ListDNSRecords Sample.service api [] zone
       {| Cloudflare.ListName := "dup.example.com"; Cloudflare.ListType := "A" |}
     = Ok ([r1] ++ r2 :: [])
  /\ Forall (fun r => Cf.record_matches r domain address = false) [r1]
  /\ Cf.answered_ok Sample.service api [listing]
       [Cf.update_call cfdns r1 domain address]
  /\ Cf.record_matches r2 domain address = true
  /\ Cf.checkAndUpdate Sample.service cfdns domain "A" address []
     = (Cf.Returned None, [listing; Cf.update_call cfdns r1 domain address])
  /\ Cf.checkAndUpdate Sample.service cfdns
       (Sample.domain "a.example.com" None) "A" "203.0.113.9" []
     = (Cf.Returned None,
        [ Cloudflare.CallListDNSRecords zone
            {| Cloudflare.ListName := "a.example.com";
               Cloudflare.ListType := "A" |} ]).
Proof.
  cbv zeta.
  assert (Hpre : Forall (fun r => Cf.record_matches r
                                    (Sample.domain "dup.example.com" None)
                                    "198.51.100.7" = false)
                        [Sample.record "r1" "203.0.113.9" None]).
  { constructor; [reflexivity|constructor]. }
  assert (Hok : Cf.answered_ok Sample.service {| Cloudflare.APIToken := "s3cr3t" |}
                  [Cloudflare.CallListDNSRecords "023e105f4ecef8ad9ca31a8372d0c353"
                     {| Cloudflare.ListName := "dup.example.com";
                        Cloudflare.ListType := "A" |}]
                  [Cf.update_call Sample.cfdns
                     (Sample.record "r1" "203.0.113.9" None)
                     (Sample.domain "dup.example.com" None) "198.51.100.7"]).
  { split; [reflexivity|exact I]. }
  split; [reflexivity|]. split; [reflexivity|].
  split; [exact Hpre|]. split; [exact Hok|]. split; [reflexivity|].
  split.
  - destruct (checkAndUpdate_match Sample.service Sample.cfdns
                {| Cloudflare.APIToken := "s3cr3t" |}
                (Sample.domain "dup.example.com" None) "A" "198.51.100.7"
                [Sample.record "r1" "203.0.113.9" None]
                (Sample.record "r2" "198.51.100.7" None) [] []
                eq_refl eq_refl Hpre Hok)
      as (_ & H & _).
    apply H. reflexivity.
  - destruct (checkAndUpdate_match Sample.service Sample.cfdns
                {| Cloudflare.APIToken := "s3cr3t" |}
                (Sample.domain "a.example.com" None) "A" "203.0.113.9"
                [] (Sample.record "r1" "203.0.113.9" (Some true)) [] []
                eq_refl eq_refl (List.Forall_nil _) I)
      as (_ & _ & _ & _ & H).
    apply H; reflexivity.
Defined.

(** C1 as stated fails: for [dup.example.com] the provider lists [r1] and
    [r2], both of another content than the address, and refuses updates.
    The update of [r1] fails, [checkAndUpdate] returns its error, and [r2]
    gets no update call although it does not match. *)
Lemma checkAndUpdate_failed_update_ends_loop :
  let domain := Sample.domain "dup.example.com" None in
  let address := "192.0.2.1" in
  let r1 := Sample.record "r1" "203.0.113.9" None in
  let r2 := Sample.record "r2" "198.51.100.7" None in
  let listing :=
    Cloudflare.CallListDNSRecords "023e105f4ecef8ad9ca31a8372d0c353"
      {| Cloudflare.ListName := "dup.example.com"; Cloudflare.ListType := "A" |} in
  let calls :=
    snd (Cf.checkAndUpdate Sample.failing_service Sample.cfdns domain "A"
           address []) in
  Cloudflare.ListDNSRecords Sample.failing_service
    {| Cloudflare.APIToken := "s3cr3t" |} [] "023e105f4ecef8ad9ca31a8372d0c353"
    {| Cloudflare.ListName := "dup.example.com"; Cloudflare.ListType := "A" |}
    = Ok [r1; r2]
  /\ Cf.record_matches r2 domain address = false
  /\ Cf.checkAndUpdate Sample.failing_service Sample.cfdns domain "A" address []
     = (Cf.Returned (Some (Errorf "HTTP status 403: forbidden")),
        [listing; Cf.update_call Sample.cfdns r1 domain address])
  /\ List.filter (Cloudflare.is_update_of "r2") calls = []
  /\ ~ (List.filter (Cloudflare.is_update_of "r2") calls = []
        <-> Cf.record_matches r2 domain address = true).
Proof.
  cbv zeta. split; [reflexivity|]. split; [reflexivity|].
  split; [vm_compute; reflexivity|]. split; [vm_compute; reflexivity|].
  intros [H _].
  assert (E : Cf.record_matches (Sample.record "r2" "198.51.100.7" None)
                (Sample.domain "dup.example.com" None) "192.0.2.1" = true).
  { apply H. vm_compute. reflexivity. }
  discriminate E.
Qed.

Lemma Process_family_guard_witness :
  exists tasks,
    Cf.Process Sample.service Sample.cfdns Cf.Runs (Ok "203.0.113.9")
      (Err (Errorf "could not retrieve public IP address")) []
    = (Cf.Returned tasks, [ Cloudflare.CallListZones ])
    /\ Cf.tasks_of_type Cf.RECORD_TYPE_IPV6 tasks = []
    /\ Cf.tasks_of_type Cf.RECORD_TYPE_IPV4 tasks
       = [ {| Cf.task_domain := Sample.domain "a.example.com" None;
              Cf.task_type := "A"; Cf.task_address := "203.0.113.9" |} ].
Proof.
  destruct (Process_family_guard Sample.service Sample.cfdns
              {| Cloudflare.APIToken := "s3cr3t" |} true true Cf.Runs
              (Ok "203.0.113.9")
              (Err (Errorf "could not retrieve public IP address")) []
              eq_refl eq_refl eq_refl)
    as (tasks & ipv4 & ipv6 & HP & _ & _ & H6 & Hv).
  exists tasks. split; [exact HP|]. split.
  - apply H6. right. reflexivity.
  - destruct (Hv eq_refl) as (_ & _ & Hv4 & _).
    apply (Hv4 "203.0.113.9"); [reflexivity|reflexivity|discriminate].
Defined.

(** ** pkg/cf: replacing the configuration *)
Section SetConfigProperties.
Import Cf.
Variable svc : Cloudflare.Service.
Variable pool_sizes : Z -> Z -> option (Z * Z).

Local Abbreviation SetConfig := (Cf.SetConfig svc pool_sizes).

(** C3, as the code has it.  [SetConfig] with the nil configuration returns
    no error and changes nothing at all.  With a configuration whose token
    yields no client it returns the error of the client constructor; the
    struct (configuration, client, HTTP client, timeout, pool handle), the
    pools and the log level are as before, and only the lock was taken and
    released. *)
Theorem SetConfig_failure_keeps_store (st : State) :
  SetConfig None st = (Returned None, st)
  /\ (forall c err,
      Cloudflare.NewWithAPIToken svc (Config.Token c) = Err err ->
      exists st',
        SetConfig (Some c) st = (Returned (Some err), st')
        /\ store st' = store st
        /\ pools st' = pools st
        /\ level st' = level st
        /\ log st' = log st ++ [(EvLock, store st); (EvUnlock, store st)]).
Proof.
  split; [reflexivity|].
  intros c err H. unfold Cf.SetConfig. rewrite H.
  eexists. split; [reflexivity|]. simpl.
  repeat split. now rewrite <- app_assoc.
Qed.

(** C4, as the code has it.  In a replacement that succeeds on a struct
    holding pool [p], the events are: lock; close of [p]; creation of the
    new pool; log level; unlock.  When [p] is closed the struct holds the
    new client and HTTP client, but still the old configuration, the old
    timeout and [p] itself as its pool; the new pool, of the sizes that
    [goropo.NewPool] gives it, the new timeout and the new configuration
    are stored after the close.  At the end [p] is closed and every field
    is new.  When [goropo.NewPool] panics instead, [p] has been closed all
    the same and is still the pool of the struct, next to the new client
    and timeout and the old configuration; the lock is released. *)
Theorem SetConfig_closes_before_swap (st : State) (c : Config.Config)
    (a : Cloudflare.API) (p : nat) :
  Cloudflare.NewWithAPIToken svc (Config.Token c) = Ok a ->
  pool (store st) = Some p ->
  let old := store st in
  let client := {| ClientTimeout := Config.Timeout c |} in
  let at_close := set_httpClient client (set_api (Some a) old) in
  let p' := length (pools st) in
  let lvl := if Config.Verbose c then DebugLevel else InfoLevel in
  let new := {| cfg := c; api := Some a; httpClient := client;
                timeout := Config.Timeout c; pool := Some p' |} in
  pool at_close = Some p
  /\ cfg at_close = cfg old
  /\ timeout at_close = timeout old
  /\ match pool_sizes (Config.WorkerCount c)
                      (wrap64 (Config.WorkerCount c * 5)) with
     | Some (w, q) =>
         exists st',
           SetConfig (Some c) st = (Returned None, st')
           /\ store st' = new
           /\ log st' = log st ++
                [ (EvLock, old);
                  (EvPoolClose p, at_close);
                  (EvNewPool p', set_timeout (Config.Timeout c) at_close);
                  (EvSetGlobalLevel lvl,
                   set_pool (Some p') (set_timeout (Config.Timeout c) at_close));
                  (EvUnlock, new) ]
           /\ pools st' = alter close_pool p (pools st)
                          ++ [ {| workers := w; queue := q;
                                  pool_state := PoolOpen |} ]
           /\ level st' = lvl
     | None =>
         exists st',
           SetConfig (Some c) st = (Panicked, st')
           /\ store st' = set_timeout (Config.Timeout c) at_close
           /\ log st' = log st ++
                [ (EvLock, old);
                  (EvPoolClose p, at_close);
                  (EvUnlock, set_timeout (Config.Timeout c) at_close) ]
           /\ pools st' = alter close_pool p (pools st)
           /\ level st' = level st
     end.
Proof.
  intros Hn Hp. cbv zeta.
  destruct st as [[g0 a0 h0 t0 p0] ps l lg]. simpl in Hp. subst p0.
  split; [reflexivity|]. split; [reflexivity|]. split; [reflexivity|].
  unfold Cf.SetConfig, Cf.NewPool. rewrite Hn.
  destruct (pool_sizes _ _) as [[w q]|].
  - eexists. split; [reflexivity|]. simpl.
    rewrite !length_alter. unfold set_cfg, set_pool, set_timeout. simpl.
    repeat split.
    rewrite <- !app_assoc. simpl. reflexivity.
  - eexists. split; [reflexivity|]. simpl.
    unfold set_timeout. simpl. repeat split.
    rewrite <- !app_assoc. simpl. reflexivity.
Qed.

End SetConfigProperties.

Lemma SetConfig_failure_keeps_store_witness :
  Cloudflare.NewWithAPIToken Sample.service ""
    = Err (Errorf "invalid credentials: API Token must not be empty")
  /\ exists st',
      Cf.SetConfig Sample.service Sample.pool_sizes
        (Some {| Config.ZoneID := "z"; Config.Token := "";
                 Config.Frequency := Hour; Config.Verbose := false;
                 Config.IPv4 := Some true; Config.IPv6 := Some true;
                 Config.Domains := []; Config.WorkerCount := 10%Z;
                 Config.Timeout := Second |}) Sample.state
        = (Cf.Returned
             (Some (Errorf "invalid credentials: API Token must not be empty")),
           st')
      /\ Cf.store st' = Cf.store Sample.state.
Proof.
  split; [reflexivity|].
  destruct (proj2 (SetConfig_failure_keeps_store Sample.service
                     Sample.pool_sizes Sample.state)
              {| Config.ZoneID := "z"; Config.Token := "";
                 Config.Frequency := Hour; Config.Verbose := false;
                 Config.IPv4 := Some true; Config.IPv6 := Some true;
                 Config.Domains := []; Config.WorkerCount := 10%Z;
                 Config.Timeout := Second |}
              (Errorf "invalid credentials: API Token must not be empty")
              eq_refl)
    as (st' & H1 & H2 & _).
  exists st'. split; [exact H1 | exact H2].
Defined.

(** C3 as stated fails: for the nil configuration no error is returned. *)
Lemma SetConfig_nil_returns_no_error :
  fst (Cf.SetConfig Sample.service Sample.pool_sizes None Sample.state)
    = Cf.Returned None
  /\ ~ exists err,
         fst (Cf.SetConfig Sample.service Sample.pool_sizes None Sample.state)
           = Cf.Returned (Some err).
Proof.
  split; [reflexivity|]. intros [err H]. discriminate H.
Qed.

Lemma SetConfig_closes_before_swap_witness :
  exists st',
    Cf.SetConfig Sample.service Sample.pool_sizes (Some Sample.replacement)
      Sample.state = (Cf.Returned None, st')
    /\ Cf.pool (Cf.store st') = Some 1%nat
    /\ Cf.cfg (Cf.store st') = Sample.replacement.
Proof.
  destruct (SetConfig_closes_before_swap Sample.service Sample.pool_sizes
              Sample.state Sample.replacement
              {| Cloudflare.APIToken := "n3wt0k3n" |} 0%nat eq_refl eq_refl)
    as (_ & _ & _ & st' & H1 & H2 & _).
  exists st'. split; [exact H1|]. rewrite H2. split; reflexivity.
Defined.

(** C4 as stated fails: replacing the configuration of the running
    instance closes pool 0 while the struct still holds it, together with
    the old configuration; the new pool is created after that. *)
Lemma SetConfig_closes_current_pool :
  let st' := snd (Cf.SetConfig Sample.service Sample.pool_sizes
                    (Some Sample.replacement) Sample.state) in
  exists snapshot after,
    Cf.log st' = (Cf.EvLock, Sample.cfdns) :: (Cf.EvPoolClose 0, snapshot) :: after
    /\ Cf.pool snapshot = Some 0%nat
    /\ Cf.cfg snapshot = Sample.loaded
    /\ In (Cf.EvNewPool 1) (map fst after)
    /\ Cf.pool (Cf.store st') = Some 1%nat.
Proof.
  cbv zeta. vm_compute. do 2 eexists. split; [reflexivity|].
  repeat split. simpl. auto.
Qed.

(** ** The resolver and the engine together *)
Section Cycle.
Import Cf.
Variable Do : string -> Result Ipget.Response.
Variable ParseIP : string -> Ipget.IP.
Variable IPString : Ipget.IP -> string.
Variable Shuffle : list string -> list string.
Variable TrimFunc_IsSpace : string -> string.
Variable TrimRightFunc_IsSpace : string -> string.
Variable svc : Cloudflare.Service.

Local Abbreviation GetPublicIPv4 :=
  (Ipget.GetPublicIPv4 Do ParseIP IPString Shuffle TrimFunc_IsSpace TrimRightFunc_IsSpace).
Local Abbreviation skipped :=
  (Ipget.skipped Do ParseIP TrimFunc_IsSpace TrimRightFunc_IsSpace).

(** X21. When every IPv4 provider is passed over, [GetPublicIPv4] fails,
    and the cycle submits no task for [A] records, whatever the IPv6
    resolution yields and whatever became of the task of the zone check;
    on a struct without a pool the cycle panics in the zone check. *)
Lemma Process_no_address_no_task (cfdns : CFDNS) (a : Cloudflare.API)
    (use4 use6 : bool) (fate : Fate) (await6 : Result string)
    (h : list Cloudflare.Call) :
  Forall skipped (Shuffle Ipget.ipv4Services) ->
  api cfdns = Some a ->
  Config.IPv4 (cfg cfdns) = Some use4 ->
  Config.IPv6 (cfg cfdns) = Some use6 ->
  GetPublicIPv4 = Err (Errorf "could not retrieve public IP address")
  /\ match pool cfdns with
     | None => fst (Cf.Process svc cfdns fate GetPublicIPv4 await6 h) = Panicked
     | Some _ =>
         exists tasks,
           fst (Cf.Process svc cfdns fate GetPublicIPv4 await6 h) = Returned tasks
           /\ tasks_of_type RECORD_TYPE_IPV4 tasks = []
     end.
Proof.
  intros Hall Ha H4 H6.
  assert (E : GetPublicIPv4 = Err (Errorf "could not retrieve public IP address")).
  { unfold Ipget.GetPublicIPv4, Ipget.getPublicIP.
    rewrite <- (app_nil_r (Shuffle Ipget.ipv4Services)).
    now rewrite (tryServices_skip _ _ _ _ _ _ _ Hall). }
  split; [exact E|].
  destruct (pool cfdns) as [p|] eqn:Hp;
    [|now rewrite (Process_nil_pool svc cfdns fate _ _ h Hp)].
  destruct (Process_run svc cfdns a p use4 use6 fate GetPublicIPv4 await6 h
              Ha Hp H4 H6) as [_ HP].
  cbv zeta in HP. rewrite HP. eexists. split; [reflexivity|].
  rewrite E.
  destruct (fst (Cf.ZoneIsValid svc cfdns fate h)) as [[[|] [err|]]|];
    try reflexivity.
  rewrite tasks_of_type_ipv4. destruct use4; reflexivity.
Qed.

End Cycle.

Lemma watcher_change_predicate_witness :
  Watcher.watchFile None
    [ None; Some (Sample.sig 100 10 7); Some (Sample.sig 100 10 7);
      Some (Sample.sig 200 10 7); Some (Sample.sig 150 10 7);
      Some (Sample.sig 150 10 8) ]
  = ({| Watcher.fileSig := Some (Sample.sig 150 10 8); Watcher.ch := true |},
     [ false; false; false; true; false; true ])
  /\ Watcher.watchFile (Some (Sample.sig 100 10 7))
       [ None; Some (Sample.sig 200 10 7); Some (Sample.sig 200 10 7) ]
     = ({| Watcher.fileSig := Some (Sample.sig 200 10 7); Watcher.ch := true |},
        [ false; true; false ])
  /\ Watcher.watchFile (Some (Sample.sig 100 10 7))
       [ None; Some (Sample.sig 100 10 7) ]
     = ({| Watcher.fileSig := Some (Sample.sig 100 10 7); Watcher.ch := false |},
        [ false; false ]).
Proof.
  destruct watcher_change_predicate as (_ & _ & _ & _ & H & _ & H').
  split; [|split].
  - exact (H 1%nat (Sample.sig 100 10 7)
             [ Some (Sample.sig 100 10 7); Some (Sample.sig 200 10 7);
               Some (Sample.sig 150 10 7); Some (Sample.sig 150 10 8) ]).
  - exact (H' 1%nat (Sample.sig 100 10 7) (Sample.sig 200 10 7)
              [ Some (Sample.sig 200 10 7) ]).
  - exact (H' 1%nat (Sample.sig 100 10 7) (Sample.sig 100 10 7) []).
Defined.

(** ** Runs on the sample collaborators *)

Example TrimSpace_blanks_and_newline :
  Go.TrimSpace Sample.TrimFunc_IsSpace Sample.TrimRightFunc_IsSpace
    ("  203.0.113.9 " +:+ Sample.newline) = "203.0.113.9".
Proof. reflexivity. Qed.

Example expandEnv_sample :
  Config.expandEnv Sample.environ Sample.file_text = Ok Sample.expanded_text.
Proof. vm_compute. reflexivity. Qed.

(** A set but empty variable is no missing variable. *)
Example expandEnv_empty_value :
  Config.expandEnv (<[ "EMPTY" := "" ]> ∅) "a${EMPTY}b" = Ok "ab".
Proof. vm_compute. reflexivity. Qed.

(** Text that only looks like a reference is kept. *)
Example expandEnv_not_a_reference :
  Config.expandEnv ∅ "${1x} ${} $X ${A" = Ok "${1x} ${} $X ${A".
Proof. vm_compute. reflexivity. Qed.

Example ParseIP_leading_zero : Sample.ParseIP "10.0.0.01" = [].
Proof. reflexivity. Qed.

Example ParseIP_three_fields : Sample.ParseIP "203.0.1" = [].
Proof. reflexivity. Qed.

(** The first provider is out of service, the second answers with a page,
    the third with an address. *)
Example getPublicIP_third_provider :
  Sample.getPublicIP Ipget.ipv4Services = (Ipget.ipv4Services, Ok "203.0.113.9").
Proof. vm_compute. reflexivity. Qed.

(** No record yet: one create call with the address and the domain's
    proxied setting. *)
Example checkAndUpdate_creates :
  Cf.checkAndUpdate Sample.service Sample.cfdns
    (Sample.domain "b.example.com" (Some true)) "A" "203.0.113.9" []
  = (Cf.Returned None,
     [ Cloudflare.CallListDNSRecords "023e105f4ecef8ad9ca31a8372d0c353"
         {| Cloudflare.ListName := "b.example.com"; Cloudflare.ListType := "A" |};
       Cloudflare.CallCreateDNSRecord "023e105f4ecef8ad9ca31a8372d0c353"
         {| Cloudflare.CreateName := "b.example.com";
            Cloudflare.CreateContent := "203.0.113.9";
            Cloudflare.CreateType := "A";
            Cloudflare.CreateProxied := Some true |} ]).
Proof. vm_compute. reflexivity. Qed.

(** Content equal but proxied set on both sides and different: an update. *)
Example checkAndUpdate_proxied_differs :
  Cf.checkAndUpdate Sample.service Sample.cfdns
    (Sample.domain "a.example.com" (Some false)) "A" "203.0.113.9" []
  = (Cf.Returned None,
     [ Cloudflare.CallListDNSRecords "023e105f4ecef8ad9ca31a8372d0c353"
         {| Cloudflare.ListName := "a.example.com"; Cloudflare.ListType := "A" |};
       Cloudflare.CallUpdateDNSRecord "023e105f4ecef8ad9ca31a8372d0c353"
         {| Cloudflare.UpdateID := "r1";
            Cloudflare.UpdateContent := "203.0.113.9";
            Cloudflare.UpdateProxied := Some false |} ]).
Proof. vm_compute. reflexivity. Qed.

(** The first of two records differs and is updated, the second matches. *)
Example checkAndUpdate_updates_before_match :
  List.filter Cloudflare.is_update
    (snd (Cf.checkAndUpdate Sample.service Sample.cfdns
            (Sample.domain "dup.example.com" None) "A" "198.51.100.7" []))
  = [ Cloudflare.CallUpdateDNSRecord "023e105f4ecef8ad9ca31a8372d0c353"
        {| Cloudflare.UpdateID := "r1";
           Cloudflare.UpdateContent := "198.51.100.7";
           Cloudflare.UpdateProxied := None |} ].
Proof. vm_compute. reflexivity. Qed.

(** A cancelled context: the zone listing never starts, and the cycle ends
    without a call on the provider and without a task. *)
Example Process_cancelled :
  Cf.Process Sample.service Sample.cfdns (Cf.Refused (Sentinel Canceled))
    (Err (Sentinel Canceled)) (Err (Sentinel Canceled)) []
  = (Cf.Returned [], []).
Proof. vm_compute. reflexivity. Qed.

(** The zero struct has no pool: the zone check panics. *)
Example ZoneIsValid_zero_struct :
  Cf.ZoneIsValid Sample.service Cf.zero_CFDNS Cf.Runs [] = (Cf.Panicked, []).
Proof. reflexivity. Qed.

(** The zero configuration asks for no worker; the sample constructor
    builds a pool of one worker without a queue. *)
Example NewCFDNS_zero_workers :
  Cf.pools (snd (Cf.NewCFDNS Sample.service Sample.pool_sizes
                   {| Config.ZoneID := "z"; Config.Token := "t";
                      Config.Frequency := Hour; Config.Verbose := false;
                      Config.IPv4 := Some true; Config.IPv6 := Some true;
                      Config.Domains := []; Config.WorkerCount := 0%Z;
                      Config.Timeout := Second |} Sample.state))
  = [ {| Cf.workers := 10; Cf.queue := 50; Cf.pool_state := Cf.PoolOpen |};
      {| Cf.workers := 1; Cf.queue := 0; Cf.pool_state := Cf.PoolOpen |} ].
Proof. vm_compute. reflexivity. Qed.

(** A worker count beyond what the sample constructor can allocate: the
    replacement panics after it has closed the pool in use, and the struct
    still holds that pool. *)
Example SetConfig_panics :
  let huge := {| Config.ZoneID := "z"; Config.Token := "t";
                 Config.Frequency := Hour; Config.Verbose := false;
                 Config.IPv4 := Some true; Config.IPv6 := Some true;
                 Config.Domains := []; Config.WorkerCount := (2 ^ 40)%Z;
                 Config.Timeout := Second |} in
  let out := Cf.SetConfig Sample.service Sample.pool_sizes (Some huge)
               Sample.state in
  fst out = Cf.Panicked
  /\ Cf.pool (Cf.store (snd out)) = Some 0%nat
  /\ Cf.pools (snd out)
     = [ {| Cf.workers := 10; Cf.queue := 50; Cf.pool_state := Cf.PoolClosed |} ]
  /\ map fst (Cf.log (snd out)) = [ Cf.EvLock; Cf.EvPoolClose 0; Cf.EvUnlock ].
Proof. cbv zeta. repeat split; vm_compute; reflexivity. Qed.

(** * Further properties of the code *)

(** ** pkg/config: the callback sees the references *)
Section Referenced.
Import Config.

Lemma note_names_acc (n : nat) :
  forall (s : string) (acc : list string),
    (String.length s <= n)%nat ->
    snd (ReplaceAllStringFunc note_name 0 s acc) = acc ++ referenced s.
Proof.
  unfold referenced.
  induction n as [|n IH]; intros s acc Hlen.
  - destruct s; [|simpl in Hlen; lia]. simpl. now rewrite app_nil_r.
  - destruct (match_reEnv s) as [[v rest]|] eqn:Hm.
    + destruct (match_reEnv_sound _ _ _ Hm) as [Hv Hs].
      assert (Hrest : (String.length rest <= n)%nat).
      { subst s. rewrite length_app_str in Hlen. unfold reference in Hlen.
        simpl in Hlen. lia. }
      rewrite !(replace_match _ _ _ _ _ Hm). unfold note_name at 1 3.
      rewrite (FindStringSubmatch_1_reference _ Hv).
      pose proof (IH rest (acc ++ [v]) Hrest) as H1.
      pose proof (IH rest ([] ++ [v]) Hrest) as H2.
      destruct (ReplaceAllStringFunc note_name 0 rest (acc ++ [v])) as [t1 m1].
      destruct (ReplaceAllStringFunc note_name 0 rest ([] ++ [v])) as [t2 m2].
      simpl in *. rewrite H1, H2, <- app_assoc. reflexivity.
    + destruct s as [|c s]; [simpl; now rewrite app_nil_r|].
      rewrite !(replace_byte _ _ _ _ Hm).
      assert (Hrest : (String.length s <= n)%nat) by (simpl in Hlen; lia).
      pose proof (IH s acc Hrest) as H1.
      destruct (ReplaceAllStringFunc note_name 0 s acc) as [t1 m1].
      destruct (ReplaceAllStringFunc note_name 0 s []) as [t2 m2].
      simpl in *. exact H1.
Qed.

Lemma referenced_match (s v rest : string) :
  match_reEnv s = Some (v, rest) -> referenced s = v :: referenced rest.
Proof.
  intros Hm. destruct (match_reEnv_sound _ _ _ Hm) as [Hv Hs].
  unfold referenced at 1. rewrite (replace_match _ _ _ _ _ Hm).
  unfold note_name at 1. rewrite (FindStringSubmatch_1_reference _ Hv).
  pose proof (note_names_acc _ rest ([] ++ [v]) (Nat.le_refl _)) as H.
  destruct (ReplaceAllStringFunc note_name 0 rest ([] ++ [v])) as [t m].
  simpl in *. exact H.
Qed.

Lemma referenced_byte (c : ascii) (s : string) :
  match_reEnv (String c s) = None -> referenced (String c s) = referenced s.
Proof.
  intros Hm. unfold referenced. rewrite (replace_byte _ _ _ _ Hm).
  now destruct (ReplaceAllStringFunc note_name 0 s []).
Qed.

(** The names the callback is called with are the names the text
    references: no reference is hidden by an earlier match. *)
Lemma referenced_spec (n : nat) :
  forall (s x : string),
    (String.length s <= n)%nat -> In x (referenced s) <-> references s x.
Proof.
  induction n as [|n IH]; intros s x Hlen.
  - destruct s; [|simpl in Hlen; lia]. split; [intros []|].
    intros H. now apply references_empty in H.
  - destruct (match_reEnv s) as [[v rest]|] eqn:Hm.
    + destruct (match_reEnv_sound _ _ _ Hm) as [Hv Hs].
      rewrite (referenced_match _ _ _ Hm). subst s.
      rewrite (references_after_match _ _ _ Hv). simpl.
      rewrite IH; [intuition congruence|].
      rewrite length_app_str in Hlen. unfold reference in Hlen.
      simpl in Hlen. lia.
    + destruct s as [|c s].
      * split; [intros []|]. intros H. now apply references_empty in H.
      * rewrite (referenced_byte _ _ Hm), (references_after_byte _ _ _ Hm).
        apply IH. simpl in Hlen. lia.
Qed.

(** Two callbacks that agree on the references of a text give the same
    result on it. *)
Lemma replace_ext {St} (f g : string -> St -> string * St) (n : nat) :
  forall (s : string) (st : St),
    (String.length s <= n)%nat ->
    Forall (fun x => valid_name x = true ->
                     forall st', f (reference x) st' = g (reference x) st')
           (referenced s) ->
    ReplaceAllStringFunc f 0 s st = ReplaceAllStringFunc g 0 s st.
Proof.
  induction n as [|n IH]; intros s st Hlen Hfg.
  - destruct s; [reflexivity|simpl in Hlen; lia].
  - destruct (match_reEnv s) as [[v rest]|] eqn:Hm.
    + destruct (match_reEnv_sound _ _ _ Hm) as [Hv Hs].
      rewrite (referenced_match _ _ _ Hm) in Hfg.
      inversion Hfg as [|? ? Hv' Hrest']; subst.
      rewrite !(replace_match _ _ _ _ _ Hm), (Hv' Hv).
      destruct (g (reference v) st) as [out st1].
      rewrite (IH rest st1); [reflexivity| |exact Hrest'].
      rewrite length_app_str in Hlen. unfold reference in Hlen.
      simpl in Hlen. lia.
    + destruct s as [|c s]; [reflexivity|].
      rewrite (referenced_byte _ _ Hm) in Hfg.
      rewrite !(replace_byte _ _ _ _ Hm), (IH s st); [reflexivity| |exact Hfg].
      simpl in Hlen. lia.
Qed.

(** A text without a reference is left as it is, and the callback is not
    called. *)
Lemma replace_no_reference {St} (f : string -> St -> string * St) (n : nat) :
  forall (s : string) (st : St),
    (String.length s <= n)%nat ->
    referenced s = [] ->
    ReplaceAllStringFunc f 0 s st = (s, st).
Proof.
  induction n as [|n IH]; intros s st Hlen Hno.
  - destruct s; [reflexivity|simpl in Hlen; lia].
  - destruct (match_reEnv s) as [[v rest]|] eqn:Hm.
    + rewrite (referenced_match _ _ _ Hm) in Hno. discriminate.
    + destruct s as [|c s]; [reflexivity|].
      rewrite (referenced_byte _ _ Hm) in Hno.
      rewrite (replace_byte _ _ _ _ Hm), (IH s st); [reflexivity| |exact Hno].
      simpl in Hlen. lia.
Qed.

End Referenced.

(** ** pkg/config: [expandEnv] and [LoadConfig], further *)
Section ExpandEnvFurther.
Import Config.
Variable ReadFile : string -> Result string.
Variable Decode : string -> Result Config.
Variable TrimFunc_IsSpace : string -> string.
Variable TrimRightFunc_IsSpace : string -> string.

Local Abbreviation TrimSpace := (Go.TrimSpace TrimFunc_IsSpace TrimRightFunc_IsSpace).
Local Abbreviation normalize := (Config.normalize TrimFunc_IsSpace TrimRightFunc_IsSpace).

(** X1. A text in which the pattern finds no reference is returned by
    [expandEnv] as it is, whatever the environment holds: dollar signs and
    braces that do not form a reference are ordinary text. *)
Theorem expandEnv_no_reference (env : gmap string string) (data : string) :
  referenced data = [] -> expandEnv env data = Ok data.
Proof.
  intros Hno. unfold expandEnv.
  rewrite (replace_no_reference _ _ _ _ (Nat.le_refl _) Hno).
  destruct (decide (0 < size (∅ : gset string))) as [H|_]; [|reflexivity].
  rewrite size_empty in H. lia.
Qed.

(** X2. [expandEnv], and with it [LoadConfig], looks at no variable but
    those the text references: two environments that agree on them give
    the same result, be it a text or the error with the missing names. *)
Theorem LoadConfig_env_agree (env1 env2 : gmap string string)
    (filename raw : string) :
  ReadFile filename = Ok raw ->
  Forall (fun x => env1 !! x = env2 !! x) (referenced raw) ->
  expandEnv env1 raw = expandEnv env2 raw
  /\ LoadConfig ReadFile env1 Decode TrimFunc_IsSpace TrimRightFunc_IsSpace filename
     = LoadConfig ReadFile env2 Decode TrimFunc_IsSpace TrimRightFunc_IsSpace filename.
Proof.
  intros Hr Hagree.
  assert (E : expandEnv env1 raw = expandEnv env2 raw).
  { unfold expandEnv.
    rewrite (replace_ext (expand_one env1) (expand_one env2) _ raw ∅
               (Nat.le_refl _)); [reflexivity|].
    eapply Forall_impl; [exact Hagree|]. simpl.
    intros x Hx Hvalid st'. unfold expand_one.
    now rewrite (FindStringSubmatch_1_reference _ Hvalid), Hx. }
  split; [exact E|]. unfold LoadConfig. now rewrite Hr, E.
Qed.

(** X3. A set variable at the head of a text is replaced by its value and
    the rest is expanded on its own: the value is not read again, and no
    reference forms across the seam between the value and the rest. *)
Theorem expandEnv_leading_reference (env : gmap string string)
    (n v rest : string) :
  valid_name n = true ->
  env !! n = Some v ->
  expandEnv env (reference n +:+ rest)
  = match expandEnv env rest with
    | Ok out => Ok (v +:+ out)
    | Err e => Err e
    end.
Proof.
  intros Hn Hv. unfold expandEnv.
  rewrite (replace_match _ _ _ _ _ (match_reEnv_complete n rest Hn)).
  unfold expand_one at 1. rewrite (FindStringSubmatch_1_reference _ Hn), Hv.
  destruct (ReplaceAllStringFunc (expand_one env) 0 rest ∅) as [tl M].
  now destruct (decide (0 < size M)).
Qed.

(** X4. [LoadConfig] rejects a decoded document for four reasons only: the
    trimmed zone id is empty, the trimmed token is empty, there is no
    domain, or no address family is left enabled (a flag that is not given
    counts as false when the other one is given).  Numbers out of range
    are never a reason. *)
Theorem normalize_rejects_iff (c : Config) :
  (exists e, normalize c = Err e) <->
  TrimSpace (ZoneID c) = ""
  \/ TrimSpace (Token c) = ""
  \/ Domains c = []
  \/ (flag_value (IPv4 c) (IPv6 c) = false /\ flag_value (IPv6 c) (IPv4 c) = false).
Proof.
  unfold Config.normalize.
  destruct (decide (TrimSpace (ZoneID c) = "")) as [Hz|Hz];
    [split; [auto|eauto]|].
  destruct (decide (TrimSpace (Token c) = "")) as [Ht|Ht];
    [split; [auto|eauto]|].
  destruct (Domains c) as [|d ds] eqn:Hd; simpl;
    [split; [auto|eauto]|].
  destruct (IPv4 c) as [[|]|], (IPv6 c) as [[|]|]; simpl;
    (split;
     [ intros [e H]; try discriminate H; auto 6
     | intros [H|[H|[H|[H1 H2]]]]; try contradiction; try discriminate; eauto ]).
Qed.

(** X5. What [LoadConfig] makes of the numbers and flags of an accepted
    document: a frequency or timeout of zero becomes the default, any
    other is raised to the minimum when below it and kept otherwise; a
    worker count that is not positive becomes the default, any other is
    lowered to the maximum when above it and kept otherwise; the flags are
    made explicit; the verbosity and the domain list are kept. *)
Theorem normalize_values (c cfg : Config) :
  normalize c = Ok cfg ->
  Frequency cfg = (if (Frequency c =? 0)%Z then DEFAULT_FREQUENCY
                   else Z.max (Frequency c) MINIMUM_FREQUENCY)
  /\ Timeout cfg = (if (Timeout c =? 0)%Z then DEFAULT_TIMEOUT
                    else Z.max (Timeout c) MINIMUM_TIMEOUT)
  /\ WorkerCount cfg = (if (WorkerCount c <=? 0)%Z then DEFAULT_WORKER_COUNT
                        else Z.min (WorkerCount c) MAXIMUM_WORKER_COUNT)
  /\ IPv4 cfg = Some (flag_value (IPv4 c) (IPv6 c))
  /\ IPv6 cfg = Some (flag_value (IPv6 c) (IPv4 c))
  /\ Verbose cfg = Verbose c
  /\ Domains cfg = Domains c.
Proof.
  unfold Config.normalize.
  destruct (decide (TrimSpace (ZoneID c) = "")) as [|Hz]; [discriminate|].
  destruct (decide (TrimSpace (Token c) = "")) as [|Ht]; [discriminate|].
  destruct (length (Domains c) =? 0)%nat; [discriminate|].
  destruct (IPv4 c) as [[|]|], (IPv6 c) as [[|]|];
    simpl; try discriminate; intros [= <-]; simpl;
    unfold MINIMUM_FREQUENCY, DEFAULT_FREQUENCY, MINIMUM_TIMEOUT, DEFAULT_TIMEOUT,
      MINIMUM_WORKER_COUNT, MAXIMUM_WORKER_COUNT, DEFAULT_WORKER_COUNT,
      Hour, Minute, Second;
    destruct (Z.eqb_spec (Frequency c) 0); destruct (Z.eqb_spec (Timeout c) 0);
    destruct (Z.leb_spec (WorkerCount c) 0); cbv iota;
    repeat match goal with
           | |- context [(?a <? ?b)%Z] => destruct (Z.ltb_spec a b)
           | |- context [(?a >? ?b)%Z] => rewrite (Z.gtb_ltb a b)
           end; cbv iota;
    repeat split; lia.
Qed.

End ExpandEnvFurther.

Lemma LoadConfig_env_agree_witness :
  Config.expandEnv Sample.environ Sample.file_text
  = Config.expandEnv (<[ "HOME" := "/root" ]> Sample.environ) Sample.file_text.
Proof.
  apply (LoadConfig_env_agree Sample.ReadFile Sample.Decode
           Sample.TrimFunc_IsSpace Sample.TrimRightFunc_IsSpace
           Sample.environ (<[ "HOME" := "/root" ]> Sample.environ)
           "cfdns.yaml" Sample.file_text).
  - reflexivity.
  - vm_compute. repeat constructor.
Defined.

Lemma expandEnv_no_reference_witness :
  Config.expandEnv Sample.environ "cost: $5 ${} ${1x} ${HOME"
  = Ok "cost: $5 ${} ${1x} ${HOME".
Proof. apply expandEnv_no_reference. vm_compute. reflexivity. Defined.

(** The value of [A] ends with the start of a reference and the rest goes
    on with a name and a closing brace: the result holds the text of a
    reference to [B], which is not expanded. *)
Lemma expandEnv_leading_reference_witness :
  Config.expandEnv (<[ "A" := "${" ]> (<[ "B" := "x" ]> ∅)) "${A}B}" = Ok "${B}".
Proof.
  apply (expandEnv_leading_reference (<[ "A" := "${" ]> (<[ "B" := "x" ]> ∅))
           "A" "${" "B}"); reflexivity.
Defined.

Lemma normalize_values_witness :
  Config.Frequency Sample.loaded = Hour
  /\ Config.WorkerCount Sample.loaded = 10%Z
  /\ Config.IPv4 Sample.loaded = Some true.
Proof.
  destruct (normalize_values Sample.TrimFunc_IsSpace Sample.TrimRightFunc_IsSpace
              Sample.decoded Sample.loaded)
    as (H1 & _ & H3 & H4 & _); [vm_compute; reflexivity|].
  rewrite H1, H3, H4. repeat split.
Defined.

(** ** pkg/ipget, further *)
Section ResolverFurther.
Import Ipget.
Variable Do : string -> Result Response.
Variable ParseIP : string -> IP.
Variable IPString : IP -> string.
Variable Shuffle : list string -> list string.
Variable TrimFunc_IsSpace : string -> string.
Variable TrimRightFunc_IsSpace : string -> string.

Local Abbreviation strToIP := (Ipget.strToIP ParseIP).
Local Abbreviation getSmallText :=
  (Ipget.getSmallText Do TrimFunc_IsSpace TrimRightFunc_IsSpace).
Local Abbreviation tryServices :=
  (Ipget.tryServices Do ParseIP IPString TrimFunc_IsSpace TrimRightFunc_IsSpace).
Local Abbreviation getPublicIP :=
  (Ipget.getPublicIP Do ParseIP IPString Shuffle TrimFunc_IsSpace TrimRightFunc_IsSpace).
Local Abbreviation skipped :=
  (Ipget.skipped Do ParseIP TrimFunc_IsSpace TrimRightFunc_IsSpace).
Local Abbreviation answers :=
  (Ipget.answers Do ParseIP TrimFunc_IsSpace TrimRightFunc_IsSpace).
Local Abbreviation aborts :=
  (Ipget.aborts Do TrimFunc_IsSpace TrimRightFunc_IsSpace).

(** A provider is passed over, or ends the resolution with a context
    error, or answers with a literal. *)
Lemma provider_cases (service : string) :
  skipped service \/ (exists err, aborts service err) \/ (exists ip, answers service ip).
Proof.
  unfold Ipget.skipped, Ipget.aborts, Ipget.answers.
  destruct (getSmallText service) as [ipStr|err] eqn:E.
  - destruct (strToIP ipStr) as [|b ip] eqn:Hip.
    + left. right. eauto.
    + right. right. exists (b :: ip), ipStr. repeat split; auto.
  - destruct (errors_Is err DeadlineExceeded) eqn:Hd.
    + right. left. exists err. auto.
    + destruct (errors_Is err Canceled) eqn:Hc.
      * right. left. exists err. auto.
      * left. left. exists err. auto.
Qed.

(** X6. Addresses are brought to one form: when [net.ParseIP] yields its
    sixteen bytes, [strToIP] is never nil; an IPv4 address, which
    [net.ParseIP] yields behind the twelve-byte IPv4-in-IPv6 prefix, comes
    out as its four bytes, and any other address comes out as the sixteen
    bytes parsed. *)
Theorem strToIP_canonical (ipStr : string) :
  length (ParseIP ipStr) = 16%nat ->
  strToIP ipStr <> []
  /\ (length (strToIP ipStr) = 4%nat \/ strToIP ipStr = ParseIP ipStr)
  /\ (forall ip4, length ip4 = 4%nat ->
        ParseIP ipStr = v4InV6Prefix ++ ip4 -> strToIP ipStr = ip4)
  /\ (To4 (ParseIP ipStr) = [] -> strToIP ipStr = ParseIP ipStr).
Proof.
  intros Hlen. unfold Ipget.strToIP.
  destruct (ParseIP ipStr) as [|b0 ip] eqn:E; [discriminate|].
  cbn [is_nil].
  assert (H16 : To16 (b0 :: ip) = b0 :: ip).
  { unfold To16. now rewrite Hlen. }
  assert (H4 : To4 (b0 :: ip) = [] \/ length (To4 (b0 :: ip)) = 4%nat).
  { unfold To4. rewrite Hlen. cbn [Nat.eqb IPv4len IPv6len andb].
    destruct (isZeros _ && _ && _); [right|left; reflexivity].
    rewrite length_skipn, Hlen. reflexivity. }
  split; [|split; [|split]].
  - destruct H4 as [H4|H4].
    + rewrite H4. cbn. rewrite H16. discriminate.
    + destruct (To4 (b0 :: ip)); [discriminate|]. cbn. discriminate.
  - destruct H4 as [H4|H4].
    + rewrite H4. cbn. now right.
    + destruct (To4 (b0 :: ip)); [discriminate|]. cbn. now left.
  - intros ip4 Hl4 Hp. rewrite Hp.
    destruct ip4 as [|a1 [|a2 [|a3 [|a4 [|]]]]]; try discriminate.
    reflexivity.
  - intros Hn. rewrite Hn. cbn. exact H16.
Qed.

(** X7. A response whose status is not 200 is an error whatever its body
    holds, and never one that ends the resolution: the provider is passed
    over and the next one is asked. *)
Theorem getSmallText_bad_status (url : string) (resp : Response) :
  Do url = Ok resp ->
  StatusCode resp <> StatusOK ->
  getSmallText url
    = Err (Errorf ("unexpected status code: " +:+ Itoa (StatusCode resp)))
  /\ skipped url
  /\ forall rest,
       tryServices (url :: rest)
       = let '(tried, r) := tryServices rest in (url :: tried, r).
Proof.
  intros Hdo Hst.
  assert (E : getSmallText url
              = Err (Errorf ("unexpected status code: " +:+ Itoa (StatusCode resp)))).
  { unfold Ipget.getSmallText. rewrite Hdo.
    destruct (Z.eqb_spec (StatusCode resp) StatusOK); [contradiction|].
    reflexivity. }
  assert (Hs : skipped url).
  { left. eexists. split; [exact E|]. split; reflexivity. }
  split; [exact E|]. split; [exact Hs|].
  intros rest. now apply tryServices_step.
Qed.

(** X8. Every run of the loop of [getPublicIP]: the providers asked are
    the first ones of the list, in order, none twice; all but the last one
    asked were passed over; and either the whole list was passed over and
    the result is the error of exhaustion, or the last one asked decided:
    by a context error, which is the result, or by a literal, whose text
    is the result. *)
Theorem tryServices_classify (services : list string) :
  exists rest,
    services = fst (tryServices services) ++ rest
    /\ ((rest = [] /\ Forall skipped services
         /\ snd (tryServices services)
            = Err (Errorf "could not retrieve public IP address"))
        \/ exists pre s,
             fst (tryServices services) = pre ++ [s]
             /\ Forall skipped pre
             /\ ((exists err, aborts s err /\ snd (tryServices services) = Err err)
                 \/ (exists ip, answers s ip
                       /\ snd (tryServices services) = Ok (IPString ip)))).
Proof.
  induction services as [|s l IH].
  - exists []. split; [reflexivity|]. left. auto.
  - destruct (provider_cases s) as [Hs|[[err [He Hc]]|[ip Ha]]].
    + rewrite (tryServices_step _ _ _ _ _ _ _ Hs).
      destruct IH as (rest & Hl & IH).
      destruct (tryServices l) as [tried r]. cbn [fst snd] in *.
      exists rest. split; [now rewrite <- app_comm_cons, <- Hl|].
      destruct IH as [(-> & Hall & Hr)|(pre & s' & Ht & Hpre & Hlast)].
      * left. auto.
      * right. exists (s :: pre), s'. rewrite Ht. auto.
    + rewrite (tryServices_abort _ _ _ _ _ _ l _ He Hc). cbn [fst snd].
      exists l. split; [reflexivity|]. right. exists [], s.
      split; [reflexivity|]. split; [constructor|]. left. exists err.
      split; [split; assumption|reflexivity].
    + rewrite (tryServices_answer _ _ _ _ _ _ l _ Ha). cbn [fst snd].
      exists l. split; [reflexivity|]. right. exists [], s.
      split; [reflexivity|]. split; [constructor|]. right. eauto.
Qed.

Lemma tryServices_finds (l : list string) :
  Forall (fun s => skipped s \/ exists ip, answers s ip) l ->
  Exists (fun s => exists ip, answers s ip) l ->
  exists s ip, In s l /\ answers s ip /\ snd (tryServices l) = Ok (IPString ip).
Proof.
  induction l as [|s l IH]; intros Hall Hex; [inversion Hex|].
  inversion Hall as [|? ? Hs Hall']; subst.
  assert (Hhead : forall ip, answers s ip ->
            exists s' ip', In s' (s :: l) /\ answers s' ip'
              /\ snd (tryServices (s :: l)) = Ok (IPString ip')).
  { intros ip Ha. exists s, ip. split; [now left|]. split; [exact Ha|].
    now rewrite (tryServices_answer _ _ _ _ _ _ l _ Ha). }
  destruct Hs as [Hs|[ip Ha]]; [|now apply (Hhead ip)].
  inversion Hex as [? ? [ip Ha]|? ? Hex']; subst; [now apply (Hhead ip)|].
  destruct (IH Hall' Hex') as (s' & ip' & Hin & Ha' & Hr).
  exists s', ip'. split; [now right|]. split; [exact Ha'|].
  rewrite (tryServices_step _ _ _ _ _ _ _ Hs).
  destruct (tryServices l). exact Hr.
Qed.

(** X9. The order of the shuffle does not decide whether an address is
    found: when the shuffle permutes the providers, no provider fails with
    a context error and at least one answers with a literal, [getPublicIP]
    returns the address of a provider that answers. *)
Theorem getPublicIP_any_order (services : list string) :
  Permutation (Shuffle services) services ->
  Forall (fun s => skipped s \/ exists ip, answers s ip) services ->
  Exists (fun s => exists ip, answers s ip) services ->
  exists s ip,
    In s services /\ answers s ip
    /\ snd (getPublicIP services) = Ok (IPString ip).
Proof.
  intros Hperm Hall Hex. unfold Ipget.getPublicIP.
  destruct (tryServices_finds (Shuffle services)) as (s & ip & Hin & Ha & Hr).
  - eapply Permutation_Forall; [symmetry; exact Hperm|exact Hall].
  - eapply Permutation_Exists; [symmetry; exact Hperm|exact Hex].
  - exists s, ip. split; [|auto]. eapply Permutation_in; eauto.
Qed.

End ResolverFurther.

Lemma strToIP_canonical_witness :
  Sample.strToIP "203.0.113.9" = [ Byte.xcb; Byte.x00; Byte.x71; Byte.x09 ].
Proof.
  destruct (strToIP_canonical Sample.ParseIP "203.0.113.9" eq_refl)
    as (_ & _ & H & _).
  apply H; reflexivity.
Defined.

Lemma getSmallText_bad_status_witness :
  Sample.getSmallText "https://api.ipify.org"
  = Err (Errorf "unexpected status code: 503").
Proof.
  destruct (getSmallText_bad_status Sample.Do Sample.ParseIP Sample.IPString
              Sample.TrimFunc_IsSpace Sample.TrimRightFunc_IsSpace
              "https://api.ipify.org"
              {| Ipget.StatusCode := 503; Ipget.Body := "Service Unavailable";
                 Ipget.BodyErr := None |} eq_refl)
    as (H & _); [discriminate|exact H].
Defined.

Lemma getPublicIP_any_order_witness :
  exists s ip,
    In s Ipget.ipv4Services
    /\ Ipget.answers Sample.Do Sample.ParseIP Sample.TrimFunc_IsSpace
         Sample.TrimRightFunc_IsSpace s ip
    /\ snd (Ipget.getPublicIP Sample.Do Sample.ParseIP Sample.IPString (@rev string)
              Sample.TrimFunc_IsSpace Sample.TrimRightFunc_IsSpace
              Ipget.ipv4Services) = Ok (Sample.IPString ip).
Proof.
  apply (getPublicIP_any_order Sample.Do Sample.ParseIP Sample.IPString (@rev string)
           Sample.TrimFunc_IsSpace Sample.TrimRightFunc_IsSpace Ipget.ipv4Services).
  - symmetry. apply Permutation_rev.
  - constructor; [|constructor; [|constructor; [|constructor]]].
    + left. left. exists (Errorf "unexpected status code: 503").
      repeat split; reflexivity.
    + left. right. exists "<html>moved</html>". split; reflexivity.
    + right. exists [ Byte.xcb; Byte.x00; Byte.x71; Byte.x09 ], "203.0.113.9".
      repeat split; try reflexivity. discriminate.
  - apply Exists_cons_tl, Exists_cons_tl, Exists_cons_hd.
    exists [ Byte.xcb; Byte.x00; Byte.x71; Byte.x09 ], "203.0.113.9".
    repeat split; try reflexivity. discriminate.
Defined.

(** ** pkg/cf: reconciliation, further *)
Section EngineFurther.
Import Cf.
Variable svc : Cloudflare.Service.

Local Abbreviation updateRecords := (Cf.updateRecords svc).
Local Abbreviation checkAndUpdate := (Cf.checkAndUpdate svc).
Local Abbreviation ZoneIsValid := (Cf.ZoneIsValid svc).
Local Abbreviation Process := (Cf.Process svc).
Local Abbreviation answered_ok := (Cf.answered_ok svc).
Local Abbreviation ends_with_error := (Cf.ends_with_error svc).

(** X10. [ZoneIsValid] hands the zone listing to the pool and waits for
    it.  Without a pool it panics before any call.  With a pool it makes at
    most one call on the provider, the zone listing, and none when the pool
    or the context refuses the task.  It reports a valid zone exactly when
    the task ran to its end, the listing succeeded and one of the zones
    listed has the configured identifier.  It returns an error, with
    [false], exactly when the task was refused or the wait was given up,
    that error, or the task ran and the listing failed, the error of the
    listing. *)
Theorem ZoneIsValid_spec (cfdns : CFDNS) (a : Cloudflare.API) (fate : Fate)
    (h : list Cloudflare.Call) :
  api cfdns = Some a ->
  match pool cfdns with
  | None => ZoneIsValid cfdns fate h = (Panicked, h)
  | Some _ =>
      exists valid err,
        ZoneIsValid cfdns fate h
          = (Returned (valid, err),
             h ++ match fate with
                  | Refused _ => []
                  | Runs | Abandoned _ => [Cloudflare.CallListZones]
                  end)
        /\ (valid = true <->
            fate = Runs
            /\ exists zones, Cloudflare.ListZones svc a h = Ok zones
                 /\ exists z, In z zones
                      /\ Cloudflare.ZoneID z = Config.ZoneID (cfg cfdns))
        /\ (forall e, err = Some e <->
              fate = Refused e \/ fate = Abandoned e
              \/ (fate = Runs /\ Cloudflare.ListZones svc a h = Err e))
        /\ (valid = true -> err = None)
  end.
Proof.
  intros Ha. unfold Cf.ZoneIsValid. rewrite Ha.
  destruct (pool cfdns) as [p|]; [|reflexivity].
  destruct fate as [|e1|e1]; unfold bind, call, ret.
  - destruct (Cloudflare.ListZones svc a h) as [zones|e0].
    + eexists _, None. split; [reflexivity|]. split; [|split].
      * rewrite existsb_exists. split.
        -- intros (z & Hin & Hz). apply String.eqb_eq in Hz.
           split; [reflexivity|]. eauto.
        -- intros (_ & zones' & [= <-] & z & Hin & Hz). exists z.
           split; [exact Hin|]. now apply String.eqb_eq.
      * intros e. split; [discriminate|].
        intros [H|[H|[_ H]]]; discriminate H.
      * reflexivity.
    + exists false, (Some e0). split; [reflexivity|]. split; [|split].
      * split; [discriminate|]. intros (_ & zones & H & _). discriminate H.
      * intros e. split.
        -- intros [= ->]. right. right. split; reflexivity.
        -- intros [H|[H|[_ H]]]; try discriminate H. congruence.
      * discriminate.
  - exists false, (Some e1). split; [now rewrite app_nil_r|]. split; [|split].
    + split; [discriminate|]. intros (H & _). discriminate H.
    + intros e. split.
      * intros [= ->]. left. reflexivity.
      * intros [H|[H|[H _]]]; try discriminate H. congruence.
    + discriminate.
  - exists false, (Some e1). split; [reflexivity|]. split; [|split].
    + split; [discriminate|]. intros (H & _). discriminate H.
    + intros e. split.
      * intros [= ->]. right. left. reflexivity.
      * intros [H|[H|[H _]]]; try discriminate H. congruence.
    + discriminate.
Qed.

Lemma updateRecords_shape (cfdns : CFDNS) (a : Cloudflare.API)
    (domain : Config.Domain) (address : string)
    (records : list Cloudflare.DNSRecord) :
  api cfdns = Some a ->
  forall h, exists pre post out,
    records = pre ++ post
    /\ Forall (fun r => record_matches r domain address = false) pre
    /\ updateRecords cfdns domain address records h
       = (Returned out,
          h ++ map (fun r => update_call cfdns r domain address) pre).
Proof.
  intros Ha. induction records as [|r rs IH]; intros h.
  - exists [], [], None. simpl. rewrite app_nil_r. auto.
  - cbn [Cf.updateRecords]. unfold bind at 1.
    destruct (record_matches r domain address) eqn:Hm.
    + rewrite (updateRecord_match _ _ _ _ _ _ Hm).
      exists [], (r :: rs), None. simpl. rewrite app_nil_r. auto.
    + rewrite (updateRecord_differs _ _ _ _ _ _ _ Ha Hm).
      destruct (Cloudflare.UpdateDNSRecord _ _ _ _ _).
      * destruct (IH (h ++ [update_call cfdns r domain address]))
          as (pre & post & out & -> & Hpre & Hrun).
        exists (r :: pre), post, out. rewrite Hrun, <- app_assoc.
        repeat split. constructor; assumption.
      * exists [r], rs, (Some e). repeat split. constructor; auto.
Qed.

(** X11. The calls of [checkAndUpdate]: first the listing for the domain's
    hostname and the record type in the configured zone.  When the listing
    fails nothing follows and its error is returned.  When it is empty one
    create call follows, with the hostname, the type, the address and the
    domain's proxied setting.  Otherwise only update calls follow, one for
    each record of an initial stretch of the listing and in its order, none
    for a record that matches, each with the identifier of its record, the
    address and the domain's proxied setting: no record is created, and no
    identifier or type is written. *)
Theorem checkAndUpdate_calls (cfdns : CFDNS) (a : Cloudflare.API)
    (domain : Config.Domain) (recordType address : string)
    (h : list Cloudflare.Call) :
  api cfdns = Some a ->
  let zone := Config.ZoneID (cfg cfdns) in
  let p := {| Cloudflare.ListName := Config.Hostname domain;
              Cloudflare.ListType := recordType |} in
  exists out tail,
    checkAndUpdate cfdns domain recordType address h
      = (Returned out, h ++ Cloudflare.CallListDNSRecords zone p :: tail)
    /\ match Cloudflare.ListDNSRecords svc a h zone p with
       | Err e => tail = [] /\ out = Some e
       | Ok [] =>
           tail = [ Cloudflare.CallCreateDNSRecord zone
                      {| Cloudflare.CreateName := Config.Hostname domain;
                         Cloudflare.CreateContent := address;
                         Cloudflare.CreateType := recordType;
                         Cloudflare.CreateProxied := Config.Proxied domain |} ]
       | Ok records =>
           exists pre post,
             records = pre ++ post
             /\ Forall (fun r => record_matches r domain address = false) pre
             /\ tail = map (fun r => update_call cfdns r domain address) pre
       end.
Proof.
  intros Ha zone p. unfold Cf.checkAndUpdate, getRecords. rewrite Ha.
  unfold bind at 1. unfold call at 1. fold zone. fold p.
  destruct (Cloudflare.ListDNSRecords svc a h zone p) as [[|r rs]|e].
  - cbn [length Nat.eqb]. unfold bind, call, ret.
    destruct (Cloudflare.CreateDNSRecord _ _ _ _ _);
      eexists _, _; (split; [rewrite <- app_assoc; reflexivity|reflexivity]).
  - cbn [length Nat.eqb].
    destruct (updateRecords_shape cfdns a domain address (r :: rs) Ha
                (h ++ [Cloudflare.CallListDNSRecords zone p]))
      as (pre & post & out & Hsplit & Hpre & Hrun).
    exists out, (map (fun r => update_call cfdns r domain address) pre).
    split; [rewrite Hrun, <- app_assoc; reflexivity|].
    exists pre, post. auto.
  - exists (Some e), []. split; [reflexivity|auto].
Qed.

Lemma prepend_answered (a : Cloudflare.API) (h : list Cloudflare.Call)
    (c : Cloudflare.Call) (calls : list Cloudflare.Call) (out : option error) :
  answer_error svc a h c = None ->
  match out with
  | None => answered_ok a (h ++ [c]) calls
  | Some err => ends_with_error a (h ++ [c]) calls err
  end ->
  match out with
  | None => answered_ok a h (c :: calls)
  | Some err => ends_with_error a h (c :: calls) err
  end.
Proof.
  intros Hc H. destruct out as [err|]; simpl.
  - destruct calls; [contradiction|]. auto.
  - auto.
Qed.

Lemma updateRecords_errors (cfdns : CFDNS) (a : Cloudflare.API)
    (domain : Config.Domain) (address : string)
    (records : list Cloudflare.DNSRecord) :
  api cfdns = Some a ->
  forall h, exists out calls,
    updateRecords cfdns domain address records h = (Returned out, h ++ calls)
    /\ match out with
       | None => answered_ok a h calls
       | Some err => ends_with_error a h calls err
       end.
Proof.
  intros Ha. induction records as [|r rs IH]; intros h.
  - exists None, []. simpl. rewrite app_nil_r. auto.
  - cbn [Cf.updateRecords]. unfold bind at 1.
    destruct (record_matches r domain address) eqn:Hm.
    + rewrite (updateRecord_match _ _ _ _ _ _ Hm).
      exists None, []. simpl. rewrite app_nil_r. auto.
    + rewrite (updateRecord_differs _ _ _ _ _ _ _ Ha Hm).
      destruct (Cloudflare.UpdateDNSRecord _ _ _ _ _) as [r'|e] eqn:Hu.
      * destruct (IH (h ++ [update_call cfdns r domain address]))
          as (out & calls & Hrun & Hout).
        exists out, (update_call cfdns r domain address :: calls).
        split; [rewrite Hrun, <- app_assoc; reflexivity|].
        apply prepend_answered; [|exact Hout].
        unfold update_call, answer_error. now rewrite Hu.
      * exists (Some e), [update_call cfdns r domain address].
        split; [reflexivity|]. simpl. now rewrite Hu.
Qed.

(** X12. [checkAndUpdate] swallows no error and goes on after none: it
    returns nil exactly when every call it made was answered without
    error, and otherwise it returns the error of the last call it made,
    all calls before that one having succeeded. *)
Theorem checkAndUpdate_errors (cfdns : CFDNS) (a : Cloudflare.API)
    (domain : Config.Domain) (recordType address : string)
    (h : list Cloudflare.Call) :
  api cfdns = Some a ->
  exists out calls,
    checkAndUpdate cfdns domain recordType address h = (Returned out, h ++ calls)
    /\ match out with
       | None => answered_ok a h calls
       | Some err => ends_with_error a h calls err
       end.
Proof.
  intros Ha. unfold Cf.checkAndUpdate, getRecords. rewrite Ha.
  unfold bind at 1. unfold call at 1.
  set (zone := Config.ZoneID (cfg cfdns)).
  set (p := {| Cloudflare.ListName := Config.Hostname domain;
               Cloudflare.ListType := recordType |}).
  destruct (Cloudflare.ListDNSRecords svc a h zone p) as [records|e] eqn:Hl.
  - assert (Hc : answer_error svc a h (Cloudflare.CallListDNSRecords zone p) = None).
    { simpl. now rewrite Hl. }
    destruct records as [|r rs]; cbn [length Nat.eqb].
    + unfold bind, call, ret.
      set (q := {| Cloudflare.CreateName := Config.Hostname domain;
                   Cloudflare.CreateContent := address;
                   Cloudflare.CreateType := recordType;
                   Cloudflare.CreateProxied := Config.Proxied domain |}).
      destruct (Cloudflare.CreateDNSRecord svc a
                  (h ++ [Cloudflare.CallListDNSRecords zone p]) zone q)
        as [r'|e] eqn:Hq.
      * exists None, [Cloudflare.CallListDNSRecords zone p;
                      Cloudflare.CallCreateDNSRecord zone q].
        split; [rewrite <- app_assoc; reflexivity|].
        simpl. rewrite Hl, Hq. auto.
      * exists (Some e), [Cloudflare.CallListDNSRecords zone p;
                          Cloudflare.CallCreateDNSRecord zone q].
        split; [rewrite <- app_assoc; reflexivity|].
        simpl. rewrite Hl, Hq. auto.
    + destruct (updateRecords_errors cfdns a domain address (r :: rs) Ha
                  (h ++ [Cloudflare.CallListDNSRecords zone p]))
        as (out & calls & Hrun & Hout).
      exists out, (Cloudflare.CallListDNSRecords zone p :: calls).
      split; [rewrite Hrun, <- app_assoc; reflexivity|].
      now apply prepend_answered.
  - exists (Some e), [Cloudflare.CallListDNSRecords zone p].
    split; [reflexivity|]. simpl. now rewrite Hl.
Qed.

Lemma submit_for_resolved (use4 use6 : bool) (await4 await6 : Result string)
    (domains : list Config.Domain) :
  let ipv4 := if use4 then match await4 with Err _ => "" | Ok v => v end else "" in
  let ipv6 := if use6 then match await6 with Err _ => "" | Ok v => v end else "" in
  Forall (fun t =>
            In (task_domain t) domains
            /\ task_address t <> ""
            /\ ((task_type t = RECORD_TYPE_IPV4 /\ use4 = true
                 /\ await4 = Ok (task_address t))
                \/ (task_type t = RECORD_TYPE_IPV6 /\ use6 = true
                    /\ await6 = Ok (task_address t))))
         (flat_map (submit_for use4 use6 ipv4 ipv6) domains)
  /\ (length (flat_map (submit_for use4 use6 ipv4 ipv6) domains)
      <= 2 * length domains)%nat.
Proof.
  intros ipv4 ipv6. induction domains as [|d ds [IH1 IH2]].
  - split; [constructor|simpl; lia].
  - cbn [flat_map]. split.
    + apply Forall_app. split.
      * unfold submit_for. apply Forall_app. split.
        -- destruct use4; cbn [andb]; [|constructor].
           destruct (String.eqb ipv4 "") eqn:E; cbn [negb]; constructor;
             [|constructor].
           apply String.eqb_neq in E. cbn [task_domain task_address task_type].
           split; [now left|]. split; [exact E|]. left.
           unfold ipv4 in *. destruct await4; [auto|]. now destruct E.
        -- destruct use6; cbn [andb]; [|constructor].
           destruct (String.eqb ipv6 "") eqn:E; cbn [negb]; constructor;
             [|constructor].
           apply String.eqb_neq in E. cbn [task_domain task_address task_type].
           split; [now left|]. split; [exact E|]. right.
           unfold ipv6 in *. destruct await6; [auto|]. now destruct E.
      * eapply Forall_impl; [exact IH1|]. simpl.
        intros t (Hin & Hrest). split; [now right|exact Hrest].
    + rewrite length_app. unfold submit_for at 1. rewrite length_app.
      cbn [length] in *.
      destruct (use4 && negb (String.eqb ipv4 "")),
               (use6 && negb (String.eqb ipv6 "")); simpl; lia.
Qed.

(** The tasks come domain by domain, at most two for each. *)
Lemma submit_for_per_domain (use4 use6 : bool) (ipv4 ipv6 : string)
    (domains : list Config.Domain) :
  Forall2 (fun d chunk =>
             (length chunk <= 2)%nat
             /\ Forall (fun t => task_domain t = d) chunk)
          domains (map (submit_for use4 use6 ipv4 ipv6) domains).
Proof.
  induction domains as [|d ds IH]; cbn [map]; constructor; [|exact IH].
  unfold submit_for.
  destruct (use4 && negb (String.eqb ipv4 "")),
           (use6 && negb (String.eqb ipv6 "")); simpl;
    (split; [lia|repeat constructor]).
Qed.

(** X13. No task is submitted for an address that was not resolved in this
    cycle: every task of [Process] is for a configured domain, carries a
    non-empty address, and that address is what the resolution of its own,
    enabled, family yielded.  The tasks come domain by domain, at most two
    for each, and there is none at all when the zone check does not
    succeed.  On a struct without a pool [Process] panics in the zone
    check and no task is submitted. *)
Theorem Process_tasks_resolved (cfdns : CFDNS) (a : Cloudflare.API)
    (use4 use6 : bool) (fate : Fate) (await4 await6 : Result string)
    (h : list Cloudflare.Call) :
  api cfdns = Some a ->
  Config.IPv4 (cfg cfdns) = Some use4 ->
  Config.IPv6 (cfg cfdns) = Some use6 ->
  match pool cfdns with
  | None => fst (Process cfdns fate await4 await6 h) = Panicked
  | Some _ =>
  exists tasks,
    fst (Process cfdns fate await4 await6 h) = Returned tasks
    /\ Forall (fun t =>
                 In (task_domain t) (Config.Domains (cfg cfdns))
                 /\ task_address t <> ""
                 /\ ((task_type t = RECORD_TYPE_IPV4 /\ use4 = true
                      /\ await4 = Ok (task_address t))
                     \/ (task_type t = RECORD_TYPE_IPV6 /\ use6 = true
                         /\ await6 = Ok (task_address t))))
              tasks
    /\ (length tasks <= 2 * length (Config.Domains (cfg cfdns)))%nat
    /\ (exists chunks,
          tasks = concat chunks
          /\ Forall2 (fun d chunk =>
                        (length chunk <= 2)%nat
                        /\ Forall (fun t => task_domain t = d) chunk)
                     (Config.Domains (cfg cfdns)) chunks)
    /\ (fst (ZoneIsValid cfdns fate h) <> Returned (true, None) -> tasks = [])
  end.
Proof.
  intros Ha H4 H6.
  destruct (pool cfdns) as [p|] eqn:Hp;
    [|now rewrite (Process_nil_pool svc cfdns fate _ _ h Hp)].
  destruct (Process_run svc cfdns a p use4 use6 fate await4 await6 h
              Ha Hp H4 H6) as [_ HP].
  cbv zeta in HP. rewrite HP. cbn [fst].
  destruct (submit_for_resolved use4 use6 await4 await6
              (Config.Domains (cfg cfdns))) as [F L].
  cbv zeta in F, L.
  assert (Hnone : exists chunks : list (list Task),
             [] = concat chunks
             /\ Forall2 (fun d chunk =>
                           (length chunk <= 2)%nat
                           /\ Forall (fun t => task_domain t = d) chunk)
                        (Config.Domains (cfg cfdns)) chunks).
  { exists (map (submit_for false false "" "") (Config.Domains (cfg cfdns))).
    split; [|apply submit_for_per_domain].
    rewrite <- flat_map_concat_map.
    clear. induction (Config.Domains (cfg cfdns)) as [|d ds IH];
      [reflexivity|exact IH]. }
  destruct (fst (ZoneIsValid cfdns fate h)) as [[[|] [err|]]|];
    eexists; (split; [reflexivity|]);
    try (split; [constructor|split; [simpl; lia|split; [exact Hnone|reflexivity]]]).
  split; [exact F|]. split; [exact L|]. split.
  - eexists. split; [apply flat_map_concat_map|apply submit_for_per_domain].
  - intros H. now destruct H.
Qed.

End EngineFurther.

Lemma ZoneIsValid_spec_witness :
  Cf.ZoneIsValid Sample.service Sample.cfdns Cf.Runs []
  = (Cf.Returned (true, None), [ Cloudflare.CallListZones ])
  /\ Cf.ZoneIsValid Sample.service Sample.cfdns
       (Cf.Refused (Sentinel Canceled)) []
     = (Cf.Returned (false, Some (Sentinel Canceled)), []).
Proof.
  split.
  - destruct (ZoneIsValid_spec Sample.service Sample.cfdns
                {| Cloudflare.APIToken := "s3cr3t" |} Cf.Runs [] eq_refl)
      as (valid & err & H & Hv & _ & He).
    assert (V : valid = true).
    { apply Hv. split; [reflexivity|]. eexists. split; [reflexivity|].
      eexists. split; [left; reflexivity|reflexivity]. }
    rewrite H, V, (He V). reflexivity.
  - destruct (ZoneIsValid_spec Sample.service Sample.cfdns
                {| Cloudflare.APIToken := "s3cr3t" |}
                (Cf.Refused (Sentinel Canceled)) [] eq_refl)
      as (valid & err & H & Hv & He & _).
    assert (E : err = Some (Sentinel Canceled)).
    { apply He. left. reflexivity. }
    assert (V : valid = false).
    { destruct valid; [|reflexivity].
      destruct (proj1 Hv eq_refl) as [Hf _]. discriminate Hf. }
    rewrite H, V, E. reflexivity.
Defined.

Lemma checkAndUpdate_calls_witness :
  exists out tail,
    Cf.checkAndUpdate Sample.service Sample.cfdns
      (Sample.domain "dup.example.com" None) "A" "198.51.100.7" []
    = (Cf.Returned out,
       [] ++ Cloudflare.CallListDNSRecords "023e105f4ecef8ad9ca31a8372d0c353"
               {| Cloudflare.ListName := "dup.example.com";
                  Cloudflare.ListType := "A" |} :: tail).
Proof.
  destruct (checkAndUpdate_calls Sample.service Sample.cfdns
              {| Cloudflare.APIToken := "s3cr3t" |}
              (Sample.domain "dup.example.com" None) "A" "198.51.100.7" []
              eq_refl)
    as (out & tail & H & _).
  exists out, tail. exact H.
Defined.

Lemma checkAndUpdate_errors_witness :
  exists out calls,
    Cf.checkAndUpdate Sample.service Sample.cfdns
      (Sample.domain "b.example.com" (Some true)) "A" "203.0.113.9" []
    = (Cf.Returned out, [] ++ calls)
    /\ match out with
       | None => Cf.answered_ok Sample.service
                   {| Cloudflare.APIToken := "s3cr3t" |} [] calls
       | Some err => Cf.ends_with_error Sample.service
                       {| Cloudflare.APIToken := "s3cr3t" |} [] calls err
       end.
Proof.
  exact (checkAndUpdate_errors Sample.service Sample.cfdns
           {| Cloudflare.APIToken := "s3cr3t" |}
           (Sample.domain "b.example.com" (Some true)) "A" "203.0.113.9" []
           eq_refl).
Defined.

Lemma Process_tasks_resolved_witness :
  exists tasks,
    fst (Cf.Process Sample.service Sample.cfdns Cf.Runs (Ok "203.0.113.9")
           (Ok "2001:db8::1") []) = Cf.Returned tasks
    /\ (length tasks <= 2)%nat.
Proof.
  destruct (Process_tasks_resolved Sample.service Sample.cfdns
              {| Cloudflare.APIToken := "s3cr3t" |} true true Cf.Runs
              (Ok "203.0.113.9") (Ok "2001:db8::1") []
              eq_refl eq_refl eq_refl)
    as (tasks & H & _ & L & _).
  exists tasks. split; [exact H|exact L].
Defined.

(** ** pkg/cf: the struct and its pools *)
Section StoreFurther.
Import Cf.
Variable svc : Cloudflare.Service.
Variable pool_sizes : Z -> Z -> option (Z * Z).

Local Abbreviation SetConfig := (Cf.SetConfig svc pool_sizes).
Local Abbreviation NewCFDNS := (Cf.NewCFDNS svc pool_sizes).

(** A successful replacement, whatever the struct held before. *)
Lemma SetConfig_success (st : State) (c : Config.Config) (a : Cloudflare.API)
    (w q : Z) :
  Cloudflare.NewWithAPIToken svc (Config.Token c) = Ok a ->
  pool_sizes (Config.WorkerCount c) (wrap64 (Config.WorkerCount c * 5))
    = Some (w, q) ->
  let closed := match pool (store st) with
                | Some p => alter close_pool p (pools st)
                | None => pools st
                end in
  exists st',
    SetConfig (Some c) st = (Returned None, st')
    /\ store st' = {| cfg := c; api := Some a;
                      httpClient := {| ClientTimeout := Config.Timeout c |};
                      timeout := Config.Timeout c;
                      pool := Some (length (pools st)) |}
    /\ pools st' = closed ++ [ {| workers := w; queue := q;
                                  pool_state := PoolOpen |} ]
    /\ length closed = length (pools st)
    /\ level st' = (if Config.Verbose c then DebugLevel else InfoLevel).
Proof.
  intros Hn Hs. cbv zeta. unfold Cf.SetConfig, Cf.NewPool. rewrite Hn, Hs.
  destruct st as [[g0 a0 h0 t0 [p|]] ps l lg]; cbn [store pool pools];
    (eexists; split; [reflexivity|]); simpl; rewrite ?length_alter;
    repeat split.
Qed.

(** A replacement in which [goropo.NewPool] panics: the old pool is closed
    and stays in the struct. *)
Lemma SetConfig_panic (st : State) (c : Config.Config) (a : Cloudflare.API) :
  Cloudflare.NewWithAPIToken svc (Config.Token c) = Ok a ->
  pool_sizes (Config.WorkerCount c) (wrap64 (Config.WorkerCount c * 5)) = None ->
  let closed := match pool (store st) with
                | Some p => alter close_pool p (pools st)
                | None => pools st
                end in
  exists st',
    SetConfig (Some c) st = (Panicked, st')
    /\ store st' = {| cfg := cfg (store st); api := Some a;
                      httpClient := {| ClientTimeout := Config.Timeout c |};
                      timeout := Config.Timeout c;
                      pool := pool (store st) |}
    /\ pools st' = closed
    /\ level st' = level st.
Proof.
  intros Hn Hs. cbv zeta. unfold Cf.SetConfig, Cf.NewPool. rewrite Hn, Hs.
  destruct st as [[g0 a0 h0 t0 [p|]] ps l lg]; cbn [store pool pools];
    (eexists; split; [reflexivity|]); simpl; repeat split.
Qed.

(** X14. [SetConfig] leaks no pool: if every open pool is the one the
    struct holds, the same is true afterwards, on every way out.  When
    [SetConfig] returns, a struct that held an open pool still holds one;
    and after a replacement that returns no error the struct holds an open
    pool, the new one.  When [goropo.NewPool] panics, the struct is left
    without an open pool. *)
Theorem SetConfig_keeps_pools (new : option Config.Config) (st : State) :
  no_leak st ->
  no_leak (snd (SetConfig new st))
  /\ (current_open st -> fst (SetConfig new st) <> Panicked ->
      current_open (snd (SetConfig new st)))
  /\ (forall c, new = Some c -> fst (SetConfig new st) = Returned None ->
        current_open (snd (SetConfig new st))
        /\ pool (store (snd (SetConfig new st))) = Some (length (pools st))
        /\ length (pools (snd (SetConfig new st))) = S (length (pools st)))
  /\ (fst (SetConfig new st) = Panicked ->
      ~ current_open (snd (SetConfig new st))).
Proof.
  intros Hleak. destruct new as [c|].
  2:{ split; [exact Hleak|]. split; [auto|].
      split; [intros c H; discriminate H|]. intros H. discriminate H. }
  destruct (Cloudflare.NewWithAPIToken svc (Config.Token c)) as [a|e] eqn:Hn.
  - destruct (pool_sizes (Config.WorkerCount c)
                (wrap64 (Config.WorkerCount c * 5))) as [[w q]|] eqn:Hs.
    + destruct (SetConfig_success st c a w q Hn Hs)
        as (st' & Hrun & Hstore & Hpools & Hlen & _).
      cbv zeta in Hpools, Hlen. rewrite Hrun. cbn [fst snd].
      set (closed := match pool (store st) with
                     | Some p => alter close_pool p (pools st)
                     | None => pools st
                     end) in *.
      assert (Hnew : current_open st').
      { exists (length (pools st)), {| workers := w; queue := q;
                                        pool_state := PoolOpen |}.
        rewrite Hstore, Hpools. split; [reflexivity|]. split; [|reflexivity].
        rewrite lookup_app_r by lia. now rewrite Hlen, Nat.sub_diag. }
      split; [|split; [auto|split]].
      * intros i q' Hi Hq. rewrite Hstore. cbn [pool]. f_equal.
        rewrite Hpools in Hi. apply lookup_app_Some in Hi as [Hi|[Hge Hi]].
        -- exfalso. unfold closed in Hi.
           destruct (pool (store st)) as [p|] eqn:Hp.
           ++ destruct (decide (p = i)) as [->|Hne].
              ** rewrite list_lookup_alter_eq in Hi.
                 destruct (pools st !! i) as [q0|]; [|discriminate].
                 simpl in Hi. inversion Hi; subst q'. discriminate Hq.
              ** rewrite list_lookup_alter_ne in Hi by exact Hne.
                 specialize (Hleak i q' Hi Hq). congruence.
           ++ specialize (Hleak i q' Hi Hq). congruence.
        -- rewrite Hlen in Hge, Hi.
           destruct (i - length (pools st))%nat as [|k] eqn:Hk; [lia|].
           destruct k; discriminate Hi.
      * intros c' _ _. split; [exact Hnew|]. split.
        -- now rewrite Hstore.
        -- rewrite Hpools, length_app, Hlen. simpl. lia.
      * intros H. discriminate H.
    + destruct (SetConfig_panic st c a Hn Hs) as (st' & Hrun & Hstore & Hpools & _).
      cbv zeta in Hpools. rewrite Hrun. cbn [fst snd].
      assert (Hclosed : forall i q', pools st' !! i = Some q' ->
                 pool_state q' = PoolOpen -> pool (store st) <> Some i).
      { intros i q' Hi Hq Hp. rewrite Hpools, Hp in Hi.
        rewrite list_lookup_alter_eq in Hi.
        destruct (pools st !! i) as [q0|]; [|discriminate].
        simpl in Hi. inversion Hi; subst q'. discriminate Hq. }
      split; [|split; [|split]].
      * intros i q' Hi Hq. exfalso.
        pose proof (Hclosed i q' Hi Hq) as Hne.
        rewrite Hpools in Hi.
        destruct (pool (store st)) as [p|] eqn:Hp.
        -- rewrite list_lookup_alter_ne in Hi by congruence.
           specialize (Hleak i q' Hi Hq). congruence.
        -- specialize (Hleak i q' Hi Hq). congruence.
      * intros _ H. now destruct H.
      * intros c' _ H. discriminate H.
      * intros _ (p & q' & H1 & H2 & H3).
        apply (Hclosed p q' H2 H3). rewrite Hstore in H1. exact H1.
  - unfold Cf.SetConfig. rewrite Hn. cbn [fst snd].
    split; [|split; [|split]].
    + intros i q Hi Hq. exact (Hleak i q Hi Hq).
    + intros (p & q & H1 & H2 & H3) _. exists p, q. auto.
    + intros c' _ H. discriminate H.
    + intros H. discriminate H.
Qed.

(** X15. [NewCFDNS] never returns an error.  When the client constructor
    fails it returns a struct that has no client and no pool and whose
    configuration is the zero value, and no pool was made.  When the
    constructor succeeds, [goropo.NewPool] is asked for the configured
    number of workers and five times as many queue places, in Go's
    wrapping arithmetic: if it builds a pool, the struct returned holds
    the configuration, the client, the timeout and that pool, open and of
    the sizes the library gave it; if it panics, so does [NewCFDNS], no
    struct is returned and no pool was made. *)
Theorem NewCFDNS_never_fails (c : Config.Config) (w : State) :
  (forall err, fst (NewCFDNS c w) <> Returned (Some err))
  /\ (forall err,
        Cloudflare.NewWithAPIToken svc (Config.Token c) = Err err ->
        fst (NewCFDNS c w) = Returned None
        /\ store (snd (NewCFDNS c w)) = zero_CFDNS
        /\ pools (snd (NewCFDNS c w)) = pools w)
  /\ (forall a,
        Cloudflare.NewWithAPIToken svc (Config.Token c) = Ok a ->
        match pool_sizes (Config.WorkerCount c)
                         (wrap64 (Config.WorkerCount c * 5)) with
        | Some (workers_made, queue_made) =>
            fst (NewCFDNS c w) = Returned None
            /\ store (snd (NewCFDNS c w))
               = {| cfg := c; api := Some a;
                    httpClient := {| ClientTimeout := Config.Timeout c |};
                    timeout := Config.Timeout c;
                    pool := Some (length (pools w)) |}
            /\ pools (snd (NewCFDNS c w))
               = pools w ++ [ {| workers := workers_made; queue := queue_made;
                                 pool_state := PoolOpen |} ]
        | None =>
            fst (NewCFDNS c w) = Panicked
            /\ pools (snd (NewCFDNS c w)) = pools w
        end).
Proof.
  unfold Cf.NewCFDNS.
  set (st := {| store := zero_CFDNS; pools := pools w; level := level w;
                log := log w |}).
  split; [|split].
  - intros err. destruct (SetConfig (Some c) st) as [[o|] st']; discriminate.
  - intros err Hn. unfold Cf.SetConfig. rewrite Hn. repeat split.
  - intros a Hn.
    destruct (pool_sizes (Config.WorkerCount c)
                (wrap64 (Config.WorkerCount c * 5))) as [[wk q]|] eqn:Hs.
    + destruct (SetConfig_success st c a wk q Hn Hs)
        as (st' & Hrun & Hstore & Hpools & _).
      rewrite Hrun. cbn [fst snd].
      split; [reflexivity|]. split; [exact Hstore|exact Hpools].
    + destruct (SetConfig_panic st c a Hn Hs) as (st' & Hrun & _ & Hpools & _).
      rewrite Hrun. cbn [fst snd]. split; [reflexivity|exact Hpools].
Qed.

End StoreFurther.

Lemma SetConfig_keeps_pools_witness :
  Cf.no_leak (snd (Cf.SetConfig Sample.service Sample.pool_sizes
                     (Some Sample.replacement) Sample.state)).
Proof.
  apply (SetConfig_keeps_pools Sample.service Sample.pool_sizes
           (Some Sample.replacement) Sample.state).
  intros [|[|i]] q Hi Hq; simpl in Hi; try discriminate Hi. reflexivity.
Defined.

(** ** cmd: reloading the configuration *)
Section ReloadProperties.
Import Cf.
Variable ReadFile : string -> Result string.
Variable env : gmap string string.
Variable Decode : string -> Result Config.Config.
Variable TrimFunc_IsSpace : string -> string.
Variable TrimRightFunc_IsSpace : string -> string.
Variable svc : Cloudflare.Service.
Variable pool_sizes : Z -> Z -> option (Z * Z).

Local Abbreviation LoadConfig :=
  (Config.LoadConfig ReadFile env Decode TrimFunc_IsSpace TrimRightFunc_IsSpace).
Local Abbreviation reload :=
  (Main.reload ReadFile env Decode TrimFunc_IsSpace TrimRightFunc_IsSpace svc
     pool_sizes).

Lemma LoadConfig_worker_count (file : string) (c : Config.Config) :
  LoadConfig file = Ok c -> (1 <= Config.WorkerCount c <= 100)%Z.
Proof.
  unfold Config.LoadConfig.
  destruct (ReadFile file) as [raw|]; [|discriminate].
  destruct (Config.expandEnv env raw) as [data|]; [|discriminate].
  destruct (Decode data) as [c0|]; [|discriminate].
  intros H. apply normalize_ok in H.
  destruct H as (_ & _ & _ & _ & _ & _ & _ & _ & _ & _ & H & _). exact H.
Qed.

(** X16. A reload that fails keeps the engine as it is: when the file
    cannot be loaded, or the loaded configuration yields no client, the
    reload returns, and the struct, the pools and the log level after it
    are those from before. *)
Theorem reload_failure_keeps_engine (file : string) (cfg : Config.Config)
    (st : State) :
  (is_err (LoadConfig file) = true
   \/ exists c, LoadConfig file = Ok c
        /\ is_err (Cloudflare.NewWithAPIToken svc (Config.Token c)) = true) ->
  fst (reload file cfg st) = Returned tt
  /\ store (snd (reload file cfg st)) = store st
  /\ pools (snd (reload file cfg st)) = pools st
  /\ level (snd (reload file cfg st)) = level st.
Proof.
  unfold Main.reload. intros [H|(c & Hc & H)].
  - destruct (LoadConfig file); [discriminate|]. auto.
  - rewrite Hc. unfold Cf.SetConfig.
    destruct (Cloudflare.NewWithAPIToken svc (Config.Token c)); [discriminate|].
    auto.
Qed.

(** X17. In a reload that loads the file and gets a client,
    [goropo.NewPool] is asked for between 1 and 100 workers and a queue of
    exactly five times as many: the product never wraps around.  If the
    library builds the pool, the reload returns, the struct holds the
    loaded configuration, its client and the new pool, open, and the log
    level in force afterwards is the one of the configuration [main]
    loaded at startup, not of the reloaded one.  If the library panics, so
    does the reload. *)
Theorem reload_success (file : string) (cfg : Config.Config) (st : State)
    (c : Config.Config) (a : Cloudflare.API) :
  LoadConfig file = Ok c ->
  Cloudflare.NewWithAPIToken svc (Config.Token c) = Ok a ->
  (1 <= Config.WorkerCount c <= 100)%Z
  /\ wrap64 (Config.WorkerCount c * 5) = (5 * Config.WorkerCount c)%Z
  /\ match pool_sizes (Config.WorkerCount c) (5 * Config.WorkerCount c) with
     | Some (w, q) =>
         fst (reload file cfg st) = Returned tt
         /\ Cf.cfg (store (snd (reload file cfg st))) = c
         /\ api (store (snd (reload file cfg st))) = Some a
         /\ pool (store (snd (reload file cfg st))) = Some (length (pools st))
         /\ pools (snd (reload file cfg st)) !! length (pools st)
            = Some {| workers := w; queue := q; pool_state := PoolOpen |}
         /\ level (snd (reload file cfg st)) = Main.level_of (Config.Verbose cfg)
     | None => fst (reload file cfg st) = Panicked
     end.
Proof.
  intros Hc Hn. pose proof (LoadConfig_worker_count _ _ Hc) as Hw.
  assert (Hwrap : wrap64 (Config.WorkerCount c * 5) = (5 * Config.WorkerCount c)%Z).
  { unfold wrap64. rewrite Z.mod_small by lia. lia. }
  split; [exact Hw|]. split; [exact Hwrap|].
  unfold Main.reload. rewrite Hc.
  destruct (pool_sizes (Config.WorkerCount c) (5 * Config.WorkerCount c))
    as [[w q]|] eqn:Hs; rewrite <- Hwrap in Hs.
  - destruct (SetConfig_success svc pool_sizes st c a w q Hn Hs)
      as (st' & Hrun & Hstore & Hpools & Hlen & _).
    cbv zeta in Hpools, Hlen. rewrite Hrun.
    unfold SetGlobalLevel, emit. cbn [fst snd store pools level].
    rewrite Hstore, Hpools. cbn [Cf.cfg api pool].
    repeat split.
    rewrite lookup_app_r by lia. now rewrite Hlen, Nat.sub_diag.
  - destruct (SetConfig_panic svc pool_sizes st c a Hn Hs) as (st' & Hrun & _).
    rewrite Hrun. reflexivity.
Qed.

End ReloadProperties.

Lemma reload_failure_keeps_engine_witness :
  Cf.store (snd (Main.reload Sample.ReadFile Sample.environ Sample.Decode
                   Sample.TrimFunc_IsSpace Sample.TrimRightFunc_IsSpace
                   Sample.service Sample.pool_sizes
                   "missing.yaml" Sample.loaded Sample.state))
  = Sample.cfdns.
Proof.
  apply (reload_failure_keeps_engine Sample.ReadFile Sample.environ Sample.Decode
           Sample.TrimFunc_IsSpace Sample.TrimRightFunc_IsSpace Sample.service
           Sample.pool_sizes "missing.yaml" Sample.loaded Sample.state).
  left. reflexivity.
Defined.

Lemma reload_success_witness :
  Cf.pool (Cf.store (snd (Main.reload Sample.ReadFile Sample.environ
                            Sample.Decode Sample.TrimFunc_IsSpace
                            Sample.TrimRightFunc_IsSpace Sample.service
                            Sample.pool_sizes
                            "cfdns.yaml" Sample.replacement Sample.state)))
  = Some 1%nat
  /\ Cf.pools (snd (Main.reload Sample.ReadFile Sample.environ
                      Sample.Decode Sample.TrimFunc_IsSpace
                      Sample.TrimRightFunc_IsSpace Sample.service
                      Sample.pool_sizes
                      "cfdns.yaml" Sample.replacement Sample.state)) !! 1%nat
     = Some {| Cf.workers := 10; Cf.queue := 50; Cf.pool_state := Cf.PoolOpen |}
  /\ Cf.level (snd (Main.reload Sample.ReadFile Sample.environ Sample.Decode
                      Sample.TrimFunc_IsSpace Sample.TrimRightFunc_IsSpace
                      Sample.service Sample.pool_sizes
                      "cfdns.yaml" Sample.replacement Sample.state))
     = Cf.DebugLevel.
Proof.
  destruct (reload_success Sample.ReadFile Sample.environ Sample.Decode
              Sample.TrimFunc_IsSpace Sample.TrimRightFunc_IsSpace Sample.service
              Sample.pool_sizes
              "cfdns.yaml" Sample.replacement Sample.state Sample.loaded
              {| Cloudflare.APIToken := "s3cr3t" |})
    as (_ & _ & H); [vm_compute; reflexivity|reflexivity|].
  destruct H as (_ & _ & _ & Hp & Hq & Hl).
  split; [exact Hp|]. split; [exact Hq|exact Hl].
Defined.

(** ** cmd, first version: every record is looked at *)
Section FirstVersion.
Import Cf.
Variable svc : Cloudflare.Service.

Local Abbreviation updateRecords := (CmdV1.updateRecords svc).
Local Abbreviation checkAndUpdate := (CmdV1.checkAndUpdate svc).

Lemma updateRecords_v1_all (api : Cloudflare.API) (cfg : CmdV1.Config)
    (domain : Config.Domain) (address : string)
    (records : list Cloudflare.DNSRecord) :
  (forall h p, is_err (Cloudflare.UpdateDNSRecord svc api h (CmdV1.ZoneID cfg) p)
               = false) ->
  forall h,
    updateRecords api cfg domain address records h
    = (Returned None,
       h ++ map (fun r => CmdV1.update_call cfg r domain address)
                (List.filter (CmdV1.content_differs address) records)).
Proof.
  intros Hok. induction records as [|r rs IH]; intros h.
  - simpl. now rewrite app_nil_r.
  - cbn [CmdV1.updateRecords List.filter]. unfold bind at 1.
    unfold CmdV1.updateRecord, CmdV1.content_differs.
    destruct (String.eqb (Cloudflare.Content r) address); cbn [negb].
    + unfold ret. apply IH.
    + unfold bind, call, ret.
      specialize (Hok h {| Cloudflare.UpdateID := Cloudflare.ID r;
                           Cloudflare.UpdateContent := address;
                           Cloudflare.UpdateProxied := Config.Proxied domain |}).
      destruct (Cloudflare.UpdateDNSRecord _ _ _ _ _); [|discriminate].
      rewrite IH. cbn [map]. rewrite <- app_assoc. reflexivity.
Qed.

(** X18. In the first version of [checkAndUpdate] a record whose content
    is the address is passed over and the loop goes on: when no update
    fails, the update calls are those for all the listed records whose
    content differs from the address, in the order of the listing, and for
    no other; the proxied flag of a record plays no part. *)
Theorem checkAndUpdate_v1_updates_all (api : Cloudflare.API)
    (cfg : CmdV1.Config) (domain : Config.Domain)
    (recordType address : string) (records : list Cloudflare.DNSRecord)
    (h : list Cloudflare.Call) :
  (forall h' p, is_err (Cloudflare.UpdateDNSRecord svc api h' (CmdV1.ZoneID cfg) p)
                = false) ->
  Cloudflare.ListDNSRecords svc api h (CmdV1.ZoneID cfg)
    {| Cloudflare.ListName := Config.Hostname domain;
       Cloudflare.ListType := recordType |} = Ok records ->
  records <> [] ->
  checkAndUpdate api cfg domain recordType address h
  = (Returned None,
     h ++ Cloudflare.CallListDNSRecords (CmdV1.ZoneID cfg)
            {| Cloudflare.ListName := Config.Hostname domain;
               Cloudflare.ListType := recordType |}
       :: map (fun r => CmdV1.update_call cfg r domain address)
              (List.filter (CmdV1.content_differs address) records)).
Proof.
  intros Hok Hl Hne. unfold CmdV1.checkAndUpdate, CmdV1.getRecords.
  unfold bind at 1. unfold call at 1. rewrite Hl.
  destruct records as [|r rs]; [contradiction|]. cbn [length Nat.eqb].
  rewrite (updateRecords_v1_all _ _ _ _ _ Hok), <- app_assoc. reflexivity.
Qed.

End FirstVersion.

Lemma checkAndUpdate_v1_updates_all_witness :
  CmdV1.checkAndUpdate Sample.service {| Cloudflare.APIToken := "s3cr3t" |}
    {| CmdV1.ZoneID := "023e105f4ecef8ad9ca31a8372d0c353"; CmdV1.Token := "s3cr3t";
       CmdV1.Frequency := Hour; CmdV1.Verbose := false;
       CmdV1.IPv4 := true; CmdV1.IPv6 := false;
       CmdV1.Domains := [ Sample.domain "dup.example.com" None ] |}
    (Sample.domain "dup.example.com" None) "A" "203.0.113.9" []
  = (Cf.Returned None,
     [ Cloudflare.CallListDNSRecords "023e105f4ecef8ad9ca31a8372d0c353"
         {| Cloudflare.ListName := "dup.example.com"; Cloudflare.ListType := "A" |};
       Cloudflare.CallUpdateDNSRecord "023e105f4ecef8ad9ca31a8372d0c353"
         {| Cloudflare.UpdateID := "r2";
            Cloudflare.UpdateContent := "203.0.113.9";
            Cloudflare.UpdateProxied := None |} ]).
Proof.
  apply (checkAndUpdate_v1_updates_all Sample.service
           {| Cloudflare.APIToken := "s3cr3t" |}
           {| CmdV1.ZoneID := "023e105f4ecef8ad9ca31a8372d0c353";
              CmdV1.Token := "s3cr3t";
              CmdV1.Frequency := Hour; CmdV1.Verbose := false;
              CmdV1.IPv4 := true; CmdV1.IPv6 := false;
              CmdV1.Domains := [ Sample.domain "dup.example.com" None ] |}
           (Sample.domain "dup.example.com" None) "A" "203.0.113.9"
           [ Sample.record "r1" "203.0.113.9" None;
             Sample.record "r2" "198.51.100.7" None ] []).
  - intros h' p. reflexivity.
  - reflexivity.
  - discriminate.
Defined.

(** ** cmd: the configuration file watcher, further *)
Section WatcherFurther.
Import Watcher.

Lemma Changed_same (s : FileSig) : Changed (Some s) (Some s) = false.
Proof.
  simpl. now rewrite Z.ltb_irrefl, !Z.eqb_refl.
Qed.

(** X19. A file that does not change is never reported: from a watcher
    that holds no signature or the signature [s], polls that cannot read
    the file or read [s] again attempt no notification and leave the
    channel as it is, however many they are. *)
Theorem watcher_quiet_on_unchanged_file (s : FileSig) (w : Watch)
    (observed : list (option FileSig)) :
  fileSig w = None \/ fileSig w = Some s ->
  Forall (fun o => o = None \/ o = Some s) observed ->
  snd (ticks w observed) = replicate (length observed) false
  /\ ch (fst (ticks w observed)) = ch w
  /\ (fileSig (fst (ticks w observed)) = None
      \/ fileSig (fst (ticks w observed)) = Some s).
Proof.
  intros Hw Hobs. revert w Hw.
  induction Hobs as [|o obs Ho _ IH]; intros w Hw.
  - simpl. auto.
  - cbn [ticks].
    assert (Ht : snd (tick w o) = false /\ ch (fst (tick w o)) = ch w
                 /\ (fileSig (fst (tick w o)) = None
                     \/ fileSig (fst (tick w o)) = Some s)).
    { destruct w as [f c]. cbn [fileSig] in Hw. unfold tick. cbn [fileSig ch].
      destruct Ho as [->| ->]; [auto|].
      destruct Hw as [->| ->]; [cbn; auto|].
      rewrite Changed_same. cbn. auto. }
    destruct (tick w o) as [w1 sent]. cbn [fst snd] in Ht.
    destruct Ht as (-> & Hc & Hf).
    destruct (IH w1 Hf) as (H1 & H2 & H3).
    destruct (ticks w1 obs) as [w2 sents]. cbn [fst snd length replicate] in *.
    rewrite H1, H2, Hc. auto.
Qed.

(** X20. However many changes a run sees, one notification at most waits
    in the channel: it holds one after the run exactly when it held one
    before or some tick attempted to send; and the signature the watcher
    holds is the one it started with or one it observed. *)
Theorem ticks_pending (w : Watch) (observed : list (option FileSig)) :
  ch (fst (ticks w observed)) = ch w || existsb id (snd (ticks w observed))
  /\ In (fileSig (fst (ticks w observed))) (fileSig w :: observed).
Proof.
  revert w. induction observed as [|o obs IH]; intros w.
  - simpl. rewrite orb_false_r. auto.
  - cbn [ticks].
    assert (Ht : ch (fst (tick w o)) = ch w || snd (tick w o)
                 /\ (fileSig (fst (tick w o)) = fileSig w
                     \/ fileSig (fst (tick w o)) = o)).
    { destruct w as [[a|] c], o as [b|]; unfold tick; cbn [fileSig ch];
        try (cbn; rewrite ?orb_false_r; auto; fail).
      destruct (Changed (Some a) (Some b)); cbn;
        rewrite ?orb_true_r, ?orb_false_r; auto. }
    destruct (tick w o) as [w1 sent]. cbn [fst snd] in Ht.
    destruct Ht as (Hc & Hf).
    destruct (IH w1) as (H1 & H2).
    destruct (ticks w1 obs) as [w2 sents]. cbn [fst snd existsb id] in *.
    split.
    + rewrite H1, Hc. unfold id. now rewrite orb_assoc.
    + destruct H2 as [H2|H2]; [|right; right; exact H2].
      rewrite <- H2. destruct Hf as [->| ->]; [left|right; left]; reflexivity.
Qed.

End WatcherFurther.

Lemma watcher_quiet_on_unchanged_file_witness :
  snd (Watcher.watchFile None
         [ None; Some (Sample.sig 100 10 7); None; Some (Sample.sig 100 10 7) ])
  = [ false; false; false; false ].
Proof.
  apply (watcher_quiet_on_unchanged_file (Sample.sig 100 10 7)
           {| Watcher.fileSig := None; Watcher.ch := false |}
           [ None; Some (Sample.sig 100 10 7); None; Some (Sample.sig 100 10 7) ]).
  - left. reflexivity.
  - constructor; [left; reflexivity|].
    constructor; [right; reflexivity|].
    constructor; [left; reflexivity|].
    constructor; [right; reflexivity|constructor].
Defined.

Lemma Process_no_address_no_task_witness :
  Ipget.GetPublicIPv4 (fun _ => Err (Errorf "dial tcp: no such host"))
    Sample.ParseIP Sample.IPString Sample.Shuffle
    Sample.TrimFunc_IsSpace Sample.TrimRightFunc_IsSpace
  = Err (Errorf "could not retrieve public IP address")
  /\ exists tasks,
       fst (Cf.Process Sample.service Sample.cfdns Cf.Runs
              (Ipget.GetPublicIPv4 (fun _ => Err (Errorf "dial tcp: no such host"))
                 Sample.ParseIP Sample.IPString Sample.Shuffle
                 Sample.TrimFunc_IsSpace Sample.TrimRightFunc_IsSpace)
              (Ok "2001:db8::1") [])
       = Cf.Returned tasks
       /\ Cf.tasks_of_type Cf.RECORD_TYPE_IPV4 tasks = [].
Proof.
  apply (Process_no_address_no_task
           (fun _ => Err (Errorf "dial tcp: no such host"))
           Sample.ParseIP Sample.IPString Sample.Shuffle
           Sample.TrimFunc_IsSpace Sample.TrimRightFunc_IsSpace Sample.service
           Sample.cfdns {| Cloudflare.APIToken := "s3cr3t" |} true true
           Cf.Runs (Ok "2001:db8::1") []); try reflexivity.
  constructor; [|constructor; [|constructor; [|constructor]]];
    left; exists (Errorf "dial tcp: no such host"); repeat split; reflexivity.
Defined.
